(** * Screenshot Magician: chat classification, layer store, censor store,
      layout and export naming

    A shallow embedding of [frontend/src/components/Magician.vue].

    Conventions of the model.
    - A JavaScript string is a Rocq [string]; each [ascii] stands for one
      UTF-16 code unit in the range 0..255.  Every pattern of the source is
      ASCII, and under the [i] flag an ASCII pattern character never matches a
      code unit above 127, so ASCII case folding is exact on this range.
    - Integral JavaScript numbers (ids, offsets, counters) are [Z]; pixel
      measures and transforms are [Q].
    - Reactive references ([ref], [reactive], [computed]) are fields of one
      editor record that every operation takes and returns.  An object held
      by reference inside an array (a layer, a censor region) is addressed by
      its index and written back at that index.  Watchers, which run after
      the operation and copy the active layer's transform to and from
      [chatTransform], are outside the model. *)

From Stdlib Require Import ZArith QArith Qminmax Ascii String DecimalString.
From stdpp Require Import base list strings.

Local Open Scope Z_scope.

(** ** JavaScript string primitives *)

Module JsString.

Definition code (c : ascii) : N := N_of_ascii c.

Definition between (lo hi : N) (c : ascii) : bool :=
  ((lo <=? code c) && (code c <=? hi))%N.

(** WhiteSpace and LineTerminator code units below 256: TAB, LF, VT, FF, CR,
    SP and NBSP.  Used by [trim] and by the [\s] class. *)
Definition isWhiteSpace (c : ascii) : bool :=
  between 9 13 c || (code c =? 32)%N || (code c =? 160)%N.

Definition isDigit (c : ascii) : bool := between 48 57 c.
Definition isUpper (c : ascii) : bool := between 65 90 c.
Definition isLower (c : ascii) : bool := between 97 122 c.

(** The [\w] class. *)
Definition isWordChar (c : ascii) : bool :=
  isUpper c || isLower c || isDigit c || (code c =? 95)%N.

Definition toUpper (c : ascii) : ascii :=
  if isLower c then ascii_of_N (code c - 32) else c.

Definition isEmpty (s : string) : bool :=
  match s with EmptyString => true | String _ _ => false end.

(** Truthiness of a string: [''] is falsy. *)
Definition truthy (s : string) : bool := negb (isEmpty s).

(** [a || b] on strings. *)
Definition orElse (a b : string) : string := if truthy a then a else b.

Fixpoint trimStart (s : string) : string :=
  match s with
  | String c r => if isWhiteSpace c then trimStart r else s
  | EmptyString => EmptyString
  end.

Fixpoint trimEnd (s : string) : string :=
  match s with
  | String c r =>
      let r' := trimEnd r in
      if isWhiteSpace c && isEmpty r' then EmptyString else String c r'
  | EmptyString => EmptyString
  end.

Definition trim (s : string) : string := trimEnd (trimStart s).

(** [s.split(sep)] for a one-character separator: never the empty list. *)
Fixpoint split (sep : ascii) (s : string) : list string :=
  match s with
  | EmptyString => [EmptyString]
  | String c r =>
      if Ascii.eqb c sep then EmptyString :: split sep r
      else match split sep r with
           | w :: ws => String c w :: ws
           | [] => [String c EmptyString]
           end
  end.

(** [parts.join(sep)]. *)
Fixpoint join (sep : string) (parts : list string) : string :=
  match parts with
  | [] => EmptyString
  | [w] => w
  | w :: ws => w +:+ sep +:+ join sep ws
  end.

Fixpoint startsWith (p s : string) : bool :=
  match p, s with
  | EmptyString, _ => true
  | String a p', String b s' => Ascii.eqb a b && startsWith p' s'
  | String _ _, EmptyString => false
  end.

Fixpoint includes (p s : string) : bool :=
  startsWith p s ||
  match s with
  | String _ s' => includes p s'
  | EmptyString => false
  end.

Fixpoint take (n : nat) (s : string) : string :=
  match n, s with
  | S n', String c r => String c (take n' r)
  | _, _ => EmptyString
  end.

Fixpoint drop (n : nat) (s : string) : string :=
  match n, s with
  | S n', String _ r => drop n' r
  | _, _ => s
  end.

Definition len (s : string) : Z := Z.of_nat (String.length s).

(** Relative index of [slice]: negative counts from the end, then clamped. *)
Definition relIndex (l i : Z) : Z :=
  if i <? 0 then Z.max (l + i) 0 else Z.min i l.

(** [s.slice(from, to)]. *)
Definition slice (from to : Z) (s : string) : string :=
  let a := relIndex (len s) from in
  let b := relIndex (len s) to in
  take (Z.to_nat (b - a)) (drop (Z.to_nat a) s).

(** [s.slice(from)]. *)
Definition sliceFrom (from : Z) (s : string) : string :=
  drop (Z.to_nat (relIndex (len s) from)) s.

(** [n.toString()] for a non-negative integer. *)
Definition toString (n : N) : string := NilEmpty.string_of_uint (N.to_uint n).

Fixpoint repeat (c : ascii) (n : nat) : string :=
  match n with
  | O => EmptyString
  | S n' => String c (repeat c n')
  end.

(** [s.padStart(width, c)] for a one-character filler. *)
Definition padStart (width : nat) (c : ascii) (s : string) : string :=
  repeat c (width - String.length s) +:+ s.

(** The double quote, for the attribute values of generated markup. *)
Definition dq : string := String "034"%char EmptyString.

End JsString.

(** ** Regular expressions

    The fragment of ECMAScript regular expressions that the source uses: a
    disjunction of sequences of literals, one-character classes, greedy or lazy
    repetition of a class, [^] and [\b].  The matcher explores the choices in
    the priority order of the backtracking semantics, so the match it returns
    is the one [exec] finds.  [capture] says that the whole pattern is written
    inside one capturing group, as every [splitPattern] of the table is. *)

Module RegExp.
Import JsString.

Inductive atom : Type :=
| Chr (c : ascii)
| Cls (p : ascii -> bool)
| Star (greedy : bool) (p : ascii -> bool)
| Bol
| WordB.

Record t : Type := mk {
  alts : list (list atom);
  ignoreCase : bool;
  global : bool;
  capture : bool
}.

Fixpoint lit (s : string) : list atom :=
  match s with
  | EmptyString => []
  | String c r => Chr c :: lit r
  end.

(** [.]: any code unit but a line terminator. *)
Definition dot (c : ascii) : bool :=
  negb ((code c =? 10)%N || (code c =? 13)%N).

Definition isNot (x : ascii) (c : ascii) : bool := negb (Ascii.eqb c x).

(** [x+?] is one [x] followed by [x*?]. *)
Definition plusLazy (p : ascii -> bool) : list atom := [Cls p; Star false p].
Definition plus (p : ascii -> bool) : list atom := [Cls p; Star true p].

Definition chrEq (ic : bool) (c x : ascii) : bool :=
  if ic then Ascii.eqb (toUpper c) (toUpper x) else Ascii.eqb c x.

Definition wordBefore (prev : option ascii) : bool :=
  match prev with Some c => isWordChar c | None => false end.

Definition wordAfter (s : string) : bool :=
  match s with String c _ => isWordChar c | EmptyString => false end.

(** [matchSeq ic atoms prev s]: the length of the match of [atoms] that
    starts at the head of [s], where [prev] is the character before it. *)
Fixpoint matchSeq (ic : bool) (atoms : list atom)
  : option ascii -> string -> option nat :=
  match atoms with
  | [] => fun _ _ => Some 0%nat
  | Chr c :: r => fun _ s =>
      match s with
      | String x s' => if chrEq ic c x then S <$> matchSeq ic r (Some x) s' else None
      | EmptyString => None
      end
  | Cls p :: r => fun _ s =>
      match s with
      | String x s' => if p x then S <$> matchSeq ic r (Some x) s' else None
      | EmptyString => None
      end
  | Star g p :: r =>
      if g then
        fix star (prev : option ascii) (s : string) {struct s} : option nat :=
          match s with
          | String x s' =>
              if p x then
                match star (Some x) s' with
                | Some n => Some (S n)
                | None => matchSeq ic r prev s
                end
              else matchSeq ic r prev s
          | EmptyString => matchSeq ic r prev s
          end
      else
        fix star (prev : option ascii) (s : string) {struct s} : option nat :=
          match matchSeq ic r prev s with
          | Some n => Some n
          | None =>
              match s with
              | String x s' => if p x then S <$> star (Some x) s' else None
              | EmptyString => None
              end
          end
  | Bol :: r => fun prev s =>
      match prev with
      | None => matchSeq ic r prev s
      | Some _ => None
      end
  | WordB :: r => fun prev s =>
      if xorb (wordBefore prev) (wordAfter s) then matchSeq ic r prev s else None
  end.

Fixpoint matchAlts (ic : bool) (al : list (list atom))
    (prev : option ascii) (s : string) : option nat :=
  match al with
  | [] => None
  | a :: al' =>
      match matchSeq ic a prev s with
      | Some n => Some n
      | None => matchAlts ic al' prev s
      end
  end.

Definition matchAt (re : t) : option ascii -> string -> option nat :=
  matchAlts (ignoreCase re) (alts re).

(** The leftmost match at or after the head of [s]: how many characters
    precede it, and its length. *)
Fixpoint search (re : t) (prev : option ascii) (s : string) : option (nat * nat) :=
  match matchAt re prev s with
  | Some n => Some (0%nat, n)
  | None =>
      match s with
      | String x s' =>
          match search re (Some x) s' with
          | Some (k, n) => Some (S k, n)
          | None => None
          end
      | EmptyString => None
      end
  end.

(** [re.test(s)].  For a pattern without the [g] flag the call reads and
    writes no [lastIndex], so it is a function of [s] alone. *)
Definition test (re : t) (s : string) : bool :=
  match search re None s with Some _ => true | None => false end.

Fixpoint replaceAllGo (re : t) (repl : string) (skip : nat)
    (prev : option ascii) (s : string) : string :=
  match skip, s with
  | S k, String x s' => replaceAllGo re repl k (Some x) s'
  | S _, EmptyString => EmptyString
  | O, _ =>
      let keep :=
        match s with
        | String x s' => String x (replaceAllGo re repl 0 (Some x) s')
        | EmptyString => EmptyString
        end in
      match matchAt re prev s with
      | Some (S k) =>
          repl +:+
          match s with
          | String x s' => replaceAllGo re repl k (Some x) s'
          | EmptyString => EmptyString
          end
      | Some O => repl +:+ keep
      | None => keep
      end
  end.

(** [s.replace(re, repl)] for a replacement text without [$]: the first
    match, or every match under the [g] flag. *)
Definition replace (re : t) (repl : string) (s : string) : string :=
  if global re then replaceAllGo re repl 0 None s
  else match search re None s with
       | Some (k, n) => take k s +:+ repl +:+ drop (k + n) s
       | None => s
       end.

Definition captured (re : t) (n : nat) (s : string) : list string :=
  if capture re then [take n s] else [].

(** The loop of [s.split(re)] from position [q] on: [piece] is the text
    since the end [p] of the last separator, and [skip] counts the characters
    of the separator still to pass. *)
Fixpoint splitGo (re : t) (skip : nat) (piece : string)
    (prev : option ascii) (s : string) : list string :=
  match s with
  | EmptyString => [piece]
  | String x s' =>
      match skip with
      | S k => splitGo re k EmptyString (Some x) s'
      | O =>
          let advance := splitGo re 0 (piece +:+ String x EmptyString) (Some x) s' in
          match matchAt re prev s with
          | None => advance
          | Some O =>
              if isEmpty piece then advance
              else piece :: captured re 0 s
                     ++ splitGo re 0 (String x EmptyString) (Some x) s'
          | Some (S k) =>
              piece :: captured re (S k) s ++ splitGo re k EmptyString (Some x) s'
          end
      end
  end.

(** [s.split(re)]. *)
Definition split (re : t) (s : string) : list string :=
  match s with
  | EmptyString =>
      match matchAt re None s with Some _ => [] | None => [s] end
  | String _ _ => splitGo re 0 EmptyString None s
  end.

End RegExp.

(** ** The pattern table *)

Module ColorMapping.
Record t : Type := mk {
  pattern : RegExp.t;
  color : string;
  splitPattern : option RegExp.t;
  markerColor : option string;
  fullLine : bool;
  checkPlayerName : bool
}.
End ColorMapping.

Section PatternTable.
Import RegExp.

(** [/.../], [/.../i] and a pattern written inside one capturing group. *)
Definition re (al : list (list atom)) : RegExp.t := RegExp.mk al false false false.
Definition rei (al : list (list atom)) : RegExp.t := RegExp.mk al true false false.
Definition reCap (al : list (list atom)) : RegExp.t := RegExp.mk al false false true.

Definition plain (p : RegExp.t) (c : string) : ColorMapping.t :=
  ColorMapping.mk p c None None false false.
Definition marker (p : RegExp.t) (c : string) (sp : RegExp.t) (mc : string)
  : ColorMapping.t :=
  ColorMapping.mk p c (Some sp) (Some mc) false false.

Definition radioPattern : RegExp.t :=
  rei [ [Bol] ++ lit "** [S: " ++ plusLazy dot ++ lit " | CH: "
          ++ plusLazy dot ++ lit "]" ].

Definition cellphoneRegExp : RegExp.t := rei [ lit "(cellphone)" ].

Definition word (s : string) : list atom := [WordB] ++ lit s ++ [WordB].

Definition colorMappings : list ColorMapping.t :=
  [ (* Radio messages *)
    ColorMapping.mk radioPattern "rgb(214, 207, 140)" None None true false;
    (* Cellphone *)
    ColorMapping.mk cellphoneRegExp "rgb(251, 247, 36)" None None true true;
    (* Basic chat patterns *)
    plain (rei [ lit "says:"; lit "shouts:" ]) "rgb(241, 241, 241)";
    plain (rei [ lit "(Car)" ]) "rgb(251, 247, 36)";
    plain (re [ [Bol] ++ lit "*" ]) "rgb(194, 163, 218)";
    plain (rei [ word "whispers" ]) "rgb(237, 168, 65)";
    plain (rei [ word "You paid"; word "paid you"; word "you gave";
                 word "gave you"; word "You received" ]) "rgb(86, 214, 75)";
    plain (rei [ lit "g)" ]) "rgb(255, 255, 0)";
    plain (rei [ lit "[low]:"; lit "[lower]:" ]) "rgb(150, 149, 149)";
    (* Marker patterns *)
    marker (re [ lit "[!]" ]) "rgb(255, 255, 255)"
           (reCap [ lit "[!]" ]) "rgb(255, 0, 195)";
    marker (re [ lit "[INFO]:" ]) "rgb(255, 255, 255)"
           (reCap [ lit "[INFO]:" ]) "rgb(27, 124, 222)";
    marker (re [ lit "[ALERT]" ]) "rgb(255, 255, 255)"
           (reCap [ lit "[ALERT]" ]) "rgb(27, 124, 222)";
    marker (re [ lit "[GYM]" ]) "rgb(255, 255, 255)"
           (reCap [ lit "[GYM]" ]) "rgb(22, 106, 189)";
    plain (rei [ lit "[advertisement]" ]) "rgb(127, 239, 43)";
    plain (rei [ lit "(( (PM" ]) "rgb(239, 227, 0)";
    plain (rei [ lit "(( (" ]) "rgb(139, 138, 138)";
    plain (rei [ lit "[megaphone]" ]) "rgb(241, 213, 3)";
    plain (rei [ lit "[microphone]" ]) "rgb(246, 218, 3)";
    plain (rei [ lit "[intercom]" ]) "rgb(26, 131, 232)";
    (* Character kill *)
    marker (re [ lit "[Character kill]" ]) "rgb(240, 0, 0)"
           (reCap [ lit "[Character kill]" ]) "rgb(56, 150, 243)";
    (* Money *)
    marker (re [ lit "[$" ++ [Star true dot] ++ lit "g)" ]) "rgb(255, 255, 0)"
           (reCap [ lit "[$" ++ [Star true (isNot "]")] ++ lit "]" ])
           "rgb(86, 214, 75)";
    marker (re [ lit "($" ++ [Star true dot] ++ lit "g)" ]) "rgb(255, 255, 0)"
           (reCap [ lit "($" ++ [Star true (isNot ")")] ++ lit ")" ])
           "rgb(86, 214, 75)";
    (* Phone number *)
    marker (re [ lit " PH: " ++ [Star true dot] ++ lit "g)" ]) "rgb(255, 255, 0)"
           (reCap [ lit " PH: " ++ [Star true dot] ])
           "rgb(86, 214, 75)" ].

(** [/^\[\d{2}:\d{2}:\d{2}\]\s*/] *)
Definition timestampPattern : RegExp.t :=
  let d := Cls JsString.isDigit in
  re [ [Bol] ++ lit "[" ++ [d; d] ++ lit ":" ++ [d; d] ++ lit ":" ++ [d; d]
         ++ lit "]" ++ [Star true JsString.isWhiteSpace] ].

End PatternTable.

(** ** Parsed lines and the classification of one line *)

Module ParsedLine.
Record t : Type := mk { id : Z; text : string; color : string }.
End ParsedLine.

Section Classifier.
Import JsString.

Definition span (c part : string) : string :=
  "<span style=" +:+ dq +:+ "color: " +:+ c +:+ dq +:+ ">" +:+ part +:+ "</span>".

Definition isSome {A} (o : option A) : bool :=
  match o with Some _ => true | None => false end.

Definition matches (m : ColorMapping.t) (s : string) : bool :=
  RegExp.test (ColorMapping.pattern m) s.

(** [parts.map(part => ...).join('')] of the marker tier. *)
Definition styleParts (m : ColorMapping.t) (sp : RegExp.t) (mc : string)
    (parts : list string) : string :=
  join "" (List.map (fun part =>
                       if RegExp.test sp part then span mc part
                       else span (ColorMapping.color m) part) parts).

(** The [for ... break] loop over the table: the colour of the first
    mapping whose pattern matches. *)
Definition firstMatchColor (s : string) : option string :=
  ColorMapping.color <$> List.find (fun m => matches m s) colorMappings.

(** The tiers below the cellphone check. *)
Definition classifyOther (processedText : string) : string * option string :=
  let fullLinePattern :=
    List.find (fun m => ColorMapping.fullLine m
                        && negb (ColorMapping.checkPlayerName m)
                        && matches m processedText) colorMappings in
  match fullLinePattern with
  | Some fl => (processedText, Some (ColorMapping.color fl))
  | None =>
      let splitPattern :=
        List.find (fun m => isSome (ColorMapping.splitPattern m)
                            && matches m processedText) colorMappings in
      match splitPattern with
      | Some m =>
          match ColorMapping.splitPattern m, ColorMapping.markerColor m with
          | Some sp, Some mc =>
              if truthy mc then
                let parts := RegExp.split sp processedText in
                if (1 <? length parts)%nat
                then (styleParts m sp mc parts, Some "white")
                else (processedText, None)
              else (processedText, firstMatchColor processedText)
          | _, _ => (processedText, firstMatchColor processedText)
          end
      | None => (processedText, firstMatchColor processedText)
      end
  end.

(** The body of the [lines.map] callback of [parseChatlog], before the
    record is built: the text and the colour variable of one line, for the
    given [stripTimestamps] and [characterName]. *)
Definition classifyLine (stripTimestamps : bool) (characterName : string)
    (line : string) : string * option string :=
  let processedText :=
    if stripTimestamps then RegExp.replace timestampPattern "" line else line in
  let cellphonePattern :=
    List.find (fun m => ColorMapping.checkPlayerName m
                        && matches m processedText) colorMappings in
  match cellphonePattern with
  | Some cp =>
      if truthy characterName then
        if startsWith characterName processedText
        then (processedText, Some "rgb(255, 255, 255)")
        else (processedText, Some (ColorMapping.color cp))
      else classifyOther processedText
  | None => classifyOther processedText
  end.

(** [color || 'white'] for a colour that may be undefined. *)
Definition colorOrWhite (c : option string) : string :=
  match c with
  | Some c => orElse c "white"
  | None => "white"
  end.

Definition parseLine (stripTimestamps : bool) (characterName : string)
    (index : nat) (line : string) : ParsedLine.t :=
  let '(text, color) := classifyLine stripTimestamps characterName line in
  ParsedLine.mk (Z.of_nat index) text (colorOrWhite color).

Definition nl : ascii := "010"%char.

(** [sourceText.split('\n').filter(line => line.trim() !== '')] *)
Definition chatLines (sourceText : string) : list string :=
  List.filter (fun line => negb (isEmpty (trim line))) (split nl sourceText).

(** The value that [parseChatlog] stores in [parsedLines] for a source
    text: [[]] when the text is falsy, the mapped lines otherwise. *)
Definition parseText (stripTimestamps : bool) (characterName : string)
    (sourceText : string) : list ParsedLine.t :=
  if truthy sourceText
  then imap (parseLine stripTimestamps characterName) (chatLines sourceText)
  else [].

End Classifier.

(** ** The data model *)

Module Transform.
Record t : Type := mk { x : Q; y : Q; scale : Q }.
(** [{ x: 0, y: 0, scale: 1 }] *)
Definition identity : t := mk 0 0 1.
End Transform.

Module ChatLayer.
Record t : Type := mk {
  id : Z;
  name : string;
  text : string;
  parsedLines : list ParsedLine.t;
  transform : Transform.t;
  visible : bool
}.
Definition set_text (v : string) (l : t) : t :=
  mk (id l) (name l) v (parsedLines l) (transform l) (visible l).
Definition set_parsedLines (v : list ParsedLine.t) (l : t) : t :=
  mk (id l) (name l) (text l) v (transform l) (visible l).
Definition set_visible (v : bool) (l : t) : t :=
  mk (id l) (name l) (text l) (parsedLines l) (transform l) v.

(** [Partial<ChatLayer>]: every field may be absent. *)
Record options : Type := mkOptions {
  o_id : option Z;
  o_name : option string;
  o_text : option string;
  o_parsedLines : option (list ParsedLine.t);
  o_transform : option Transform.t;
  o_visible : option bool
}.
Definition noOptions : options := mkOptions None None None None None None.
Definition named (n : string) : options :=
  mkOptions None (Some n) None None None None.
End ChatLayer.

Module CensorType.
Inductive t : Type := None | Invisible | BlackBar | Blur.
End CensorType.

Module CensoredRegion.
Record t : Type := mk {
  lineIndex : Z;
  startOffset : Z;
  endOffset : Z;
  type : CensorType.t;
  layerId : Z
}.
Definition set_type (v : CensorType.t) (r : t) : t :=
  mk (lineIndex r) (startOffset r) (endOffset r) v (layerId r).
End CensoredRegion.

Module SelectedText.
Record t : Type := mk {
  layerId : Z;
  lineIndex : Z;
  startOffset : Z;
  endOffset : Z;
  text : string
}.
(** [selectedText.lineIndex = -1; selectedText.layerId = -1] *)
Definition deselect (s : t) : t := mk (-1) (-1) (startOffset s) (endOffset s) (text s).
Definition cleared : t := mk (-1) (-1) 0 0 "".
End SelectedText.

(** The image and drop-zone references, which only [resetSession] writes
    among the operations below. *)
Module Canvas.
Record t : Type := mk {
  droppedImageSrc : option string;
  imageTransform : Transform.t;
  isImageDraggingEnabled : bool;
  isPanning : bool;
  dropZoneWidth : option Q;
  dropZoneHeight : option Q;
  isChatDraggingEnabled : bool;
  isChatPanning : bool;
  showNewSessionDialog : bool
}.
Definition initial : t :=
  mk Datatypes.None Transform.identity false false (Some 800%Q) (Some 600%Q)
     false false false.
End Canvas.

Module Editor.
Record t : Type := mk {
  chatLayers : list ChatLayer.t;
  selectedChatLayerId : option Z;
  nextChatLayerId : Z;
  censoredRegions : list CensoredRegion.t;
  selectedText : SelectedText.t;
  chatTransform : Transform.t;
  renderKey : Z;
  stripTimestamps : bool;
  characterName : string;
  canvas : Canvas.t
}.
Definition set_chatLayers v e :=
  mk v (selectedChatLayerId e) (nextChatLayerId e) (censoredRegions e)
     (selectedText e) (chatTransform e) (renderKey e) (stripTimestamps e)
     (characterName e) (canvas e).
Definition set_selectedChatLayerId v e :=
  mk (chatLayers e) v (nextChatLayerId e) (censoredRegions e)
     (selectedText e) (chatTransform e) (renderKey e) (stripTimestamps e)
     (characterName e) (canvas e).
Definition set_nextChatLayerId v e :=
  mk (chatLayers e) (selectedChatLayerId e) v (censoredRegions e)
     (selectedText e) (chatTransform e) (renderKey e) (stripTimestamps e)
     (characterName e) (canvas e).
Definition set_censoredRegions v e :=
  mk (chatLayers e) (selectedChatLayerId e) (nextChatLayerId e) v
     (selectedText e) (chatTransform e) (renderKey e) (stripTimestamps e)
     (characterName e) (canvas e).
Definition set_selectedText v e :=
  mk (chatLayers e) (selectedChatLayerId e) (nextChatLayerId e) (censoredRegions e)
     v (chatTransform e) (renderKey e) (stripTimestamps e)
     (characterName e) (canvas e).
Definition set_chatTransform v e :=
  mk (chatLayers e) (selectedChatLayerId e) (nextChatLayerId e) (censoredRegions e)
     (selectedText e) v (renderKey e) (stripTimestamps e)
     (characterName e) (canvas e).
Definition set_renderKey v e :=
  mk (chatLayers e) (selectedChatLayerId e) (nextChatLayerId e) (censoredRegions e)
     (selectedText e) (chatTransform e) v (stripTimestamps e)
     (characterName e) (canvas e).
Definition set_canvas v e :=
  mk (chatLayers e) (selectedChatLayerId e) (nextChatLayerId e) (censoredRegions e)
     (selectedText e) (chatTransform e) (renderKey e) (stripTimestamps e)
     (characterName e) v.
End Editor.

(** ** The layer store *)

Section LayerStore.
Import JsString.

(** [array.findIndex(p)], with [None] for [-1]. *)
Fixpoint findIndex {A} (p : A -> bool) (l : list A) : option nat :=
  match l with
  | [] => None
  | x :: r => if p x then Some 0%nat else S <$> findIndex p r
  end.

Definition hasId (i : Z) (l : ChatLayer.t) : bool := ChatLayer.id l =? i.

Definition alterLayer (i : nat) (f : ChatLayer.t -> ChatLayer.t)
    (e : Editor.t) : Editor.t :=
  Editor.set_chatLayers (alter f i (Editor.chatLayers e)) e.

(** The index of [chatLayers.value[0]], when there is one. *)
Definition firstIndex (e : Editor.t) : option nat :=
  match Editor.chatLayers e with [] => None | _ :: _ => Some 0%nat end.

(** [activeChatLayer]: the selected layer, or else the first one. *)
Definition activeChatLayer (e : Editor.t) : option nat :=
  match Editor.selectedChatLayerId e with
  | None => firstIndex e
  | Some sid =>
      match findIndex (hasId sid) (Editor.chatLayers e) with
      | Some i => Some i
      | None => firstIndex e
      end
  end.

(** The setter of [chatlogText]. *)
Definition set_chatlogText (val : string) (e : Editor.t) : Editor.t :=
  match activeChatLayer e with
  | Some i => alterLayer i (ChatLayer.set_text val) e
  | None => e
  end.

(** The setter of [parsedChatLines]. *)
Definition set_parsedChatLines (val : list ParsedLine.t) (e : Editor.t) : Editor.t :=
  match activeChatLayer e with
  | Some i => alterLayer i (ChatLayer.set_parsedLines val) e
  | None => e
  end.

Definition layerName (n : nat) : string := "Layer " +:+ toString (N.of_nat n).

(** [createChatLayer(options)]: the index of the pushed layer and the new
    state. *)
Definition createChatLayer (options : ChatLayer.options) (e : Editor.t)
  : nat * Editor.t :=
  let '(id, next) :=
    match ChatLayer.o_id options with
    | Some i => (i, Editor.nextChatLayerId e)
    | None => (Editor.nextChatLayerId e, Editor.nextChatLayerId e + 1)
    end in
  let layer :=
    ChatLayer.mk id
      (orElse (default "" (ChatLayer.o_name options))
              (layerName (length (Editor.chatLayers e) + 1)))
      (default "" (ChatLayer.o_text options))
      (default [] (ChatLayer.o_parsedLines options))
      (default Transform.identity (ChatLayer.o_transform options))
      (default true (ChatLayer.o_visible options)) in
  (length (Editor.chatLayers e),
   Editor.set_chatLayers (Editor.chatLayers e ++ [layer])
     (Editor.set_nextChatLayerId next e)).

Definition layerIdAt (i : nat) (e : Editor.t) : option Z :=
  ChatLayer.id <$> Editor.chatLayers e !! i.

Definition ensureActiveLayer (e : Editor.t) : nat * Editor.t :=
  match activeChatLayer e with
  | Some i => (i, e)
  | None =>
      let '(i, e1) :=
        createChatLayer
          (ChatLayer.named (layerName (length (Editor.chatLayers e) + 1))) e in
      (i, Editor.set_selectedChatLayerId (layerIdAt i e1) e1)
  end.

Definition bumpRenderKey (e : Editor.t) : Editor.t :=
  Editor.set_renderKey (Editor.renderKey e + 1) e.

Definition textAt (i : nat) (e : Editor.t) : string :=
  default "" (ChatLayer.text <$> Editor.chatLayers e !! i).

(** [parseChatlog(layer)].  [layer] is [None] when the argument is omitted
    or undefined, and the index of the layer object otherwise. *)
Definition parseChatlog (layer : option nat) (e : Editor.t) : Editor.t :=
  let layer := match layer with Some i => Some i | None => activeChatLayer e end in
  let '(targetLayer, e) :=
    match layer with
    | Some i => (i, e)
    | None => ensureActiveLayer e
    end in
  let e := alterLayer targetLayer (ChatLayer.set_visible true) e in
  let sourceText := orElse (textAt targetLayer e) "" in
  if negb (truthy sourceText) then
    let e := alterLayer targetLayer (ChatLayer.set_parsedLines []) e in
    let e := set_parsedChatLines [] e in
    bumpRenderKey e
  else
    let lines := chatLines sourceText in
    let parsed :=
      imap (parseLine (Editor.stripTimestamps e) (Editor.characterName e)) lines in
    let e := alterLayer targetLayer (ChatLayer.set_parsedLines parsed) e in
    let e := set_parsedChatLines parsed e in
    bumpRenderKey e.

Definition isNil {A} (l : list A) : bool :=
  match l with [] => true | _ :: _ => false end.

Definition selectChatLayer (id : Z) (e : Editor.t) : Editor.t :=
  match findIndex (hasId id) (Editor.chatLayers e) with
  | None =>
      let '(fi, e) := ensureActiveLayer e in
      match Editor.chatLayers e !! fi with
      | Some fallback =>
          let e := Editor.set_selectedChatLayerId (Some (ChatLayer.id fallback)) e in
          let e := set_parsedChatLines (ChatLayer.parsedLines fallback) e in
          let e := set_chatlogText (ChatLayer.text fallback) e in
          Editor.set_chatTransform (ChatLayer.transform fallback) e
      | None => e
      end
  | Some i =>
      let e := Editor.set_selectedChatLayerId (Some id) e in
      let unparsed :=
        match Editor.chatLayers e !! i with
        | Some layer => truthy (ChatLayer.text layer) && isNil (ChatLayer.parsedLines layer)
        | None => false
        end in
      let e := if unparsed then parseChatlog (Some i) e else e in
      match Editor.chatLayers e !! i with
      | Some layer =>
          let e := set_chatlogText (ChatLayer.text layer) e in
          let e := set_parsedChatLines (ChatLayer.parsedLines layer) e in
          let e := Editor.set_chatTransform (ChatLayer.transform layer) e in
          Editor.set_selectedText (SelectedText.deselect (Editor.selectedText e)) e
      | None => e
      end
  end.

Definition addChatLayer (e : Editor.t) : Editor.t :=
  let '(i, e) := createChatLayer ChatLayer.noOptions e in
  match layerIdAt i e with
  | Some id => selectChatLayer id e
  | None => e
  end.

Definition removeChatLayer (id : Z) (e : Editor.t) : Editor.t :=
  if (length (Editor.chatLayers e) <=? 1)%nat then e (* always keep one layer *)
  else
    match findIndex (hasId id) (Editor.chatLayers e) with
    | None => e
    | Some index =>
        let e := Editor.set_chatLayers (delete index (Editor.chatLayers e)) e in
        let e :=
          Editor.set_censoredRegions
            (List.filter (fun region => negb (CensoredRegion.layerId region =? id))
                         (Editor.censoredRegions e)) e in
        (* chatLayers.value[index - 1] || chatLayers.value[0] *)
        let fallback :=
          match match index with
                | O => None
                | S k => Editor.chatLayers e !! k
                end with
          | Some l => Some l
          | None => Editor.chatLayers e !! 0%nat
          end in
        match fallback with
        | Some l => selectChatLayer (ChatLayer.id l) e
        | None => e
        end
    end.

Inductive direction : Type := up | down.

Definition moveChatLayer (id : Z) (d : direction) (e : Editor.t) : Editor.t :=
  match findIndex (hasId id) (Editor.chatLayers e) with
  | None => e
  | Some index =>
      let swapWith : Z :=
        match d with
        | up => Z.of_nat index - 1
        | down => Z.of_nat index + 1
        end in
      if (swapWith <? 0) || (Z.of_nat (length (Editor.chatLayers e)) <=? swapWith)
      then e
      else
        let layers := Editor.chatLayers e in
        match layers !! index, layers !! Z.to_nat swapWith with
        | Some a, Some b =>
            Editor.set_chatLayers (<[Z.to_nat swapWith := a]> (<[index := b]> layers)) e
        | _, _ => e
        end
  end.

Definition resetCanvas (c : Canvas.t) : Canvas.t :=
  Canvas.mk None Transform.identity false false (Some 800%Q) (Some 600%Q)
            false false false.

Definition resetSession (e : Editor.t) : Editor.t :=
  let e := set_chatlogText "" e in
  let e := set_parsedChatLines [] e in
  let e := Editor.set_chatLayers [] e in
  let '(i, e) := createChatLayer (ChatLayer.named "Layer 1") e in
  let e := Editor.set_selectedChatLayerId (layerIdAt i e) e in
  let e := Editor.set_chatTransform
             (default Transform.identity
                      (ChatLayer.transform <$> Editor.chatLayers e !! i)) e in
  let e := Editor.set_chatTransform (Transform.mk 0 0 1) e in
  let e := Editor.set_censoredRegions [] e in
  let e := Editor.set_selectedText SelectedText.cleared e in
  let e := bumpRenderKey e in
  Editor.set_canvas (resetCanvas (Editor.canvas e)) e.

End LayerStore.

(** ** The censor store *)

Section CensorStore.

Definition sameKey (s : SelectedText.t) (region : CensoredRegion.t) : bool :=
  (CensoredRegion.layerId region =? SelectedText.layerId s)
  && (CensoredRegion.lineIndex region =? SelectedText.lineIndex s)
  && (CensoredRegion.startOffset region =? SelectedText.startOffset s)
  && (CensoredRegion.endOffset region =? SelectedText.endOffset s).

Definition cycleCensorType (e : Editor.t) : Editor.t :=
  let selectedText := Editor.selectedText e in
  if SelectedText.lineIndex selectedText =? -1 then e
  else if SelectedText.layerId selectedText =? -1 then e
  else
    let regions := Editor.censoredRegions e in
    let e :=
      match findIndex (sameKey selectedText) regions with
      | None =>
          Editor.set_censoredRegions
            (regions ++ [CensoredRegion.mk (SelectedText.lineIndex selectedText)
                           (SelectedText.startOffset selectedText)
                           (SelectedText.endOffset selectedText)
                           CensorType.Invisible
                           (SelectedText.layerId selectedText)]) e
      | Some existingIndex =>
          match regions !! existingIndex with
          | Some current =>
              match CensoredRegion.type current with
              | CensorType.Invisible =>
                  Editor.set_censoredRegions
                    (<[existingIndex := CensoredRegion.set_type CensorType.BlackBar current]>
                       regions) e
              | CensorType.BlackBar =>
                  Editor.set_censoredRegions
                    (<[existingIndex := CensoredRegion.set_type CensorType.Blur current]>
                       regions) e
              | CensorType.Blur =>
                  Editor.set_censoredRegions (delete existingIndex regions) e
              | CensorType.None => e
              end
          | None => e
          end
      end in
    bumpRenderKey e.

End CensorStore.

(** ** The overlay: censoring substitution *)

Section Overlay.
Import JsString.

(** [/x/g] for a one-character pattern [x]. *)
Definition reAll (s : string) : RegExp.t := RegExp.mk [RegExp.lit s] false true false.

Definition amp : string := String "038"%char EmptyString.
Definition apos : string := String "039"%char EmptyString.

Definition escapeHtml (s : string) : string :=
  RegExp.replace (reAll apos) (amp +:+ "#039;")
    (RegExp.replace (reAll dq) (amp +:+ "quot;")
      (RegExp.replace (reAll ">") (amp +:+ "gt;")
        (RegExp.replace (reAll "<") (amp +:+ "lt;")
          (RegExp.replace (reAll amp) (amp +:+ "amp;") s)))).

(** [regions.sort((a, b) => a.startOffset - b.startOffset)]: the sort is
    stable, so regions with equal starts keep their store order. *)
Fixpoint insertByStart (x : CensoredRegion.t) (l : list CensoredRegion.t)
  : list CensoredRegion.t :=
  match l with
  | [] => [x]
  | y :: r =>
      if CensoredRegion.startOffset x <=? CensoredRegion.startOffset y
      then x :: l
      else y :: insertByStart x r
  end.

Fixpoint sortByStart (l : list CensoredRegion.t) : list CensoredRegion.t :=
  match l with
  | [] => []
  | x :: r => insertByStart x (sortByStart r)
  end.

Definition onLine (layerId lineIndex : Z) (region : CensoredRegion.t) : bool :=
  (CensoredRegion.layerId region =? layerId)
  && (CensoredRegion.lineIndex region =? lineIndex).

Definition censorSpan (cls : string) (escapedText : string) : string :=
  "<span class=" +:+ dq +:+ cls +:+ dq +:+ ">" +:+ escapedText +:+ "</span>".

(** The [for (const region of regions)] loop, on [result] and [lastIndex]. *)
Fixpoint censorLoop (text : string) (regions : list CensoredRegion.t)
    (result : string) (lastIndex : Z) : string * Z :=
  match regions with
  | [] => (result, lastIndex)
  | region :: rest =>
      let result :=
        result +:+ slice lastIndex (CensoredRegion.startOffset region) text in
      let censoredText :=
        slice (CensoredRegion.startOffset region) (CensoredRegion.endOffset region) text in
      let escapedText := escapeHtml censoredText in
      let result :=
        match CensoredRegion.type region with
        | CensorType.Invisible => result +:+ censorSpan "censored-invisible" escapedText
        | CensorType.BlackBar => result +:+ censorSpan "censored-blackbar" escapedText
        | CensorType.Blur => result +:+ censorSpan "censored-blur" escapedText
        | CensorType.None => result
        end in
      censorLoop text rest result (CensoredRegion.endOffset region)
  end.

Definition applyCensoring (censoredRegions : list CensoredRegion.t)
    (text : string) (lineIndex layerId : Z) : string :=
  let regions :=
    sortByStart (List.filter (onLine layerId lineIndex) censoredRegions) in
  if isNil regions then text
  else
    let '(result, lastIndex) := censorLoop text regions "" 0 in
    result +:+ sliceFrom lastIndex text.

End Overlay.

(** ** The export: word wrap and segment scan

    The canvas is an output device: what the export paints is recorded as the
    list of drawing operations, in order.  [measureText] stands for
    [ctx.measureText(text).width], which the browser computes from the font. *)

Inductive DrawOp : Type :=
| Save
| Restore
| Translate (x y : Q)
| Scale (x y : Q)
| FillRect (x y w h : Q)
| FillText (text : string) (x y : Q) (color : string)
| BlurredText (text : string) (x y : Q) (color : string).

Section ExportPath.
Import JsString.

Variable measureText : string -> Q.
Variable showBlackBars : bool.
Variable chatLineWidth : Q.
Variable censoredRegions : list CensoredRegion.t.
Variable characterName : string.

(** [stripHtml]: the text content that the browser gives for a markup. *)
Variable stripHtml : string -> string.

Definition getTextColor (text : string) : string :=
  if includes "[S:" text && includes "CH:" text then "rgb(214, 207, 140)"
  else if startsWith "*" text then "rgb(194, 163, 218)"
  else if includes "(Car)" text && includes "whispers:" text then "rgb(255, 255, 0)"
  else if includes "whispers:" text then "rgb(237, 168, 65)"
  else if includes "(cellphone)" text then
    if startsWith characterName text then "rgb(255, 255, 255)" else "rgb(251, 247, 36)"
  else if includes "[Megaphone]" text then "rgb(241, 213, 3)"
  else if includes "You paid" text then "rgb(86, 214, 75)"
  else "rgb(255, 255, 255)".

Definition drawBlackBar (y width : Q) : list DrawOp :=
  if showBlackBars then [FillRect 0 y (width + 8) 17] else [].

Definition shadowOffsets : list (Q * Q) :=
  [ (-1, -1); (-1, 0); (-1, 1); (0, -1); (0, 1); (1, -1); (1, 0); (1, 1) ]%Q.

Definition drawTextWithOutline (text : string) (x y : Q) (color : string)
    (censorType : option CensorType.t) : list DrawOp :=
  let width := measureText text in
  let bar := if showBlackBars then [FillRect (x - 2) y (width + 4) 16] else [] in
  match censorType with
  | Some _ => bar ++ [BlurredText text (x - 10) (y - 10) color]
  | None =>
      bar
      ++ List.map (fun d => FillText text (x + fst d) (y + 1 + snd d) "#000000")
                  shadowOffsets
      ++ [FillText text x (y + 1) color]
  end%Q.

(** The search of [drawTextSegment]: the first region of the store, in
    store order, that starts or ends inside the remaining text. *)
Definition nextCensorAt (lineIndex layerId : Z) (currentOffset : Z)
    (remainingText : string) : option CensoredRegion.t :=
  List.find (fun region =>
    (CensoredRegion.layerId region =? layerId)
    && (CensoredRegion.lineIndex region =? lineIndex)
    && (((currentOffset <=? CensoredRegion.startOffset region)
         && (CensoredRegion.startOffset region <? currentOffset + len remainingText))
        || ((currentOffset <? CensoredRegion.endOffset region)
            && (CensoredRegion.endOffset region <=? currentOffset + len remainingText))))
    censoredRegions.

(** The [while] loop of [drawTextSegment]; [None] when [fuel] iterations do
    not end it. *)
Fixpoint drawLoop (fuel : nat) (yPos : Q) (color : string) (lineIndex layerId : Z)
    (currentX : Q) (remainingText : string) (currentOffset : Z)
  : option (list DrawOp) :=
  if len remainingText <=? 0 then Some []
  else
    match fuel with
    | O => None
    | S fuel =>
        match nextCensorAt lineIndex layerId currentOffset remainingText with
        | Some nextCensor =>
            let uncensoredLength := CensoredRegion.startOffset nextCensor - currentOffset in
            let '(ops1, currentX, currentOffset, remainingText) :=
              if 0 <? uncensoredLength then
                let uncensoredText := slice 0 uncensoredLength remainingText in
                (drawTextWithOutline uncensoredText currentX yPos color None,
                 (currentX + measureText uncensoredText)%Q,
                 currentOffset + uncensoredLength,
                 sliceFrom uncensoredLength remainingText)
              else ([], currentX, currentOffset, remainingText) in
            let censoredLength := CensoredRegion.endOffset nextCensor - currentOffset in
            let '(ops2, currentX, currentOffset, remainingText) :=
              if 0 <? censoredLength then
                let censoredText := slice 0 censoredLength remainingText in
                let '(ops, x) :=
                  match CensoredRegion.type nextCensor with
                  | CensorType.BlackBar =>
                      ([FillRect (currentX - 2) yPos (measureText censoredText + 4) 16],
                       currentX)
                  | CensorType.Blur =>
                      (drawTextWithOutline censoredText currentX yPos color
                                           (Some CensorType.Blur), currentX)
                  | CensorType.Invisible =>
                      ([], currentX + measureText censoredText)
                  | CensorType.None => ([], currentX)
                  end%Q in
                (ops, (x + measureText censoredText)%Q,
                 currentOffset + censoredLength,
                 sliceFrom censoredLength remainingText)
              else ([], currentX, currentOffset, remainingText) in
            (fun more => ops1 ++ ops2 ++ more)
              <$> drawLoop fuel yPos color lineIndex layerId
                           currentX remainingText currentOffset
        | None =>
            Some (drawTextWithOutline remainingText currentX yPos color None)
        end
    end.

Definition drawTextSegment (fuel : nat) (text : string) (xPos yPos : Q)
    (color : string) (lineStartPos lineIndex layerId : Z) : option (list DrawOp) :=
  drawLoop fuel yPos color lineIndex layerId xPos text lineStartPos.

(** A run of the word wrap: the text handed to the drawing functions and
    its [lineStartPosition]. *)
Definition Run : Type := string * Z.

(** The region that [getCensorType] finds for a part of a special line. *)
Definition getCensorType (lineIndex startPos length layerId : Z) : option CensorType.t :=
  CensoredRegion.type <$>
  List.find (fun r =>
    (CensoredRegion.layerId r =? layerId)
    && (CensoredRegion.lineIndex r =? lineIndex)
    && (((CensoredRegion.startOffset r <=? startPos)
         && (startPos <? CensoredRegion.endOffset r))
        || ((CensoredRegion.startOffset r <? startPos + length)
            && (startPos + length <=? CensoredRegion.endOffset r))
        || ((startPos <=? CensoredRegion.startOffset r)
            && (CensoredRegion.endOffset r <=? startPos + length))))
    censoredRegions.

(** The [for (const part of parts)] loop of [drawSpecialLine]. *)
Fixpoint drawParts (parts : list string) (markerText markerColor baseColor : string)
    (currentX y : Q) (partOffset lineIndex layerId : Z) : list DrawOp :=
  match parts with
  | [] => []
  | part :: rest =>
      drawTextWithOutline part currentX y
        (if String.eqb part markerText then markerColor else baseColor)
        (getCensorType lineIndex partOffset (len part) layerId)
      ++ drawParts rest markerText markerColor baseColor
           (currentX + measureText part)%Q y (partOffset + len part) lineIndex layerId
  end.

(** [drawSpecialLine]: [None] when it returns false and draws nothing. *)
Definition drawSpecialLine (text : string) (x y : Q) (lineIndex layerId : Z)
  : option (list DrawOp) :=
  if includes "[!]" text then
    Some (drawParts (RegExp.split (reCap [RegExp.lit "[!]"]) text)
                    "[!]" "rgb(255, 0, 195)" "rgb(255, 255, 255)"
                    x y 0 lineIndex layerId)
  else if includes "[Character kill]" text then
    Some (drawParts (RegExp.split (reCap [RegExp.lit "[Character kill]"]) text)
                    "[Character kill]" "rgb(56, 150, 243)" "rgb(240, 0, 0)"
                    x y 0 lineIndex layerId)
  else None.

Definition exceeds (s : string) : bool := negb (Qle_bool (measureText s) chatLineWidth).

(** The [for (const word of words)] loop and the final flush. *)
Fixpoint wrapWords (words : list string) (currentLineText : string)
    (lineStartPosition : Z) : list Run :=
  match words with
  | [] =>
      if truthy currentLineText then [(currentLineText, lineStartPosition)] else []
  | word :: rest =>
      let testLine :=
        if truthy currentLineText then currentLineText +:+ " " +:+ word else word in
      if exceeds testLine && truthy currentLineText then
        (currentLineText, lineStartPosition)
          :: wrapWords rest word (lineStartPosition + len currentLineText + 1)
      else wrapWords rest testLine lineStartPosition
  end.

(** The runs that the body of [for (const line of layer.parsedLines)] emits
    for the plain text [rawText] of one line. *)
Definition wrapLine (rawText : string) : list Run :=
  let words := split " " rawText in
  if Qle_bool (measureText rawText) chatLineWidth then [(rawText, 0)]
  else wrapWords words "" 0.

(** What the export paints for one run at height [currentY]. *)
Definition drawRun (fuel : nat) (run : Run) (currentY : Q) (textColor : string)
    (lineIndex layerId : Z) : option (list DrawOp) :=
  let '(text, lineStartPosition) := run in
  let bar := drawBlackBar currentY (measureText text) in
  match drawSpecialLine text 4 currentY lineIndex layerId with
  | Some ops => Some (bar ++ ops)
  | None =>
      (fun ops => bar ++ ops)
        <$> drawTextSegment fuel text 4 currentY textColor lineStartPosition
                            lineIndex layerId
  end.

Fixpoint drawRuns (fuel : nat) (runs : list Run) (currentY : Q) (textColor : string)
    (lineIndex layerId : Z) : option (list DrawOp * Q) :=
  match runs with
  | [] => Some ([], currentY)
  | run :: rest =>
      match drawRun fuel run currentY textColor lineIndex layerId with
      | Some ops =>
          match drawRuns fuel rest (currentY + 16)%Q textColor lineIndex layerId with
          | Some (more, y) => Some (ops ++ more, y)
          | None => None
          end
      | None => None
      end
  end.

(** The [for (const line of layer.parsedLines)] loop, from [lineIndex] and
    [currentY] on. *)
Fixpoint drawLines (fuel : nat) (lines : list ParsedLine.t) (currentY : Q)
    (lineIndex layerId : Z) : option (list DrawOp) :=
  match lines with
  | [] => Some []
  | line :: rest =>
      let rawText := stripHtml (ParsedLine.text line) in
      let textColor := orElse (ParsedLine.color line) (getTextColor rawText) in
      match drawRuns fuel (wrapLine rawText) currentY textColor lineIndex layerId with
      | Some (ops, y) =>
          (fun more => ops ++ more) <$> drawLines fuel rest y (lineIndex + 1) layerId
      | None => None
      end
  end.

(** The body of [for (const layer of visibleChatLayers)]. *)
Definition drawLayer (fuel : nat) (layer : ChatLayer.t) : option (list DrawOp) :=
  let t := ChatLayer.transform layer in
  (fun ops =>
     [Save; Translate (Transform.x t) (Transform.y t);
      Scale (Transform.scale t) (Transform.scale t)] ++ ops ++ [Restore])
    <$> drawLines fuel (ChatLayer.parsedLines layer) 0 0 (ChatLayer.id layer).

Fixpoint drawLayers (fuel : nat) (layers : list ChatLayer.t) : option (list DrawOp) :=
  match layers with
  | [] => Some []
  | layer :: rest =>
      match drawLayer fuel layer with
      | Some ops => (fun more => ops ++ more) <$> drawLayers fuel rest
      | None => None
      end
  end.

(** The chat part of [saveImage]: the visible layers with parsed lines, in
    store order. *)
Definition drawChatLayers (fuel : nat) (chatLayers : list ChatLayer.t)
  : option (list DrawOp) :=
  drawLayers fuel
    (List.filter (fun layer => ChatLayer.visible layer
                               && negb (isNil (ChatLayer.parsedLines layer)))
                 chatLayers).

End ExportPath.

(** ** The name of the exported file *)

Module Date.
(** What [buildScreenshotFilename] reads of [new Date()]: [getDate()],
    [getMonth()] (from 0), [getFullYear()], [getHours()], [getMinutes()]. *)
Record t : Type := mk { date : N; month : N; fullYear : N; hours : N; minutes : N }.
End Date.

Section Filename.
Import JsString.

Definition pad (value : N) : string := padStart 2 "0" (toString value).

Definition isThemeChar (c : ascii) : bool :=
  isLower c || isUpper c || isDigit c || isWhiteSpace c
  || Ascii.eqb c "_" || Ascii.eqb c "-".

(** [/[^a-zA-Z0-9\s_-]/g] and [/\s+/g] *)
Definition unsafeChars : RegExp.t :=
  RegExp.mk [ [RegExp.Cls (fun c => negb (isThemeChar c))] ] false true false.
Definition whitespaceRun : RegExp.t :=
  RegExp.mk [ RegExp.plus isWhiteSpace ] false true false.

Definition safeTheme (screenshotTheme : string) : string :=
  let rawTheme := trim screenshotTheme in
  RegExp.replace whitespaceRun "-" (trim (RegExp.replace unsafeChars "" rawTheme)).

Definition buildScreenshotFilename (now : Date.t) (screenshotTheme : string) : string :=
  let datePart :=
    pad (Date.date now) +:+ pad (Date.month now + 1) +:+ toString (Date.fullYear now) in
  let timePart := pad (Date.hours now) +:+ pad (Date.minutes now) in
  let finalTheme := orElse (safeTheme screenshotTheme) "screenshot" in
  datePart +:+ " - " +:+ timePart +:+ " - " +:+ finalTheme +:+ ".png".

End Filename.

(** ** Selection in the text area, chat import, drag toggles and zoom *)

Module TextArea.
(** What [handleTextSelection] reads of the text area element. *)
Record t : Type := mk { value : string; selectionStart : Z; selectionEnd : Z }.
End TextArea.

Section Handlers.
Import JsString.

(** [clearChatlog] *)
Definition clearChatlog (e : Editor.t) : Editor.t :=
  set_parsedChatLines [] (set_chatlogText "" e).

(** [s.endsWith(suffix)] *)
Definition endsWith (suffix s : string) : bool :=
  (String.length suffix <=? String.length s)%nat
  && String.eqb (drop (String.length s - String.length suffix) s) suffix.

(** [handleChatFileSelect] for the first file of the input, of the given
    type and name; [content] is what [file.text()] resolves to, or [None]
    when it rejects. *)
Definition handleChatFileSelect (fileType fileName : string) (content : option string)
    (e : Editor.t) : Editor.t :=
  if String.eqb fileType "text/plain" || endsWith ".txt" fileName then
    match content with
    | Some text => parseChatlog None (set_chatlogText text e)
    | None => e
    end
  else e.

(** The [for] loop of [handleTextSelection]: the index and the start of the
    first line whose span, newline included, holds [selectionStart]. *)
Fixpoint findSelectionLine (lines : list string) (i currentPos selectionStart : Z)
  : option (Z * Z) :=
  match lines with
  | [] => None
  | line :: rest =>
      let lineLength := len line + 1 in
      let lineStart := currentPos in
      let lineEnd := currentPos + lineLength in
      if (lineStart <=? selectionStart) && (selectionStart <? lineEnd)
      then Some (i, lineStart)
      else findSelectionLine rest (i + 1) (currentPos + lineLength) selectionStart
  end.

(** [handleTextSelection].  [selection] is [None] for no selection object and
    otherwise its text; [textarea] is [None] when the element is not found. *)
Definition handleTextSelection (selection : option string) (textarea : option TextArea.t)
    (e : Editor.t) : Editor.t :=
  let deselected :=
    Editor.set_selectedText (SelectedText.deselect (Editor.selectedText e)) e in
  match selection with
  | None => deselected
  | Some sel =>
      if isEmpty (trim sel) then deselected
      else
        match textarea with
        | None => e
        | Some ta =>
            let selectedValue := trim sel in
            let lines := split nl (TextArea.value ta) in
            match findSelectionLine lines 0 0 (TextArea.selectionStart ta) with
            | Some (i, lineStart) =>
                Editor.set_selectedText
                  (SelectedText.mk
                     (default (-1) (activeChatLayer e ≫= fun a => layerIdAt a e))
                     i
                     (TextArea.selectionStart ta - lineStart)
                     (TextArea.selectionEnd ta - lineStart)
                     selectedValue) e
            | None => e
            end
        end
  end.

Definition set_dragFlags (image chat : bool) (c : Canvas.t) : Canvas.t :=
  Canvas.mk (Canvas.droppedImageSrc c) (Canvas.imageTransform c) image
            (Canvas.isPanning c) (Canvas.dropZoneWidth c) (Canvas.dropZoneHeight c)
            chat (Canvas.isChatPanning c) (Canvas.showNewSessionDialog c).

Definition toggleImageDrag (c : Canvas.t) : Canvas.t :=
  let image := negb (Canvas.isImageDraggingEnabled c) in
  let chat :=
    if image && Canvas.isChatDraggingEnabled c then false
    else Canvas.isChatDraggingEnabled c in
  set_dragFlags image chat c.

Definition toggleChatDrag (c : Canvas.t) : Canvas.t :=
  let chat := negb (Canvas.isChatDraggingEnabled c) in
  let image :=
    if chat && Canvas.isImageDraggingEnabled c then false
    else Canvas.isImageDraggingEnabled c in
  set_dragFlags image chat c.

Definition set_scale (v : Q) (t : Transform.t) : Transform.t :=
  Transform.mk (Transform.x t) (Transform.y t) v.

Definition set_imageTransform (t : Transform.t) (c : Canvas.t) : Canvas.t :=
  Canvas.mk (Canvas.droppedImageSrc c) t (Canvas.isImageDraggingEnabled c)
            (Canvas.isPanning c) (Canvas.dropZoneWidth c) (Canvas.dropZoneHeight c)
            (Canvas.isChatDraggingEnabled c) (Canvas.isChatPanning c)
            (Canvas.showNewSessionDialog c).

Definition hasImage (c : Canvas.t) : bool :=
  match Canvas.droppedImageSrc c with
  | Some src => truthy src
  | None => false
  end.

(** [handleWheel] for an event with the given [deltaY]. *)
Definition handleWheel (deltaY : Q) (c : Canvas.t) : Canvas.t :=
  if negb (Canvas.isImageDraggingEnabled c) || negb (hasImage c) then c
  else
    let scaleAmount := (1 # 10)%Q in
    let minScale := (1 # 10)%Q in
    let maxScale := 10%Q in
    let t := Canvas.imageTransform c in
    if Qlt_le_dec deltaY 0 then
      set_imageTransform (set_scale (Qmin maxScale (Transform.scale t + scaleAmount)) t) c
    else
      set_imageTransform (set_scale (Qmax minScale (Transform.scale t - scaleAmount)) t) c.

(** [handleChatWheel] *)
Definition handleChatWheel (deltaY : Q) (e : Editor.t) : Editor.t :=
  let parsedChatLines :=
    default [] (activeChatLayer e ≫= fun a =>
                ChatLayer.parsedLines <$> Editor.chatLayers e !! a) in
  if negb (Canvas.isChatDraggingEnabled (Editor.canvas e)) || isNil parsedChatLines
  then e
  else
    let scaleAmount := (1 # 10)%Q in
    let minScale := (1 # 2)%Q in
    let maxScale := 3%Q in
    let t := Editor.chatTransform e in
    if Qlt_le_dec deltaY 0 then
      Editor.set_chatTransform
        (set_scale (Qmin maxScale (Transform.scale t + scaleAmount)) t) e
    else
      Editor.set_chatTransform
        (set_scale (Qmax minScale (Transform.scale t - scaleAmount)) t) e.

End Handlers.

(** ** The saved session

    [saveEditorState] writes one object to the cookie and [loadEditorState]
    reads it back.  The object is modelled as [JSON.parse] returns it, with
    the shape that [saveEditorState] writes and every field possibly absent
    ([None] stands for a missing or null field). *)

Module Session.
(** The editor and the references that only the toolbar and the export
    read. *)
Record t : Type := mk {
  editor : Editor.t;
  showBlackBars : bool;
  chatLineWidth : Q;
  screenshotTheme : string;
  alwaysPromptSaveLocation : bool
}.
End Session.

Module Saved.
Record layer : Type := mkLayer {
  l_id : option Z;
  l_name : option string;
  l_text : option string;
  l_transform : option Transform.t;
  l_visible : option bool
}.
Record region : Type := mkRegion {
  r_layerId : option Z;
  r_lineIndex : option Z;
  r_startOffset : option Z;
  r_endOffset : option Z;
  r_type : option CensorType.t
}.
Record selection : Type := mkSelection {
  s_layerId : option Z;
  s_lineIndex : Z;
  s_startOffset : Z;
  s_endOffset : Z;
  s_text : string
}.
Record t : Type := mk {
  characterName : option string;
  chatLayers : option (list layer);
  selectedChatLayerId : option Z;
  dropZoneWidth : option Q;
  dropZoneHeight : option Q;
  imageTransform : option Transform.t;
  isImageDraggingEnabled : option bool;
  isChatDraggingEnabled : option bool;
  showBlackBars : option bool;
  censoredRegions : option (list region);
  selectedText : option selection;
  stripTimestamps : option bool;
  chatLineWidth : option Q;
  screenshotTheme : option string;
  alwaysPromptSaveLocation : option bool;
  chatlogText : option string
}.
End Saved.

Section Persistence.
Import JsString.

Definition saveLayer (layer : ChatLayer.t) : Saved.layer :=
  Saved.mkLayer (Some (ChatLayer.id layer)) (Some (ChatLayer.name layer))
                (Some (ChatLayer.text layer)) (Some (ChatLayer.transform layer))
                (Some (ChatLayer.visible layer)).

Definition saveRegion (r : CensoredRegion.t) : Saved.region :=
  Saved.mkRegion (Some (CensoredRegion.layerId r)) (Some (CensoredRegion.lineIndex r))
                 (Some (CensoredRegion.startOffset r)) (Some (CensoredRegion.endOffset r))
                 (Some (CensoredRegion.type r)).

(** The object that [saveEditorState] serialises. *)
Definition saveEditorState (s : Session.t) : Saved.t :=
  let e := Session.editor s in
  let c := Editor.canvas e in
  let st := Editor.selectedText e in
  Saved.mk (Some (Editor.characterName e))
           (Some (List.map saveLayer (Editor.chatLayers e)))
           (Editor.selectedChatLayerId e)
           (Canvas.dropZoneWidth c) (Canvas.dropZoneHeight c)
           (Some (Canvas.imageTransform c))
           (Some (Canvas.isImageDraggingEnabled c))
           (Some (Canvas.isChatDraggingEnabled c))
           (Some (Session.showBlackBars s))
           (Some (List.map saveRegion (Editor.censoredRegions e)))
           (Some (Saved.mkSelection (Some (SelectedText.layerId st))
                                    (SelectedText.lineIndex st)
                                    (SelectedText.startOffset st)
                                    (SelectedText.endOffset st)
                                    (SelectedText.text st)))
           (Some (Editor.stripTimestamps e))
           (Some (Session.chatLineWidth s))
           (Some (Session.screenshotTheme s))
           (Some (Session.alwaysPromptSaveLocation s))
           None.

(** [x || d] for a number and for a flag, and [x ?? d]. *)
Definition numberOr (x : option Q) (d : Q) : Q :=
  match x with
  | Some v => if Qeq_bool v 0 then d else v
  | None => d
  end.

Definition set_loadedCanvas (state : Saved.t) (c : Canvas.t) : Canvas.t :=
  Canvas.mk (Canvas.droppedImageSrc c)
            (default Transform.identity (Saved.imageTransform state))
            (default false (Saved.isImageDraggingEnabled state))
            (Canvas.isPanning c)
            (Some (numberOr (Saved.dropZoneWidth state) 800))
            (Some (numberOr (Saved.dropZoneHeight state) 600))
            (default false (Saved.isChatDraggingEnabled state))
            (Canvas.isChatPanning c) (Canvas.showNewSessionDialog c).

Definition set_settings (strip : bool) (name : string) (e : Editor.t) : Editor.t :=
  Editor.mk (Editor.chatLayers e) (Editor.selectedChatLayerId e) (Editor.nextChatLayerId e)
            (Editor.censoredRegions e) (Editor.selectedText e) (Editor.chatTransform e)
            (Editor.renderKey e) strip name (Editor.canvas e).

Definition loadRegion (activeId : option Z) (region : Saved.region) : CensoredRegion.t :=
  CensoredRegion.mk (default (-1) (Saved.r_lineIndex region))
                    (default 0 (Saved.r_startOffset region))
                    (default 0 (Saved.r_endOffset region))
                    (default CensorType.Invisible (Saved.r_type region))
                    (match Saved.r_layerId region with
                     | Some i => i
                     | None => default (-1) activeId
                     end).

(** [Object.assign(selectedText, state.selectedText || {...})] *)
Definition loadSelection (saved : option Saved.selection) (current : SelectedText.t)
  : SelectedText.t :=
  match saved with
  | Some sel =>
      SelectedText.mk (default (SelectedText.layerId current) (Saved.s_layerId sel))
                      (Saved.s_lineIndex sel) (Saved.s_startOffset sel)
                      (Saved.s_endOffset sel) (Saved.s_text sel)
  | None => SelectedText.cleared
  end.

Definition layerOptions (layer : Saved.layer) : ChatLayer.options :=
  ChatLayer.mkOptions (Saved.l_id layer) (Saved.l_name layer) (Saved.l_text layer)
                      None (Saved.l_transform layer) (Saved.l_visible layer).

(** The [for (const layer of state.chatLayers)] loop. *)
Fixpoint restoreLayers (layers : list Saved.layer) (e : Editor.t) : Editor.t :=
  match layers with
  | [] => e
  | layer :: rest =>
      let '(i, e) := createChatLayer (layerOptions layer) e in
      let e := parseChatlog (Some i) e in
      let e :=
        match layerIdAt i e with
        | Some id =>
            Editor.set_nextChatLayerId (Z.max (Editor.nextChatLayerId e) (id + 1)) e
        | None => e
        end in
      restoreLayers rest e
  end.

(** [loadEditorState]: [cookie] is the parsed content of the cookie, [None]
    when there is none or it is no JSON text. *)
Definition loadEditorState (cookie : option Saved.t) (s : Session.t) : Session.t :=
  match cookie with
  | None => s
  | Some state =>
      let e := Session.editor s in
      let e := set_settings (Editor.stripTimestamps e)
                            (orElse (default "" (Saved.characterName state)) "") e in
      let e := Editor.set_canvas (set_loadedCanvas state (Editor.canvas e)) e in
      let showBlackBars := default false (Saved.showBlackBars state) in
      let activeId := activeChatLayer e ≫= fun a => layerIdAt a e in
      let e := Editor.set_censoredRegions
                 (List.map (loadRegion activeId)
                           (default [] (Saved.censoredRegions state))) e in
      let e := Editor.set_selectedText
                 (loadSelection (Saved.selectedText state) (Editor.selectedText e)) e in
      let e := set_settings (default false (Saved.stripTimestamps state))
                            (Editor.characterName e) e in
      let chatLineWidth := numberOr (Saved.chatLineWidth state) 640 in
      let screenshotTheme := orElse (default "" (Saved.screenshotTheme state)) "" in
      let alwaysPrompt := default false (Saved.alwaysPromptSaveLocation state) in
      let e :=
        match Saved.chatLayers state with
        | Some layers =>
            let e := Editor.set_chatLayers [] e in
            let e := restoreLayers layers e in
            let fallbackId :=
              match Saved.selectedChatLayerId state with
              | Some i => Some i
              | None => layerIdAt 0 e
              end in
            match fallbackId with
            | Some i => selectChatLayer i e
            | None => e
            end
        | None =>
            let e := set_chatlogText (orElse (default "" (Saved.chatlogText state)) "") e in
            parseChatlog None e
        end in
      Session.mk e showBlackBars chatLineWidth screenshotTheme alwaysPrompt
  end.

End Persistence.

(** ** The handlers written in the template

    The template binds some events to code of its own, and binds
    [parseChatlog] itself to the events of the parse button, of the two
    options and of the text area. *)

Section Template.
Import JsString.

(** [layer.visible = !layer.visible] *)
Definition toggleVisible (i : nat) (e : Editor.t) : Editor.t :=
  alterLayer i (fun l => ChatLayer.set_visible (negb (ChatLayer.visible l)) l) e.

(** [v-model="layer.name"] *)
Definition renameLayer (i : nat) (name : string) (e : Editor.t) : Editor.t :=
  alterLayer i (fun l => ChatLayer.mk (ChatLayer.id l) name (ChatLayer.text l)
                           (ChatLayer.parsedLines l) (ChatLayer.transform l)
                           (ChatLayer.visible l)) e.

(** [parseChatlog] called by an event binding, [@click="parseChatlog"]: the
    argument [layer] is then the event, an object that is no layer of the
    store and has no [text].  The event gets the fields [visible] and
    [parsedLines]; of the state, only the parsed lines of the active layer
    and the render key are written. *)
Definition parseChatlogOnEvent (e : Editor.t) : Editor.t :=
  bumpRenderKey (set_parsedChatLines [] e).

(** The events of the page that write the layers, the regions or the
    selection. *)
Inductive UiEvent : Type :=
| AddLayer
| SelectLayer (id : Z)
| RemoveLayer (id : Z)
| MoveLayer (id : Z) (d : direction)
| ToggleVisible (i : nat)
| RenameLayer (i : nat) (name : string)
| EditChatlog (val : string)
| ClearChatlog
| ParseEvent
| ImportChat (fileType fileName : string) (content : option string)
| TextSelection (selection : option string) (textarea : option TextArea.t)
| CycleCensor
| ChatWheel (deltaY : Q)
| NewSession.

Definition handleEvent (e : Editor.t) (ev : UiEvent) : Editor.t :=
  match ev with
  | AddLayer => addChatLayer e
  | SelectLayer id => selectChatLayer id e
  | RemoveLayer id => removeChatLayer id e
  | MoveLayer id d => moveChatLayer id d e
  | ToggleVisible i => toggleVisible i e
  | RenameLayer i name => renameLayer i name e
  | EditChatlog val => set_chatlogText val e
  | ClearChatlog => clearChatlog e
  | ParseEvent => parseChatlogOnEvent e
  | ImportChat fileType fileName content =>
      handleChatFileSelect fileType fileName content e
  | TextSelection selection textarea => handleTextSelection selection textarea e
  | CycleCensor => cycleCensorType e
  | ChatWheel deltaY => handleChatWheel deltaY e
  | NewSession => resetSession e
  end.

End Template.

(** * Vocabulary of the statements *)

Section Vocabulary.
Import JsString.

Definition regionFor (s : SelectedText.t) (k : CensorType.t) : CensoredRegion.t :=
  CensoredRegion.mk (SelectedText.lineIndex s) (SelectedText.startOffset s)
                    (SelectedText.endOffset s) k (SelectedText.layerId s).

Definition selectable (e : Editor.t) : Prop :=
  SelectedText.lineIndex (Editor.selectedText e) <> -1
  /\ SelectedText.layerId (Editor.selectedText e) <> -1.

(** The state reached from [e] when the store holds [l] followed by the
    region of the selection in kind [k]. *)
Definition withRegions (l : list CensoredRegion.t) (n : Z) (e : Editor.t) : Editor.t :=
  Editor.set_renderKey (Editor.renderKey e + n) (Editor.set_censoredRegions l e).

Fixpoint allChars (p : ascii -> bool) (s : string) : bool :=
  match s with
  | EmptyString => true
  | String c r => p c && allChars p r
  end.

(** A line without any character that is not white space. *)
Definition blank (s : string) : bool := allChars isWhiteSpace s.

Definition parsedLinesAt (i : nat) (e : Editor.t) : list ParsedLine.t :=
  default [] (ChatLayer.parsedLines <$> Editor.chatLayers e !! i).

Definition visibleAt (i : nat) (e : Editor.t) : option bool :=
  ChatLayer.visible <$> Editor.chatLayers e !! i.

(** What a parse makes of a layer: its lines replaced, and shown. *)
Definition parsedLayer (p : list ParsedLine.t) (l : ChatLayer.t) : ChatLayer.t :=
  ChatLayer.set_parsedLines p (ChatLayer.set_visible true l).

(** The layer that [parseChatlog(layer)] works on: the argument, or by
    default the active layer, or the layer that [ensureActiveLayer] adds
    to an empty store. *)
Definition parseTarget (layer : option nat) (e : Editor.t) : nat :=
  match layer with
  | Some i => i
  | None =>
      match activeChatLayer e with
      | Some a => a
      | None => length (Editor.chatLayers e)
      end
  end.

(** The operations of the layer store, as one type. *)
Inductive StoreOp : Type :=
| Create (options : ChatLayer.options)
| Add
| Select (id : Z)
| Remove (id : Z)
| Move (id : Z) (d : direction)
| Reset.

Definition applyOp (e : Editor.t) (op : StoreOp) : Editor.t :=
  match op with
  | Create options => snd (createChatLayer options e)
  | Add => addChatLayer e
  | Select id => selectChatLayer id e
  | Remove id => removeChatLayer id e
  | Move id d => moveChatLayer id d e
  | Reset => resetSession e
  end.

(** The references at their initial values, before the bootstrap. *)
Definition unmounted : Editor.t :=
  Editor.mk [] None 1 [] SelectedText.cleared Transform.identity 0 false ""
            Canvas.initial.

(** The state after the bootstrap of the script: one layer, selected. *)
Definition bootstrap : Editor.t :=
  let '(i, e) := createChatLayer (ChatLayer.named "Layer 1") unmounted in
  Editor.set_selectedChatLayerId (layerIdAt i e) e.

(** [chatLayers.value[index - 1] || chatLayers.value[0]] *)
Definition fallbackLayer (index : nat) (layers : list ChatLayer.t) : option ChatLayer.t :=
  match match index with
        | O => None
        | S k => layers !! k
        end with
  | Some l => Some l
  | None => layers !! 0%nat
  end.

Definition unparsed (l : ChatLayer.t) : bool :=
  truthy (ChatLayer.text l) && isNil (ChatLayer.parsedLines l).

Definition notOfLayer (id : Z) (region : CensoredRegion.t) : bool :=
  negb (CensoredRegion.layerId region =? id).

(** Example states. *)
Definition chat2 : string := "John says: Hi" +:+ String nl (String nl "*waves*").

Definition hiddenLayer : ChatLayer.t :=
  ChatLayer.mk 1 "Layer 1" chat2 [] Transform.identity false.

Definition emptyLayer : ChatLayer.t :=
  ChatLayer.mk 2 "Layer 2" "" [] Transform.identity true.

Definition twoLayers : Editor.t :=
  Editor.mk [hiddenLayer; emptyLayer] (Some 2) 3
            [CensoredRegion.mk 0 0 4 CensorType.Blur 1;
             CensoredRegion.mk 0 0 4 CensorType.BlackBar 2]
            (SelectedText.mk 1 0 5 9 "says") Transform.identity 0 false ""
            Canvas.initial.

Definition twoLayersDeselected : Editor.t :=
  Editor.set_selectedText (SelectedText.deselect (Editor.selectedText twoLayers)) twoLayers.

Definition otherEditor : Editor.t :=
  Editor.mk [emptyLayer; ChatLayer.mk 7 "Copy" chat2 [] Transform.identity true]
            None 8 [] SelectedText.cleared (Transform.mk 3 4 2) 5 false ""
            Canvas.initial.

(** The first rule of the table, and a radio line that is also a call. *)
Definition radioRule : ColorMapping.t :=
  ColorMapping.mk radioPattern "rgb(214, 207, 140)" None None true false.

Definition radioOnCall : string := "** [S: 1 | CH: 2] John (cellphone): hi".

(** Two overlapping regions on line 0 of layer 1, in the order in which the
    user made them: first offsets 3 to 8, then offsets 0 to 5. *)
Definition overlapRegions : list CensoredRegion.t :=
  [ CensoredRegion.mk 0 3 8 CensorType.BlackBar 1;
    CensoredRegion.mk 0 0 5 CensorType.Invisible 1 ].

(** A font in which every character is 7 pixels wide. *)
Definition sevenPx (s : string) : Q := inject_Z (7 * len s).

(** Plain definitions of what the two replacements of [safeTheme] do: keep
    the characters of a class, and put one hyphen for each run of white
    space. *)
Fixpoint filterChars (p : ascii -> bool) (s : string) : string :=
  match s with
  | EmptyString => EmptyString
  | String c r => if p c then String c (filterChars p r) else filterChars p r
  end.

Fixpoint hyphenate (s : string) : string :=
  match s with
  | EmptyString => EmptyString
  | String c r =>
      if isWhiteSpace c then
        match r with
        | String d _ => if isWhiteSpace d then hyphenate r else String "-" (hyphenate r)
        | EmptyString => "-"
        end
      else String c (hyphenate r)
  end.

Fixpoint countWhite (s : string) : nat :=
  match s with
  | String c r => if isWhiteSpace c then S (countWhite r) else 0%nat
  | EmptyString => 0%nat
  end.

(** The file name as the specification words it: the theme with the
    characters outside [A-Za-z0-9 _-] removed and the runs of white space
    turned into hyphens, without any trimming. *)
Definition isSpecChar (c : ascii) : bool :=
  isLower c || isUpper c || isDigit c
  || Ascii.eqb c " " || Ascii.eqb c "_" || Ascii.eqb c "-".

Definition spec_theme (screenshotTheme : string) : string :=
  hyphenate (filterChars isSpecChar screenshotTheme).

Definition spec_filename (now : Date.t) (screenshotTheme : string) : string :=
  pad (Date.date now) +:+ pad (Date.month now + 1) +:+ toString (Date.fullYear now)
  +:+ " - " +:+ pad (Date.hours now) +:+ pad (Date.minutes now)
  +:+ " - " +:+ orElse (spec_theme screenshotTheme) "screenshot" +:+ ".png".

(** 2024-03-05 at 14:07. *)
Definition march5 : Date.t := Date.mk 5 2 2024 14 7.

End Vocabulary.

(** * Vocabulary of the further properties *)

Section MoreVocabulary.
Import JsString.

(** A timestamp [[hh:mm:ss]] written with the given six characters. *)
Definition timestamp (h1 h2 m1 m2 s1 s2 : ascii) : string :=
  String "[" (String h1 (String h2 (String ":" (String m1 (String m2
    (String ":" (String s1 (String s2 (String "]" EmptyString))))))))).

Definition startsWhite (s : string) : bool :=
  match s with
  | String c _ => isWhiteSpace c
  | EmptyString => false
  end.

(** The second rule of the table. *)
Definition cellphoneRule : ColorMapping.t :=
  ColorMapping.mk cellphoneRegExp "rgb(251, 247, 36)" None None true true.

(** The entity that stands for one character in escaped markup. *)
Definition escapeChar (c : ascii) : string :=
  if Ascii.eqb c "038" then amp +:+ "amp;"
  else if Ascii.eqb c "<" then amp +:+ "lt;"
  else if Ascii.eqb c ">" then amp +:+ "gt;"
  else if Ascii.eqb c "034" then amp +:+ "quot;"
  else if Ascii.eqb c "039" then amp +:+ "#039;"
  else String c EmptyString.

Fixpoint flatMapChars (f : ascii -> string) (s : string) : string :=
  match s with
  | EmptyString => EmptyString
  | String c r => f c +:+ flatMapChars f r
  end.

(** Every occurrence of one character replaced by a text. *)
Fixpoint substChar (c : ascii) (repl : string) (s : string) : string :=
  match s with
  | EmptyString => EmptyString
  | String x r => (if Ascii.eqb x c then repl else String x EmptyString)
                  +:+ substChar c repl r
  end.

(** The characters that open or close a tag or an attribute value. *)
Definition isMarkupChar (c : ascii) : bool :=
  Ascii.eqb c "<" || Ascii.eqb c ">" || Ascii.eqb c "034" || Ascii.eqb c "039".

(** The markup that [applyCensoring] puts for a censored text of a kind;
    nothing for the kind [None], for which the [switch] has no case. *)
Definition censorMarkup (k : CensorType.t) (censoredText : string) : string :=
  match k with
  | CensorType.Invisible => censorSpan "censored-invisible" (escapeHtml censoredText)
  | CensorType.BlackBar => censorSpan "censored-blackbar" (escapeHtml censoredText)
  | CensorType.Blur => censorSpan "censored-blur" (escapeHtml censoredText)
  | CensorType.None => EmptyString
  end.

(** The offset and the remaining text after one iteration of the loop of
    [drawTextSegment] in which [nextCensor] was found. *)
Definition scanStep (nextCensor : CensoredRegion.t) (currentOffset : Z)
    (remainingText : string) : Z * string :=
  let uncensoredLength := CensoredRegion.startOffset nextCensor - currentOffset in
  let '(currentOffset, remainingText) :=
    if 0 <? uncensoredLength
    then (currentOffset + uncensoredLength, sliceFrom uncensoredLength remainingText)
    else (currentOffset, remainingText) in
  let censoredLength := CensoredRegion.endOffset nextCensor - currentOffset in
  if 0 <? censoredLength
  then (currentOffset + censoredLength, sliceFrom censoredLength remainingText)
  else (currentOffset, remainingText).

(** The test of the search of [drawTextSegment], without the line. *)
Definition touches (currentOffset : Z) (remainingText : string)
    (region : CensoredRegion.t) : bool :=
  ((currentOffset <=? CensoredRegion.startOffset region)
   && (CensoredRegion.startOffset region <? currentOffset + len remainingText))
  || ((currentOffset <? CensoredRegion.endOffset region)
      && (CensoredRegion.endOffset region <=? currentOffset + len remainingText)).

Definition nonDegenerate (region : CensoredRegion.t) : Prop :=
  CensoredRegion.startOffset region < CensoredRegion.endOffset region.

(** What the export paints for uncensored text at [x]: nothing for no text. *)
Definition plainPaint (measureText : string -> Q) (showBlackBars : bool)
    (text : string) (x y : Q) (color : string) : list DrawOp :=
  if isEmpty text then []
  else drawTextWithOutline measureText showBlackBars text x y color None.

(** Where the text after an uncensored text starts. *)
Definition plainAdvance (measureText : string -> Q) (text : string) (x : Q) : Q :=
  if isEmpty text then x else (x + measureText text)%Q.

(** What the export paints over a censored text of a kind at [x]. *)
Definition censorPaint (measureText : string -> Q) (showBlackBars : bool)
    (k : CensorType.t) (censoredText : string) (x y : Q) (color : string)
  : list DrawOp :=
  match k with
  | CensorType.BlackBar => [FillRect (x - 2) y (measureText censoredText + 4) 16]
  | CensorType.Blur =>
      drawTextWithOutline measureText showBlackBars censoredText x y color
                          (Some CensorType.Blur)
  | _ => []
  end%Q.

(** Where the text after a censored text of a kind starts: two widths on
    for the kind [Invisible], one for the others. *)
Definition censorAdvance (measureText : string -> Q) (k : CensorType.t)
    (censoredText : string) (x : Q) : Q :=
  match k with
  | CensorType.Invisible => x + measureText censoredText + measureText censoredText
  | _ => x + measureText censoredText
  end%Q.


Definition layerIds (e : Editor.t) : list Z := ChatLayer.id <$> Editor.chatLayers e.

(** The part of the state that the identities of the layers appear in. *)
Definition skeleton (e : Editor.t)
  : list Z * Z * option Z * list CensoredRegion.t * Z :=
  (layerIds e, Editor.nextChatLayerId e, Editor.selectedChatLayerId e,
   Editor.censoredRegions e, SelectedText.layerId (Editor.selectedText e)).

(** The identities are in order: the layers have pairwise different ids,
    all positive and below the next id to give; the selected id, the layer
    of every censored region and the layer of the selection, when there is
    one, are ids of layers of the store. *)
Definition wellFormed (e : Editor.t) : Prop :=
  NoDup (layerIds e)
  /\ Forall (fun i => 1 <= i < Editor.nextChatLayerId e) (layerIds e)
  /\ (exists sid, Editor.selectedChatLayerId e = Some sid /\ sid ∈ layerIds e)
  /\ Forall (fun r => CensoredRegion.layerId r ∈ layerIds e) (Editor.censoredRegions e)
  /\ (SelectedText.layerId (Editor.selectedText e) = -1
      \/ SelectedText.layerId (Editor.selectedText e) ∈ layerIds e).

(** The layer that [createChatLayer()] makes in the state [e]. *)
Definition freshLayer (e : Editor.t) : ChatLayer.t :=
  ChatLayer.mk (Editor.nextChatLayerId e)
               (layerName (length (Editor.chatLayers e) + 1))
               "" [] Transform.identity true.

(** The text that [createChatLayer] gives a restored layer. *)
Definition savedText (layer : Saved.layer) : string := default "" (Saved.l_text layer).

(** The characters of a sanitised theme, and of a whole file name. *)
Definition isSafeChar (c : ascii) : bool :=
  isLower c || isUpper c || isDigit c || Ascii.eqb c "_" || Ascii.eqb c "-".

Definition isFilenameChar (c : ascii) : bool :=
  isSafeChar c || Ascii.eqb c " " || Ascii.eqb c ".".

(** The lines of a text area before a line, each with its newline. *)
Fixpoint terminated (lines : list string) : string :=
  match lines with
  | [] => EmptyString
  | line :: rest => line +:+ String nl (terminated rest)
  end.

Definition inRange (lo hi x : Q) : Prop := (lo <= x /\ x <= hi)%Q.

(** What a saved session keeps of a layer, apart from its name. *)
Definition savedFields (l : ChatLayer.t) : Z * string * Transform.t :=
  (ChatLayer.id l, ChatLayer.text l, ChatLayer.transform l).

(** Example inputs of the further properties. *)
Definition barRegion : CensoredRegion.t := CensoredRegion.mk 0 3 8 CensorType.BlackBar 1.

Definition emptyRegion : CensoredRegion.t := CensoredRegion.mk 0 3 3 CensorType.Blur 1.

Definition copyLayer : ChatLayer.t :=
  ChatLayer.mk 7 "Copy" "*nods*" [] Transform.identity false.

Definition emptyStore : Editor.t := Editor.set_chatLayers [] bootstrap.

Definition chatArea : TextArea.t := TextArea.mk chat2 5 9.

Definition twoLayerSession : Session.t := Session.mk twoLayers true 640 "night" false.

Definition freshSession : Session.t := Session.mk bootstrap false 640 "" false.

End MoreVocabulary.

(** * Properties *)

(** ** Lists addressed by index *)

Section FindIndex.
Context {A : Type} (p : A -> bool).

Lemma findIndex_Some (l : list A) (i : nat) :
  findIndex p l = Some i ->
  exists x, l !! i = Some x /\ p x = true
            /\ Forall (fun y => p y = false) (take i l).
Proof.
  revert i. induction l as [|a l IH]; intros i; simpl; [discriminate|].
  destruct (p a) eqn:Ha.
  - intros [= <-]. exists a. simpl. auto.
  - destruct (findIndex p l) as [j|] eqn:Hj; simpl; [|discriminate].
    intros [= <-]. destruct (IH j eq_refl) as (x & Hx & Hp & Hall).
    exists x. simpl. repeat split; auto.
Qed.

Lemma findIndex_None (l : list A) :
  findIndex p l = None <-> Forall (fun y => p y = false) l.
Proof.
  induction l as [|a l IH]; simpl.
  - split; auto.
  - destruct (p a) eqn:Ha.
    + split; [discriminate|]. intros H. inversion H; congruence.
    + destruct (findIndex p l) eqn:Hj; simpl.
      * split; [discriminate|]. intros H. inversion H; subst.
        apply IH in H3. discriminate.
      * split; auto. intros _. constructor; auto. apply IH; auto.
Qed.

Lemma findIndex_app_last (l : list A) (x : A) :
  findIndex p l = None -> p x = true -> findIndex p (l ++ [x]) = Some (length l).
Proof.
  induction l as [|a l IH]; simpl; intros Hl Hx.
  - now rewrite Hx.
  - destruct (p a); [discriminate|].
    destruct (findIndex p l); [discriminate|]. now rewrite IH.
Qed.

End FindIndex.

Lemma insert_last {A} (l : list A) (x y : A) : <[length l := y]> (l ++ [x]) = l ++ [y].
Proof. induction l; simpl; congruence. Qed.

Lemma delete_last {A} (l : list A) (x : A) : delete (length l) (l ++ [x]) = l.
Proof. induction l; simpl; congruence. Qed.

Lemma lookup_last {A} (l : list A) (x : A) : (l ++ [x]) !! length l = Some x.
Proof. induction l; simpl; auto. Qed.

Lemma filter_insert_same {A} (q : A -> bool) (l : list A) (i : nat) (x y : A) :
  l !! i = Some x -> q x = false -> q y = false ->
  List.filter q (<[i := y]> l) = List.filter q l.
Proof.
  intros H Hx Hy. rewrite insert_take_drop by (eapply lookup_lt_Some; eauto).
  rewrite <- (take_drop_middle l i x H) at 3.
  rewrite !List.filter_app. simpl. now rewrite Hx, Hy.
Qed.

Lemma filter_delete_false {A} (q : A -> bool) (l : list A) (i : nat) (x : A) :
  l !! i = Some x -> q x = false ->
  List.filter q (delete i l) = List.filter q l.
Proof.
  intros H Hq. rewrite delete_take_drop.
  rewrite <- (take_drop_middle l i x H) at 3.
  rewrite !List.filter_app. simpl. now rewrite Hq.
Qed.

(** ** C1: the censor cycle *)

Section CensorCycle.

Lemma sameKey_regionFor s k : sameKey s (regionFor s k) = true.
Proof. unfold sameKey, regionFor; simpl. now rewrite !Z.eqb_refl. Qed.

Lemma cycle_guard e :
  SelectedText.lineIndex (Editor.selectedText e) = -1
  \/ SelectedText.layerId (Editor.selectedText e) = -1 ->
  cycleCensorType e = e.
Proof.
  unfold cycleCensorType. intros [H|H]; rewrite H; simpl; auto.
  now destruct (_ =? -1).
Qed.

Lemma cycle_body e :
  selectable e ->
  cycleCensorType e =
  bumpRenderKey
    (let regions := Editor.censoredRegions e in
     match findIndex (sameKey (Editor.selectedText e)) regions with
     | None =>
         Editor.set_censoredRegions
           (regions ++ [regionFor (Editor.selectedText e) CensorType.Invisible]) e
     | Some i =>
         match regions !! i with
         | Some current =>
             match CensoredRegion.type current with
             | CensorType.Invisible =>
                 Editor.set_censoredRegions
                   (<[i := CensoredRegion.set_type CensorType.BlackBar current]> regions) e
             | CensorType.BlackBar =>
                 Editor.set_censoredRegions
                   (<[i := CensoredRegion.set_type CensorType.Blur current]> regions) e
             | CensorType.Blur => Editor.set_censoredRegions (delete i regions) e
             | CensorType.None => e
             end
         | None => e
         end
     end).
Proof.
  intros [H1 H2]. unfold cycleCensorType.
  apply Z.eqb_neq in H1, H2. now rewrite H1, H2.
Qed.

Lemma cycle_last e l r n :
  selectable e ->
  findIndex (sameKey (Editor.selectedText e)) l = None ->
  sameKey (Editor.selectedText e) r = true ->
  cycleCensorType (withRegions (l ++ [r]) n e) =
  match CensoredRegion.type r with
  | CensorType.Invisible =>
      withRegions (l ++ [CensoredRegion.set_type CensorType.BlackBar r]) (n + 1) e
  | CensorType.BlackBar =>
      withRegions (l ++ [CensoredRegion.set_type CensorType.Blur r]) (n + 1) e
  | CensorType.Blur => withRegions l (n + 1) e
  | CensorType.None => withRegions (l ++ [r]) (n + 1) e
  end.
Proof.
  intros Hsel Hl Hr. rewrite cycle_body by exact Hsel. simpl.
  rewrite (findIndex_app_last _ l r Hl Hr), lookup_last.
  unfold withRegions, bumpRenderKey.
  destruct (CensoredRegion.type r); simpl;
    rewrite ?insert_last, ?delete_last, <- ?Z.add_assoc; reflexivity.
Qed.

Lemma cycle_other_regions e :
  let other := fun r => negb (sameKey (Editor.selectedText e) r) in
  List.filter other (Editor.censoredRegions (cycleCensorType e))
  = List.filter other (Editor.censoredRegions e).
Proof.
  intros other. unfold cycleCensorType.
  destruct (_ =? -1); [reflexivity|]. destruct (_ =? -1); [reflexivity|].
  simpl. destruct (findIndex _ _) as [i|] eqn:Hi; simpl.
  - destruct (findIndex_Some _ _ _ Hi) as (x & Hx & Hp & _). rewrite Hx.
    assert (Hox : other x = false) by (unfold other; now rewrite Hp).
    destruct (CensoredRegion.type x); simpl; try reflexivity.
    + now apply filter_insert_same with (x := x).
    + now apply filter_insert_same with (x := x).
    + now apply filter_delete_false with (x := x).
  - rewrite List.filter_app. simpl. unfold other at 2.
    pose proof (sameKey_regionFor (Editor.selectedText e) CensorType.Invisible) as Hk.
    unfold regionFor in Hk. rewrite Hk. simpl. now rewrite app_nil_r.
Qed.

Lemma cycle_selectedText e :
  Editor.selectedText (cycleCensorType e) = Editor.selectedText e.
Proof.
  unfold cycleCensorType.
  destruct (_ =? -1); [reflexivity|]. destruct (_ =? -1); [reflexivity|].
  simpl. destruct (findIndex _ _); [|reflexivity].
  destruct (_ !! _) as [c|]; [|reflexivity].
  now destruct (CensoredRegion.type c).
Qed.

Lemma iter_cycle_selectedText k e :
  Editor.selectedText (Nat.iter k cycleCensorType e) = Editor.selectedText e.
Proof. induction k; simpl; [reflexivity|]. now rewrite cycle_selectedText. Qed.

Lemma filter_sameKey_fresh s l r :
  findIndex (sameKey s) l = None -> sameKey s r = true ->
  List.filter (sameKey s) (l ++ [r]) = [r].
Proof.
  intros Hl Hr. rewrite List.filter_app. simpl. rewrite Hr.
  apply findIndex_None in Hl.
  replace (List.filter (sameKey s) l) with (@nil CensoredRegion.t); [reflexivity|].
  induction Hl as [|a l Ha _ IH]; simpl; [reflexivity|]. now rewrite Ha.
Qed.

(** C1.  With no line or no layer selected, [cycleCensorType] changes
    nothing.  With a selection whose key (layer, line, start, end) has no
    region yet, four successive calls leave the store as the original
    regions followed by the selection's region in kind Invisible, then
    BlackBar, then Blur, and then as the original regions alone; the key
    occurs once in each of the three intermediate stores; and every call,
    from any state, leaves the regions with a different key as they were,
    in the same order. *)
Theorem cycleCensorType_lifecycle (e : Editor.t) :
  let sel := Editor.selectedText e in
  let store k := Editor.censoredRegions (Nat.iter k cycleCensorType e) in
  (SelectedText.lineIndex sel = -1 \/ SelectedText.layerId sel = -1 ->
   cycleCensorType e = e)
  /\ (selectable e -> findIndex (sameKey sel) (store 0%nat) = None ->
      store 1%nat = store 0%nat ++ [regionFor sel CensorType.Invisible]
      /\ store 2%nat = store 0%nat ++ [regionFor sel CensorType.BlackBar]
      /\ store 3%nat = store 0%nat ++ [regionFor sel CensorType.Blur]
      /\ store 4%nat = store 0%nat
      /\ (forall k, (1 <= k <= 3)%nat ->
                    length (List.filter (sameKey sel) (store k)) = 1%nat))
  /\ (forall k,
        List.filter (fun r => negb (sameKey sel r)) (store (S k))
        = List.filter (fun r => negb (sameKey sel r)) (store k)).
Proof.
  intros sel store. split; [apply cycle_guard|]. split.
  - intros Hsel Hfresh.
    change (findIndex (sameKey sel) (Editor.censoredRegions e) = None) in Hfresh.
    subst store. cbv beta. cbv [Nat.iter nat_rect].
    set (l := Editor.censoredRegions e) in *.
    assert (H1 : cycleCensorType e
                 = withRegions (l ++ [regionFor sel CensorType.Invisible]) 1 e).
    { rewrite cycle_body by exact Hsel. cbn zeta. fold l sel.
      rewrite Hfresh. reflexivity. }
    assert (H2 : cycleCensorType (cycleCensorType e)
                 = withRegions (l ++ [regionFor sel CensorType.BlackBar]) 2 e).
    { rewrite H1, (cycle_last e l _ 1 Hsel Hfresh (sameKey_regionFor _ _)).
      reflexivity. }
    assert (H3 : cycleCensorType (cycleCensorType (cycleCensorType e))
                 = withRegions (l ++ [regionFor sel CensorType.Blur]) 3 e).
    { rewrite H2, (cycle_last e l _ 2 Hsel Hfresh (sameKey_regionFor _ _)).
      reflexivity. }
    assert (H4 : cycleCensorType (cycleCensorType (cycleCensorType (cycleCensorType e)))
                 = withRegions l 4 e).
    { rewrite H3, (cycle_last e l _ 3 Hsel Hfresh (sameKey_regionFor _ _)).
      reflexivity. }
    rewrite H4, H3, H2, H1. repeat split.
    intros k Hk.
    assert (Hk' : k = 1%nat \/ k = 2%nat \/ k = 3%nat) by lia.
    destruct Hk' as [-> | [-> | ->]]; cbv [Nat.iter nat_rect];
      rewrite ?H3, ?H2, ?H1; cbn [withRegions Editor.censoredRegions
                                   Editor.set_renderKey Editor.set_censoredRegions];
      now rewrite (filter_sameKey_fresh sel l _ Hfresh (sameKey_regionFor _ _)).
  - intros k. subst store. cbv beta. cbv [Nat.iter nat_rect].
    pose proof (cycle_other_regions (Nat.iter k cycleCensorType e)) as H.
    cbn zeta in H. rewrite iter_cycle_selectedText in H. exact H.
Qed.

End CensorCycle.

(** ** Strings: splitting, joining and trimming *)

Section StringFacts.
Import JsString.

Lemma isEmpty_true s : isEmpty s = true <-> s = "".
Proof. destruct s; simpl; split; congruence. Qed.

Lemma orElse_empty_r s : orElse s "" = s.
Proof. now destruct s. Qed.

Lemma append_nil_l s : "" +:+ s = s.
Proof. reflexivity. Qed.

Lemma append_cons c s t : String c s +:+ t = String c (s +:+ t).
Proof. reflexivity. Qed.

Lemma append_empty_r s : s +:+ "" = s.
Proof. induction s; rewrite ?append_nil_l, ?append_cons; congruence. Qed.

Lemma append_assoc a b c : (a +:+ b) +:+ c = a +:+ b +:+ c.
Proof. induction a; rewrite ?append_nil_l, ?append_cons; congruence. Qed.

Lemma trimEnd_isEmpty s : isEmpty (trimEnd s) = blank s.
Proof.
  induction s as [|c r IH]; simpl; [reflexivity|].
  rewrite IH. unfold blank; simpl. now destruct (isWhiteSpace c), (allChars _ r).
Qed.

Lemma blank_trimStart s : blank (trimStart s) = blank s.
Proof.
  induction s as [|c r IH]; simpl; [reflexivity|].
  unfold blank in *; simpl. destruct (isWhiteSpace c) eqn:Hc; simpl; auto.
  now rewrite Hc.
Qed.

Lemma trim_isEmpty s : isEmpty (trim s) = blank s.
Proof. unfold trim. now rewrite trimEnd_isEmpty, blank_trimStart. Qed.

Lemma split_not_nil sep s : split sep s <> [].
Proof.
  destruct s as [|c r]; simpl; [discriminate|].
  destruct (Ascii.eqb c sep); [discriminate|]. now destruct (split sep r).
Qed.

Lemma join_cons_char sep c w ws :
  join sep (String c w :: ws) = String c (join sep (w :: ws)).
Proof. now destruct ws. Qed.

(** Joining the pieces of a split with the separator gives the text back. *)
Lemma join_split sep s : join (String sep "") (split sep s) = s.
Proof.
  induction s as [|c r IH]; simpl; [reflexivity|].
  destruct (Ascii.eqb_spec c sep) as [->|Hne].
  - pose proof (split_not_nil sep r) as Hnil.
    destruct (split sep r) as [|w ws]; [congruence|].
    cbn [join]. rewrite append_nil_l, append_cons, append_nil_l.
    now rewrite <- IH.
  - pose proof (split_not_nil sep r) as Hnil.
    destruct (split sep r) as [|w ws]; [congruence|].
    rewrite join_cons_char. now rewrite IH.
Qed.

(** No piece of a split holds the separator. *)
Lemma split_no_sep sep s :
  Forall (fun w => allChars (fun c => negb (Ascii.eqb c sep)) w = true) (split sep s).
Proof.
  induction s as [|c r IH]; simpl.
  - now constructor.
  - destruct (Ascii.eqb c sep) eqn:Hc.
    + now constructor.
    + destruct (split sep r) as [|w ws]; [now repeat constructor; simpl; rewrite Hc|].
      inversion IH; subst. constructor; auto. simpl. now rewrite Hc.
Qed.

Lemma chatLines_blank text :
  chatLines text = List.filter (fun line => negb (blank line)) (split nl text).
Proof.
  unfold chatLines. apply List.filter_ext. intros line. now rewrite trim_isEmpty.
Qed.

End StringFacts.

(** ** Parsing a layer *)

Section ParseFacts.
Import JsString.

Lemma findIndex_alter (f : ChatLayer.t -> ChatLayer.t) sid i (l : list ChatLayer.t) :
  (forall x, ChatLayer.id (f x) = ChatLayer.id x) ->
  findIndex (hasId sid) (alter f i l) = findIndex (hasId sid) l.
Proof.
  intros Hf. revert i. induction l as [|a l IH]; intros [|i]; simpl; auto.
  - unfold hasId at 1 3. now rewrite Hf.
  - specialize (IH i). unfold alter in IH. now rewrite IH.
Qed.

Lemma activeChatLayer_alterLayer f i e :
  (forall x, ChatLayer.id (f x) = ChatLayer.id x) ->
  activeChatLayer (alterLayer i f e) = activeChatLayer e.
Proof.
  intros Hf. unfold activeChatLayer, firstIndex, alterLayer.
  destruct e as [layers sel ? ? ? ? ? ? ? ?]; simpl.
  assert (Hfirst : match alter f i layers with [] => None | _ :: _ => Some 0%nat end
                   = match layers with [] => None | _ :: _ => Some 0%nat end).
  { destruct layers; [reflexivity|]. now destruct i. }
  destruct sel as [sid|]; [|exact Hfirst].
  rewrite (findIndex_alter f sid i layers Hf). now rewrite Hfirst.
Qed.

Lemma activeChatLayer_lookup e a :
  activeChatLayer e = Some a -> is_Some (Editor.chatLayers e !! a).
Proof.
  unfold activeChatLayer, firstIndex.
  assert (Hfirst : match Editor.chatLayers e with [] => None | _ :: _ => Some 0%nat end
                   = Some a -> is_Some (Editor.chatLayers e !! a)).
  { destruct (Editor.chatLayers e); [discriminate|]. intros [= <-]. simpl. eauto. }
  destruct (Editor.selectedChatLayerId e) as [sid|]; [|exact Hfirst].
  destruct (findIndex _ _) as [i|] eqn:Hi; [|exact Hfirst].
  intros [= <-]. destruct (findIndex_Some _ _ _ Hi) as (x & Hx & _). eauto.
Qed.

Lemma activeChatLayer_nonempty e i l :
  Editor.chatLayers e !! i = Some l -> is_Some (activeChatLayer e).
Proof.
  intros H. unfold activeChatLayer, firstIndex.
  destruct (Editor.chatLayers e) as [|x xs]; [destruct i; discriminate|].
  destruct (Editor.selectedChatLayerId e); [destruct (findIndex _ _)|]; eauto.
Qed.

(** The state after [parseChatlog(layer)] for a layer of the store. *)
Lemma parseChatlog_at e i l :
  Editor.chatLayers e !! i = Some l ->
  let p := parseText (Editor.stripTimestamps e) (Editor.characterName e)
                     (ChatLayer.text l) in
  parseChatlog (Some i) e
  = bumpRenderKey
      (set_parsedChatLines p
         (alterLayer i (ChatLayer.set_parsedLines p)
            (alterLayer i (ChatLayer.set_visible true) e))).
Proof.
  intros Hl p. unfold parseChatlog.
  assert (Ht : textAt i (alterLayer i (ChatLayer.set_visible true) e) = ChatLayer.text l).
  { unfold textAt, alterLayer. destruct e; simpl in *.
    now rewrite list_lookup_alter_eq, Hl. }
  rewrite Ht, orElse_empty_r. subst p. unfold parseText.
  destruct (truthy (ChatLayer.text l)); reflexivity.
Qed.

(** The layers after [parseChatlog(layer)]: the target is parsed, and the
    active layer receives the same lines through [parsedChatLines]. *)
Lemma parseChatlog_layers e i l :
  Editor.chatLayers e !! i = Some l ->
  let p := parseText (Editor.stripTimestamps e) (Editor.characterName e)
                     (ChatLayer.text l) in
  exists a, activeChatLayer e = Some a
    /\ Editor.chatLayers (parseChatlog (Some i) e)
       = alter (ChatLayer.set_parsedLines p) a
           (alter (parsedLayer p) i (Editor.chatLayers e)).
Proof.
  intros Hl p. destruct (activeChatLayer_nonempty e i l Hl) as [a Ha].
  exists a. split; [exact Ha|].
  rewrite (parseChatlog_at e i l Hl). fold p.
  unfold bumpRenderKey, set_parsedChatLines.
  rewrite !activeChatLayer_alterLayer, Ha by reflexivity.
  unfold alterLayer. destruct e; simpl.
  now rewrite list_alter_alter_eq.
Qed.

Lemma parseChatlog_target e i l :
  Editor.chatLayers e !! i = Some l ->
  Editor.chatLayers (parseChatlog (Some i) e) !! i
  = Some (parsedLayer (parseText (Editor.stripTimestamps e) (Editor.characterName e)
                                 (ChatLayer.text l)) l).
Proof.
  intros Hl. destruct (parseChatlog_layers e i l Hl) as (a & _ & ->).
  destruct (decide (a = i)) as [->|Hne].
  - rewrite !list_lookup_alter_eq, Hl. reflexivity.
  - rewrite list_lookup_alter_ne by exact Hne.
    rewrite list_lookup_alter_eq, Hl. reflexivity.
Qed.

Lemma parseChatlog_settings e layer :
  Editor.stripTimestamps (parseChatlog layer e) = Editor.stripTimestamps e
  /\ Editor.characterName (parseChatlog layer e) = Editor.characterName e.
Proof.
  unfold parseChatlog.
  destruct (match layer with Some i => Some i | None => activeChatLayer e end).
  - cbv zeta. destruct (negb _); unfold bumpRenderKey, set_parsedChatLines;
      destruct (activeChatLayer _); split; reflexivity.
  - unfold ensureActiveLayer. destruct (activeChatLayer e);
      cbv zeta; simpl; destruct (negb _); unfold bumpRenderKey, set_parsedChatLines;
      destruct (activeChatLayer _); split; reflexivity.
Qed.

End ParseFacts.

Section ParseClaims.
Import JsString.

Lemma alter_fixed {A} (f : A -> A) (l : list A) (i : nat) :
  (forall x, l !! i = Some x -> f x = x) -> alter f i l = l.
Proof.
  intros H. rewrite (list_alter_ext f id l l i); [|exact H|reflexivity].
  now apply list_alter_id.
Qed.

Lemma parseText_imap strip name text :
  parseText strip name text = imap (parseLine strip name) (chatLines text).
Proof. unfold parseText. now destruct text. Qed.

Lemma parseLine_id strip name i line :
  ParsedLine.id (parseLine strip name i line) = Z.of_nat i.
Proof. unfold parseLine. now destruct (classifyLine strip name line). Qed.

Lemma parsedLinesAt_parse e i l :
  Editor.chatLayers e !! i = Some l ->
  parsedLinesAt i (parseChatlog (Some i) e)
  = parseText (Editor.stripTimestamps e) (Editor.characterName e) (ChatLayer.text l).
Proof.
  intros Hl. unfold parsedLinesAt. now rewrite (parseChatlog_target e i l Hl).
Qed.

(** C2.  For a layer of the store with source text [text], the lines that
    [parseChatlog] stores are obtained from the pieces of [text] between
    newlines (joining them with newlines gives [text] back, and no piece
    holds a newline): the pieces with a character that is not white space
    are kept, in order, each mapped by the line classifier, and the ids are
    0, 1, 2, ... over the kept pieces.  An empty text gives no line.  A piece
    has no such character exactly when trimming it leaves the empty string. *)
Theorem parseChatlog_lines (e : Editor.t) (i : nat) (l : ChatLayer.t) :
  Editor.chatLayers e !! i = Some l ->
  let text := ChatLayer.text l in
  let lines := split nl text in
  let kept := List.filter (fun line => negb (blank line)) lines in
  let out := parsedLinesAt i (parseChatlog (Some i) e) in
  join (String nl "") lines = text
  /\ Forall (fun w => allChars (fun c => negb (Ascii.eqb c nl)) w = true) lines
  /\ out = imap (parseLine (Editor.stripTimestamps e) (Editor.characterName e)) kept
  /\ ParsedLine.id <$> out = Z.of_nat <$> seq 0 (length kept)
  /\ (text = "" -> out = [])
  /\ (forall line, blank line = isEmpty (trim line)).
Proof.
  intros Hl text lines kept out.
  assert (Hout : out = imap (parseLine (Editor.stripTimestamps e)
                                       (Editor.characterName e)) kept).
  { subst out kept lines text. rewrite (parsedLinesAt_parse e i l Hl).
    now rewrite parseText_imap, chatLines_blank. }
  split; [apply join_split|]. split; [apply split_no_sep|].
  split; [exact Hout|]. split.
  - rewrite Hout. apply list_eq. intros j.
    rewrite !list_lookup_fmap, list_lookup_imap.
    destruct (kept !! j) as [line|] eqn:Hj; simpl.
    + rewrite parseLine_id, lookup_seq_lt; [reflexivity|].
      eapply lookup_lt_Some; eauto.
    + rewrite lookup_seq_ge; [reflexivity|]. now apply lookup_ge_None.
  - split.
    + intros Ht. rewrite Hout. subst kept lines. now rewrite Ht.
    + intros line. now rewrite trim_isEmpty.
Qed.

Lemma parseChatlog_active e i l :
  Editor.chatLayers e !! i = Some l ->
  activeChatLayer (parseChatlog (Some i) e) = activeChatLayer e.
Proof.
  intros Hl. rewrite (parseChatlog_at e i l Hl). cbv zeta.
  unfold set_parsedChatLines.
  rewrite !activeChatLayer_alterLayer by reflexivity.
  destruct (activeChatLayer e) as [a|] eqn:Ha.
  - change (activeChatLayer (bumpRenderKey ?x)) with (activeChatLayer x).
    now rewrite !activeChatLayer_alterLayer by reflexivity.
  - change (activeChatLayer (bumpRenderKey ?x)) with (activeChatLayer x).
    now rewrite !activeChatLayer_alterLayer by reflexivity.
Qed.

(** C3.  The lines that a parse stores for a layer depend only on the
    layer's text, the timestamp flag and the character name: two parses
    from any two editor states that agree on these three store the same
    lines (same id, text and colour).  Parsing a second time leaves every
    layer as the first parse left it. *)
Theorem parseChatlog_deterministic (e1 e2 : Editor.t) (i1 i2 : nat)
    (l1 l2 : ChatLayer.t) :
  Editor.chatLayers e1 !! i1 = Some l1 ->
  Editor.chatLayers e2 !! i2 = Some l2 ->
  ChatLayer.text l1 = ChatLayer.text l2 ->
  Editor.stripTimestamps e1 = Editor.stripTimestamps e2 ->
  Editor.characterName e1 = Editor.characterName e2 ->
  parsedLinesAt i1 (parseChatlog (Some i1) e1)
  = parsedLinesAt i2 (parseChatlog (Some i2) e2)
  /\ Editor.chatLayers (parseChatlog (Some i1) (parseChatlog (Some i1) e1))
     = Editor.chatLayers (parseChatlog (Some i1) e1).
Proof.
  intros H1 H2 Ht Hs Hn. split.
  - rewrite (parsedLinesAt_parse e1 i1 l1 H1), (parsedLinesAt_parse e2 i2 l2 H2).
    now rewrite Ht, Hs, Hn.
  - set (p := parseText (Editor.stripTimestamps e1) (Editor.characterName e1)
                        (ChatLayer.text l1)).
    pose proof (parseChatlog_target e1 i1 l1 H1) as Hl'. fold p in Hl'.
    destruct (parseChatlog_layers _ i1 _ Hl') as (a' & Ha' & ->).
    destruct (parseChatlog_settings e1 (Some i1)) as [-> ->].
    change (ChatLayer.text (parsedLayer p l1)) with (ChatLayer.text l1). fold p.
    rewrite (parseChatlog_active e1 i1 l1 H1) in Ha'.
    destruct (parseChatlog_layers e1 i1 l1 H1) as (a & Ha & Hlay). fold p in Hlay.
    assert (a' = a) as -> by congruence.
    rewrite Hlay. apply list_eq. intros j.
    rewrite !list_lookup_alter.
    repeat case_decide; subst; try congruence;
      destruct (Editor.chatLayers e1 !! j) as [x|]; reflexivity.
Qed.

Lemma activeChatLayer_None e : activeChatLayer e = None -> Editor.chatLayers e = [].
Proof.
  unfold activeChatLayer, firstIndex.
  destruct (Editor.chatLayers e); [reflexivity|].
  destruct (Editor.selectedChatLayerId e); [destruct (findIndex _ _)|]; discriminate.
Qed.

Lemma selectChatLayer_found e id i l :
  findIndex (hasId id) (Editor.chatLayers e) = Some i ->
  Editor.chatLayers e !! i = Some l ->
  Editor.chatLayers (selectChatLayer id e)
  = if truthy (ChatLayer.text l) && isNil (ChatLayer.parsedLines l)
    then alter (parsedLayer (parseText (Editor.stripTimestamps e)
                                       (Editor.characterName e) (ChatLayer.text l)))
               i (Editor.chatLayers e)
    else Editor.chatLayers e.
Proof.
  intros Hi Hl. unfold selectChatLayer. rewrite Hi.
  set (e1 := Editor.set_selectedChatLayerId (Some id) e).
  assert (Hl1 : Editor.chatLayers e1 !! i = Some l) by exact Hl.
  assert (Ha1 : activeChatLayer e1 = Some i).
  { unfold activeChatLayer. cbn. now rewrite Hi. }
  cbv zeta. rewrite Hl1.
  set (p := parseText (Editor.stripTimestamps e) (Editor.characterName e)
                      (ChatLayer.text l)).
  set (e2 := if truthy (ChatLayer.text l) && isNil (ChatLayer.parsedLines l)
             then parseChatlog (Some i) e1 else e1).
  assert (H2 : exists l2, Editor.chatLayers e2 !! i = Some l2
                 /\ activeChatLayer e2 = Some i
                 /\ Editor.chatLayers e2
                    = if truthy (ChatLayer.text l) && isNil (ChatLayer.parsedLines l)
                      then alter (parsedLayer p) i (Editor.chatLayers e)
                      else Editor.chatLayers e).
  { subst e2. destruct (truthy _ && isNil _).
    - exists (parsedLayer p l). split; [exact (parseChatlog_target e1 i l Hl1)|].
      split; [now rewrite (parseChatlog_active e1 i l Hl1)|].
      destruct (parseChatlog_layers e1 i l Hl1) as (a & Ha & ->).
      assert (a = i) as -> by congruence.
      rewrite list_alter_alter_eq. apply list_alter_ext; [|reflexivity].
      intros x _. reflexivity.
    - exists l. auto. }
  destruct H2 as (l2 & Hl2 & Ha2 & Hlay). rewrite Hl2.
  unfold set_parsedChatLines, set_chatlogText. rewrite Ha2.
  rewrite (activeChatLayer_alterLayer _ i e2), Ha2 by reflexivity.
  cbn. rewrite list_alter_alter_eq, <- Hlay.
  apply alter_fixed. intros x Hx.
  assert (x = l2) as -> by congruence. now destruct l2.
Qed.

Lemma visibleAt_alter_parsed p i (ls : list ChatLayer.t) l :
  ls !! i = Some l ->
  ChatLayer.visible <$> alter (parsedLayer p) i ls !! i = Some true.
Proof. intros H. now rewrite list_lookup_alter_eq, H. Qed.

(** C10.  After [parseChatlog] the layer it worked on is visible, whatever
    its flag was before: for a layer of the store passed as argument, and
    without argument for the active layer (or the layer added to an empty
    store).  In particular selecting a layer that has text and no parsed
    lines, which parses it, leaves that layer visible. *)
Theorem parseChatlog_shows_layer (e : Editor.t) :
  (forall layer,
      (forall i, layer = Some i -> is_Some (Editor.chatLayers e !! i)) ->
      visibleAt (parseTarget layer e) (parseChatlog layer e) = Some true)
  /\ (forall id i l,
        findIndex (hasId id) (Editor.chatLayers e) = Some i ->
        Editor.chatLayers e !! i = Some l ->
        truthy (ChatLayer.text l) = true ->
        ChatLayer.parsedLines l = [] ->
        visibleAt i (selectChatLayer id e) = Some true).
Proof.
  split.
  - intros [i|] Hin; unfold parseTarget.
    + destruct (Hin i eq_refl) as [l Hl]. unfold visibleAt.
      now rewrite (parseChatlog_target e i l Hl).
    + destruct (activeChatLayer e) as [a|] eqn:Ha.
      * destruct (activeChatLayer_lookup e a Ha) as [l Hl].
        replace (parseChatlog None e) with (parseChatlog (Some a) e)
          by (unfold parseChatlog; now rewrite Ha).
        unfold visibleAt. now rewrite (parseChatlog_target e a l Hl).
      * pose proof (activeChatLayer_None e Ha) as Hnil.
        unfold parseChatlog. rewrite Ha. unfold ensureActiveLayer. rewrite Ha.
        destruct e as [layers sel next regs st tr rk strip name cv].
        cbn in Hnil. subst layers. clear Ha Hin.
        unfold visibleAt, set_parsedChatLines, activeChatLayer. cbn.
        unfold hasId. cbn. rewrite Z.eqb_refl. reflexivity.
  - intros id i l Hi Hl Ht Hp. unfold visibleAt.
    rewrite (selectChatLayer_found e id i l Hi Hl), Ht, Hp. cbn [isNil andb].
    now apply visibleAt_alter_parsed with (l := l).
Qed.

End ParseClaims.

(** ** The layer store: frames and the invariant *)

Section LayerStoreFacts.
Import JsString.

Lemma findIndex_exists {A} (p : A -> bool) (l : list A) (i : nat) (x : A) :
  l !! i = Some x -> p x = true -> exists j, findIndex p l = Some j.
Proof.
  intros Hx Hp. destruct (findIndex p l) as [j|] eqn:Hj; [eauto|].
  apply findIndex_None in Hj. rewrite Forall_lookup in Hj.
  specialize (Hj i x Hx). congruence.
Qed.

Lemma length_set_parsedChatLines v e :
  length (Editor.chatLayers (set_parsedChatLines v e)) = length (Editor.chatLayers e).
Proof.
  unfold set_parsedChatLines. destruct (activeChatLayer e); [|reflexivity].
  cbn. apply length_alter.
Qed.

Lemma length_set_chatlogText v e :
  length (Editor.chatLayers (set_chatlogText v e)) = length (Editor.chatLayers e).
Proof.
  unfold set_chatlogText. destruct (activeChatLayer e); [|reflexivity].
  cbn. apply length_alter.
Qed.

Lemma length_createChatLayer options e :
  length (Editor.chatLayers (snd (createChatLayer options e)))
  = S (length (Editor.chatLayers e)).
Proof.
  unfold createChatLayer. destruct (ChatLayer.o_id options); cbn;
    rewrite length_app; cbn; lia.
Qed.

Lemma censoredRegions_set_parsedChatLines v e :
  Editor.censoredRegions (set_parsedChatLines v e) = Editor.censoredRegions e.
Proof. unfold set_parsedChatLines. now destruct (activeChatLayer e). Qed.

Lemma censoredRegions_set_chatlogText v e :
  Editor.censoredRegions (set_chatlogText v e) = Editor.censoredRegions e.
Proof. unfold set_chatlogText. now destruct (activeChatLayer e). Qed.

Lemma censoredRegions_ensureActiveLayer e :
  Editor.censoredRegions (snd (ensureActiveLayer e)) = Editor.censoredRegions e.
Proof.
  unfold ensureActiveLayer. destruct (activeChatLayer e); [reflexivity|].
  unfold createChatLayer. now destruct (ChatLayer.o_id _).
Qed.

Lemma censoredRegions_parseChatlog layer e :
  Editor.censoredRegions (parseChatlog layer e) = Editor.censoredRegions e.
Proof.
  unfold parseChatlog.
  destruct (match layer with Some i => Some i | None => activeChatLayer e end).
  - cbv zeta. destruct (negb _); unfold bumpRenderKey; cbn;
      now rewrite censoredRegions_set_parsedChatLines.
  - pose proof (censoredRegions_ensureActiveLayer e) as H.
    destruct (ensureActiveLayer e) as [t e']. cbn in H. cbv zeta.
    destruct (negb _); unfold bumpRenderKey; cbn;
      now rewrite censoredRegions_set_parsedChatLines.
Qed.

Lemma censoredRegions_selectChatLayer id e :
  Editor.censoredRegions (selectChatLayer id e) = Editor.censoredRegions e.
Proof.
  unfold selectChatLayer. destruct (findIndex _ _) as [i|].
  - cbv zeta.
    set (e1 := Editor.set_selectedChatLayerId (Some id) e).
    set (e2 := if match Editor.chatLayers e1 !! i with
                  | Some layer => truthy (ChatLayer.text layer)
                                  && isNil (ChatLayer.parsedLines layer)
                  | None => false
                  end
               then parseChatlog (Some i) e1 else e1).
    assert (H2 : Editor.censoredRegions e2 = Editor.censoredRegions e).
    { subst e2. destruct (match _ !! _ with Some _ => _ | None => _ end);
        [rewrite censoredRegions_parseChatlog|]; reflexivity. }
    destruct (Editor.chatLayers e2 !! i); [|exact H2]. cbn.
    now rewrite censoredRegions_set_parsedChatLines, censoredRegions_set_chatlogText.
  - pose proof (censoredRegions_ensureActiveLayer e) as H.
    destruct (ensureActiveLayer e) as [fi e']. cbn in H.
    destruct (Editor.chatLayers e' !! fi); [|exact H]. cbn.
    now rewrite censoredRegions_set_chatlogText, censoredRegions_set_parsedChatLines.
Qed.

Lemma selectChatLayer_length id e :
  Editor.chatLayers e <> [] ->
  length (Editor.chatLayers (selectChatLayer id e)) = length (Editor.chatLayers e).
Proof.
  intros Hne. destruct (findIndex (hasId id) (Editor.chatLayers e)) as [i|] eqn:Hi.
  - destruct (findIndex_Some _ _ _ Hi) as (l & Hl & _).
    rewrite (selectChatLayer_found e id i l Hi Hl).
    destruct (_ && _); [apply length_alter|reflexivity].
  - unfold selectChatLayer. rewrite Hi. unfold ensureActiveLayer.
    destruct (activeChatLayer e) as [a|] eqn:Ha.
    + destruct (activeChatLayer_lookup e a Ha) as [fb Hfb]. rewrite Hfb. cbn.
      now rewrite length_set_chatlogText, length_set_parsedChatLines.
    + apply activeChatLayer_None in Ha. congruence.
Qed.

Lemma moveChatLayer_length id d e :
  length (Editor.chatLayers (moveChatLayer id d e)) = length (Editor.chatLayers e).
Proof.
  unfold moveChatLayer. destruct (findIndex _ _); [|reflexivity].
  destruct (_ || _); [reflexivity|]. cbv zeta.
  destruct (_ !! _); [|reflexivity]. destruct (_ !! _); [|reflexivity].
  cbn. now rewrite !length_insert.
Qed.

Lemma resetSession_length e : length (Editor.chatLayers (resetSession e)) = 1%nat.
Proof. reflexivity. Qed.

(** The state in which [removeChatLayer] selects the fallback: the layer is
    gone and so are its regions. *)
Lemma removeChatLayer_removes e id index :
  (1 < length (Editor.chatLayers e))%nat ->
  findIndex (hasId id) (Editor.chatLayers e) = Some index ->
  let rest := delete index (Editor.chatLayers e) in
  let e1 := Editor.set_censoredRegions
              (List.filter (notOfLayer id) (Editor.censoredRegions e))
              (Editor.set_chatLayers rest e) in
  exists fb, fallbackLayer index rest = Some fb
             /\ removeChatLayer id e = selectChatLayer (ChatLayer.id fb) e1.
Proof.
  intros Hlen Hi rest e1.
  assert (Hrest : (0 < length rest)%nat).
  { subst rest. rewrite length_delete; [lia|].
    destruct (findIndex_Some _ _ _ Hi) as (x & Hx & _). eauto. }
  assert (Hfb : exists fb, fallbackLayer index rest = Some fb).
  { unfold fallbackLayer.
    destruct (match index with O => None | S k => rest !! k end); [eauto|].
    destruct rest; [cbn in Hrest; lia|]. cbn. eauto. }
  destruct Hfb as [fb Hfb]. exists fb. split; [exact Hfb|].
  unfold removeChatLayer. rewrite Hi.
  destruct (Nat.leb_spec (length (Editor.chatLayers e)) 1); [lia|].
  cbv zeta. cbn [Editor.chatLayers Editor.set_chatLayers Editor.set_censoredRegions
                 Editor.censoredRegions].
  fold rest. unfold fallbackLayer in Hfb. rewrite Hfb. reflexivity.
Qed.

Lemma removeChatLayer_length id e :
  Editor.chatLayers e <> [] -> Editor.chatLayers (removeChatLayer id e) <> [].
Proof.
  intros Hne.
  destruct (Nat.leb_spec (length (Editor.chatLayers e)) 1) as [Hle|Hgt].
  - unfold removeChatLayer. apply Nat.leb_le in Hle. now rewrite Hle.
  - destruct (findIndex (hasId id) (Editor.chatLayers e)) as [index|] eqn:Hi.
    + destruct (removeChatLayer_removes e id index Hgt Hi) as (fb & Hfb & ->).
      assert (Hrest : (0 < length (delete index (Editor.chatLayers e)))%nat).
      { rewrite length_delete; [lia|].
        destruct (findIndex_Some _ _ _ Hi) as (x & Hx & _). eauto. }
      intros Hnil. apply (f_equal length) in Hnil.
      rewrite selectChatLayer_length in Hnil.
      * cbn in Hnil. lia.
      * cbn. intros H0. rewrite H0 in Hrest. cbn in Hrest. lia.
    + unfold removeChatLayer. rewrite Hi. now destruct (_ <=? _)%nat.
Qed.

Lemma nonempty_of_length {A} (l : list A) : (0 < length l)%nat -> l <> [].
Proof. destruct l; cbn; [lia|discriminate]. Qed.

Lemma applyOp_nonempty e op :
  Editor.chatLayers e <> [] -> Editor.chatLayers (applyOp e op) <> [].
Proof.
  intros Hne. destruct op as [options| |id|id|id d|]; cbn [applyOp].
  - apply nonempty_of_length. rewrite length_createChatLayer. lia.
  - unfold addChatLayer.
    pose proof (length_createChatLayer ChatLayer.noOptions e) as Hc.
    destruct (createChatLayer ChatLayer.noOptions e) as [i e']. cbn in Hc.
    assert (Hne' : Editor.chatLayers e' <> []) by (apply nonempty_of_length; lia).
    destruct (layerIdAt i e'); [|exact Hne'].
    apply nonempty_of_length. rewrite selectChatLayer_length by exact Hne'. lia.
  - apply nonempty_of_length. rewrite selectChatLayer_length by exact Hne.
    destruct (Editor.chatLayers e); [congruence|cbn; lia].
  - now apply removeChatLayer_length.
  - apply nonempty_of_length. rewrite moveChatLayer_length.
    destruct (Editor.chatLayers e); [congruence|cbn; lia].
  - discriminate.
Qed.

(** C7.  [removeChatLayer] changes nothing when at most one layer remains;
    every operation of the store (create, add, select, remove, move, reset)
    maps a store with a layer to a store with a layer; and so every state
    reached from the bootstrap by these operations holds a layer. *)
Theorem layer_store_never_empty :
  (forall e id, (length (Editor.chatLayers e) <= 1)%nat -> removeChatLayer id e = e)
  /\ (forall e op, Editor.chatLayers e <> [] -> Editor.chatLayers (applyOp e op) <> [])
  /\ (forall ops, Editor.chatLayers (fold_left applyOp ops bootstrap) <> []).
Proof.
  split; [|split].
  - intros e id Hle. unfold removeChatLayer. apply Nat.leb_le in Hle. now rewrite Hle.
  - intros e op. apply applyOp_nonempty.
  - intros ops.
    assert (H : forall e, Editor.chatLayers e <> [] ->
                          Editor.chatLayers (fold_left applyOp ops e) <> []).
    { induction ops as [|op ops IH]; intros e He; cbn; [exact He|].
      apply IH. now apply applyOp_nonempty. }
    apply H. discriminate.
Qed.

(** C8, as the code has it.  When [removeChatLayer(id)] removes a layer (more
    than one layer, and one of them has the id), the regions left are exactly
    those whose [layerId] differs from [id], in their order; the layers left
    are the other layers in their order and with their fields, except that
    the layer then selected (the first layer with the id of the layer before
    the removed one, or of the first layer), when it has text and no parsed
    lines, is parsed: its lines are replaced and it is made visible. *)
Theorem removeChatLayer_frame (e : Editor.t) (id : Z) (index : nat) :
  (1 < length (Editor.chatLayers e))%nat ->
  findIndex (hasId id) (Editor.chatLayers e) = Some index ->
  let rest := delete index (Editor.chatLayers e) in
  let e' := removeChatLayer id e in
  Editor.censoredRegions e' = List.filter (notOfLayer id) (Editor.censoredRegions e)
  /\ exists fb fi lf,
       fallbackLayer index rest = Some fb
       /\ findIndex (hasId (ChatLayer.id fb)) rest = Some fi
       /\ rest !! fi = Some lf
       /\ Editor.chatLayers e'
          = if unparsed lf
            then alter (parsedLayer (parseText (Editor.stripTimestamps e)
                                               (Editor.characterName e)
                                               (ChatLayer.text lf))) fi rest
            else rest.
Proof.
  intros Hlen Hi rest e'. subst e'.
  destruct (removeChatLayer_removes e id index Hlen Hi) as (fb & Hfb & ->).
  fold rest in Hfb |- *. split.
  - now rewrite censoredRegions_selectChatLayer.
  - assert (Hin : exists k, rest !! k = Some fb).
    { unfold fallbackLayer in Hfb.
      destruct index as [|k]; [eauto|].
      destruct (rest !! k) eqn:Hk; [exists k; congruence|eauto]. }
    destruct Hin as [k Hk].
    destruct (findIndex_exists (hasId (ChatLayer.id fb)) rest k fb Hk) as [fi Hfi].
    { unfold hasId. apply Z.eqb_refl. }
    destruct (findIndex_Some _ _ _ Hfi) as (lf & Hlf & _).
    exists fb, fi, lf. repeat split; auto.
    match goal with
    | |- context [selectChatLayer _ ?x] =>
        rewrite (selectChatLayer_found x (ChatLayer.id fb) fi lf Hfi Hlf)
    end.
    reflexivity.
Qed.

End LayerStoreFacts.

(** ** C4: the full-line tier *)

Section FullLine.
Import JsString.

Lemma fullLine_rule_is_radio m :
  In m colorMappings ->
  ColorMapping.fullLine m = true ->
  ColorMapping.checkPlayerName m = false ->
  m = radioRule.
Proof.
  intros Hin Hf Hc. unfold colorMappings in Hin. cbn [In] in Hin.
  repeat (destruct Hin as [<-|Hin]; [first [reflexivity | discriminate Hf | discriminate Hc]|]).
  destruct Hin.
Qed.

Lemma classifyOther_radio s :
  matches radioRule s = true ->
  classifyOther s = (s, Some (ColorMapping.color radioRule)).
Proof.
  intros Hm. unfold classifyOther, colorMappings. cbn [List.find].
  fold radioRule. cbn [ColorMapping.fullLine ColorMapping.checkPlayerName radioRule negb andb].
  fold radioRule. now rewrite Hm.
Qed.

(** C4, as the code has it.  For a line that a rule flagged full line and not
    player-aware matches (after the optional removal of the timestamp), when
    the player-aware tier does not take the line (no character name is set,
    or no player-aware rule matches it), the stored text is the line without
    marker styling and the stored colour is that rule's colour: no marker rule
    and no later rule of the table overrides it. *)
Theorem fullLine_rule_wins (stripTimestamps : bool) (characterName line : string)
    (m : ColorMapping.t) (index : nat) :
  let processedText :=
    if stripTimestamps then RegExp.replace timestampPattern "" line else line in
  In m colorMappings ->
  ColorMapping.fullLine m = true ->
  ColorMapping.checkPlayerName m = false ->
  matches m processedText = true ->
  truthy characterName = false
  \/ List.find (fun m' => ColorMapping.checkPlayerName m' && matches m' processedText)
               colorMappings = None ->
  parseLine stripTimestamps characterName index line
  = ParsedLine.mk (Z.of_nat index) processedText (ColorMapping.color m).
Proof.
  intros processedText Hin Hf Hc Hm Htier.
  rewrite (fullLine_rule_is_radio m Hin Hf Hc) in *.
  unfold parseLine, classifyLine. fold processedText.
  assert (Hcls : match List.find (fun m' => ColorMapping.checkPlayerName m'
                                            && matches m' processedText) colorMappings with
                 | Some cp =>
                     if truthy characterName then
                       if startsWith characterName processedText
                       then (processedText, Some "rgb(255, 255, 255)")
                       else (processedText, Some (ColorMapping.color cp))
                     else classifyOther processedText
                 | None => classifyOther processedText
                 end = classifyOther processedText).
  { destruct Htier as [Hn|Hn]; rewrite Hn; [|reflexivity].
    now destruct (List.find _ _). }
  rewrite Hcls, (classifyOther_radio processedText Hm). reflexivity.
Qed.

End FullLine.

(** ** C5 and C6: the export *)

Section ExportFacts.
Import JsString.

(** C5, at two overlapping regions stored in the order (3,8), (0,5) on the
    line [abcdefghij].  The overlay sorts them and emits a span for each, so
    the characters [de] of the overlap are emitted twice, once under each
    region.  The export takes the first region in store order, (3,8): it
    paints [abc] as plain outlined text although region (0,5) covers it,
    bars [defgh], and paints [ij]; region (0,5) is never applied. *)
Theorem censor_overlap_divergence :
  applyCensoring overlapRegions "abcdefghij" 0 1
  = censorSpan "censored-invisible" "abcde"
    +:+ censorSpan "censored-blackbar" "defgh" +:+ "ij"
  /\ drawTextSegment sevenPx false overlapRegions 20 "abcdefghij" 4 0 "white" 0 0 1
     = Some (drawTextWithOutline sevenPx false "abc" 4 0 "white" None
             ++ [FillRect 23 0 39 16]
             ++ drawTextWithOutline sevenPx false "ij" 60 0 "white" None).
Proof. split; vm_compute; reflexivity. Qed.

Variable measureText : string -> Q.
Variable chatLineWidth : Q.

Lemma join_merge sep a b r :
  join sep ((a +:+ sep +:+ b) :: r) = join sep (a :: b :: r).
Proof.
  destruct r as [|c r]; cbn [join]; [reflexivity|]. now rewrite !append_assoc.
Qed.

Lemma join_cons sep a l : l <> [] -> join sep (a :: l) = a +:+ sep +:+ join sep l.
Proof. destruct l; [congruence|reflexivity]. Qed.

Lemma wrapWords_join words : forall currentLineText lineStartPosition,
  Forall (fun w => truthy w = true) words ->
  truthy currentLineText = true ->
  wrapWords measureText chatLineWidth words currentLineText lineStartPosition <> []
  /\ join " " (List.map fst (wrapWords measureText chatLineWidth words
                                        currentLineText lineStartPosition))
     = join " " (currentLineText :: words).
Proof.
  induction words as [|word rest IH]; intros cur st Hw Hc; cbn [wrapWords].
  - rewrite Hc. split; [discriminate|reflexivity].
  - inversion Hw as [|? ? Hword Hrest]; subst. rewrite Hc.
    destruct (exceeds _ _ _ && true).
    + destruct (IH word (st + len cur + 1) Hrest Hword) as [Hne Hj].
      split; [discriminate|]. cbn [List.map fst].
      rewrite join_cons, Hj;
        [|destruct (wrapWords _ _ _ _ _); [congruence|discriminate]].
      now rewrite (join_cons " " cur (word :: rest)) by discriminate.
    + destruct (IH (cur +:+ " " +:+ word) st Hrest) as [Hne Hj].
      { now destruct cur. }
      split; [exact Hne|]. now rewrite Hj, join_merge.
Qed.

(** X11: The reconstruction holds for a line whose words are all non-empty, that
    is, without a leading, trailing or doubled space. *)
Lemma wrapLine_reconstructs rawText :
  Forall (fun w => truthy w = true) (split " " rawText) ->
  join " " (List.map fst (wrapLine measureText chatLineWidth rawText)) = rawText.
Proof.
  intros Hw. unfold wrapLine. destruct (Qle_bool _ _); [reflexivity|].
  pose proof (split_not_nil " " rawText) as Hnil.
  pose proof (join_split " " rawText) as Hjoin.
  destruct (split " " rawText) as [|w ws]; [congruence|].
  apply Forall_cons in Hw. destruct Hw as [Hw1 Hws].
  cbn [wrapWords truthy isEmpty negb andb].
  rewrite Bool.andb_false_r.
  destruct (wrapWords_join ws w 0 Hws Hw1) as [_ ->]. exact Hjoin.
Qed.

End ExportFacts.

(** C6, at the line [ aaaa bbbb] (one leading space), 7 pixels a character
    and a budget of 35 pixels: the line is too wide, the runs are [aaaa] at
    offset 0 and [bbbb] at offset 5, and joining them with single spaces gives
    [aaaa bbbb]: the leading space is lost, and [bbbb], which starts at
    offset 6 of the line, is given offset 5. *)
Theorem wrapLine_drops_leading_space :
  Qle_bool (sevenPx " aaaa bbbb") 35 = false
  /\ wrapLine sevenPx 35 " aaaa bbbb" = [("aaaa", 0); ("bbbb", 5)]
  /\ JsString.join " " (List.map fst (wrapLine sevenPx 35 " aaaa bbbb")) = "aaaa bbbb"
  /\ JsString.join " " (List.map fst (wrapLine sevenPx 35 " aaaa bbbb")) <> " aaaa bbbb".
Proof. repeat split; try (vm_compute; reflexivity). vm_compute. discriminate. Qed.

(** ** C9: the name of the exported file *)

Section FilenameFacts.
Import JsString.

Lemma replaceAllGo_cons re repl prev x s :
  RegExp.replaceAllGo re repl 0 prev (String x s)
  = match RegExp.matchAt re prev (String x s) with
    | Some (S k) => repl +:+ RegExp.replaceAllGo re repl k (Some x) s
    | Some O => repl +:+ String x (RegExp.replaceAllGo re repl 0 (Some x) s)
    | None => String x (RegExp.replaceAllGo re repl 0 (Some x) s)
    end.
Proof. reflexivity. Qed.

Lemma replaceAllGo_nil re repl prev :
  RegExp.replaceAllGo re repl 0 prev ""
  = match RegExp.matchAt re prev "" with
    | Some _ => repl
    | None => ""
    end.
Proof.
  cbn [RegExp.replaceAllGo]. destruct (RegExp.matchAt re prev "") as [[|k]|];
    rewrite ?append_empty_r; reflexivity.
Qed.

Lemma matchAt_unsafeChars prev s :
  RegExp.matchAt unsafeChars prev s
  = match s with
    | String x _ => if isThemeChar x then None else Some 1%nat
    | EmptyString => None
    end.
Proof.
  destruct s as [|x s]; [reflexivity|].
  unfold RegExp.matchAt, unsafeChars. cbn. now destruct (isThemeChar x).
Qed.

Lemma replace_unsafeChars s :
  RegExp.replace unsafeChars "" s = filterChars isThemeChar s.
Proof.
  unfold RegExp.replace. cbn [RegExp.global unsafeChars].
  generalize (@None ascii) as prev.
  induction s as [|x s IH]; intros prev.
  - now rewrite replaceAllGo_nil, matchAt_unsafeChars.
  - rewrite replaceAllGo_cons, matchAt_unsafeChars. cbn [filterChars].
    destruct (isThemeChar x); now rewrite ?append_nil_l, IH.
Qed.

Lemma star_white prev s :
  RegExp.matchSeq false [RegExp.Star true isWhiteSpace] prev s = Some (countWhite s).
Proof.
  revert prev. induction s as [|x s IH]; intros prev; [reflexivity|].
  cbn [countWhite]. specialize (IH (Some x)).
  cbn in IH |- *. destruct (isWhiteSpace x); [|reflexivity]. now rewrite IH.
Qed.

Lemma matchAt_whitespaceRun prev s :
  RegExp.matchAt whitespaceRun prev s
  = match s with
    | String x r => if isWhiteSpace x then Some (S (countWhite r)) else None
    | EmptyString => None
    end.
Proof.
  destruct s as [|x r]; [reflexivity|].
  unfold RegExp.matchAt, whitespaceRun, RegExp.plus.
  cbn [RegExp.alts RegExp.ignoreCase RegExp.matchAlts].
  change (RegExp.matchSeq false [RegExp.Cls isWhiteSpace; RegExp.Star true isWhiteSpace]
                          prev (String x r))
    with (if isWhiteSpace x
          then S <$> RegExp.matchSeq false [RegExp.Star true isWhiteSpace] (Some x) r
          else None).
  destruct (isWhiteSpace x); [|reflexivity]. now rewrite star_white.
Qed.

Lemma hyphenate_cons c r :
  hyphenate (String c r)
  = if isWhiteSpace c then
      match r with
      | String d _ => if isWhiteSpace d then hyphenate r else String "-" (hyphenate r)
      | EmptyString => "-"
      end
    else String c (hyphenate r).
Proof. reflexivity. Qed.

Lemma hyphenate_white x r :
  isWhiteSpace x = true -> hyphenate (String x r) = String "-" (hyphenate (trimStart r)).
Proof.
  revert x. induction r as [|d r IH]; intros x Hx; rewrite hyphenate_cons, Hx.
  - reflexivity.
  - cbn [trimStart]. destruct (isWhiteSpace d) eqn:Hd; [|reflexivity].
    now apply IH.
Qed.

Lemma replace_whitespaceRun_go s : forall prev,
  RegExp.replaceAllGo whitespaceRun "-" 0 prev s = hyphenate s
  /\ RegExp.replaceAllGo whitespaceRun "-" (countWhite s) prev s
     = hyphenate (trimStart s).
Proof.
  induction s as [|x s IH]; intros prev.
  - cbn [countWhite trimStart hyphenate].
    now rewrite replaceAllGo_nil, matchAt_whitespaceRun.
  - destruct (IH (Some x)) as [IH0 IHk].
    assert (H0 : RegExp.replaceAllGo whitespaceRun "-" 0 prev (String x s)
                 = hyphenate (String x s)).
    { rewrite replaceAllGo_cons, matchAt_whitespaceRun.
      destruct (isWhiteSpace x) eqn:Hx.
      - rewrite IHk, (hyphenate_white x s Hx). reflexivity.
      - now rewrite hyphenate_cons, Hx, IH0. }
    split; [exact H0|].
    cbn [countWhite trimStart]. destruct (isWhiteSpace x) eqn:Hx.
    + cbn [RegExp.replaceAllGo]. exact IHk.
    + exact H0.
Qed.

Lemma replace_whitespaceRun s :
  RegExp.replace whitespaceRun "-" s = hyphenate s.
Proof.
  unfold RegExp.replace. cbn [RegExp.global whitespaceRun].
  apply replace_whitespaceRun_go.
Qed.

(** C9, as the code has it.  The name is the day, the month and the year,
    the hours and the minutes, and the theme, as
    [DDMMYYYY - HHMM - theme.png] with two digits for the day, month, hours
    and minutes.  The theme is the configured one, trimmed, without the
    characters that are neither letters, digits, white space, [_] nor [-],
    trimmed again, with one hyphen for each run of white space left, or
    [screenshot] when nothing is left.  The theme [My Screenshot!] on
    2024-03-05 at 14:07 gives [05032024 - 1407 - My-Screenshot.png]. *)
Theorem buildScreenshotFilename_shape (now : Date.t) (screenshotTheme : string) :
  buildScreenshotFilename now screenshotTheme
  = pad (Date.date now) +:+ pad (Date.month now + 1) +:+ toString (Date.fullYear now)
    +:+ " - " +:+ pad (Date.hours now) +:+ pad (Date.minutes now)
    +:+ " - "
    +:+ orElse (hyphenate (trim (filterChars isThemeChar (trim screenshotTheme))))
               "screenshot"
    +:+ ".png"
  /\ buildScreenshotFilename march5 "My Screenshot!"
     = "05032024 - 1407 - My-Screenshot.png".
Proof.
  split; [|vm_compute; reflexivity].
  unfold buildScreenshotFilename, safeTheme.
  rewrite replace_unsafeChars, replace_whitespaceRun.
  now rewrite !append_assoc.
Qed.

(** The claim as worded fails on a theme that starts, once its other
    characters are removed, with white space: the code trims it, the wording
    turns it into a hyphen. *)
Lemma spec_filename_differs :
  buildScreenshotFilename march5 "! night" = "05032024 - 1407 - night.png"
  /\ spec_filename march5 "! night" = "05032024 - 1407 - -night.png"
  /\ buildScreenshotFilename march5 "! night" <> spec_filename march5 "! night".
Proof. repeat split; try (vm_compute; reflexivity). vm_compute. discriminate. Qed.

End FilenameFacts.

(** ** The claims at concrete inputs *)

Section Instances.
Import JsString.

(** No pattern of the table carries the [g] flag: [test] and [split] on
    them keep no state between calls. *)
Lemma colorMappings_stateless :
  Forall (fun m => RegExp.global (ColorMapping.pattern m) = false
                   /\ forall sp, ColorMapping.splitPattern m = Some sp ->
                                 RegExp.global sp = false)
         colorMappings.
Proof.
  unfold colorMappings.
  repeat (constructor; [split; [reflexivity|];
                        cbn; intros sp Hsp; try discriminate Hsp;
                        injection Hsp as <-; reflexivity|]).
  constructor.
Qed.

Example timestamp_is_stripped :
  parseLine true "" 0 "[12:34:56] Hello" = parseLine false "" 0 "Hello".
Proof. vm_compute. reflexivity. Qed.

Example own_call_is_white :
  parseLine false "John" 3 "John (cellphone): on my way"
  = ParsedLine.mk 3 "John (cellphone): on my way" "rgb(255, 255, 255)".
Proof. vm_compute. reflexivity. Qed.

Example marker_is_styled :
  parseLine false "" 0 "[!] Door locked"
  = ParsedLine.mk 0
      (span "rgb(255, 255, 255)" "" +:+ span "rgb(255, 0, 195)" "[!]"
       +:+ span "rgb(255, 255, 255)" " Door locked")
      "white".
Proof. vm_compute. reflexivity. Qed.

Lemma cycleCensorType_lifecycle_witness :
  cycleCensorType twoLayersDeselected = twoLayersDeselected
  /\ selectable twoLayers
  /\ findIndex (sameKey (Editor.selectedText twoLayers))
               (Editor.censoredRegions twoLayers) = None
  /\ Editor.censoredRegions (cycleCensorType twoLayers)
     = Editor.censoredRegions twoLayers
       ++ [regionFor (Editor.selectedText twoLayers) CensorType.Invisible]
  /\ Editor.censoredRegions (Nat.iter 4 cycleCensorType twoLayers)
     = Editor.censoredRegions twoLayers.
Proof.
  assert (Hsel : selectable twoLayers) by (split; discriminate).
  assert (Hfresh : findIndex (sameKey (Editor.selectedText twoLayers))
                             (Editor.censoredRegions twoLayers) = None) by reflexivity.
  split.
  - apply (proj1 (cycleCensorType_lifecycle twoLayersDeselected)). left. reflexivity.
  - split; [exact Hsel|]. split; [exact Hfresh|].
    destruct (proj1 (proj2 (cycleCensorType_lifecycle twoLayers)) Hsel Hfresh)
      as (H1 & _ & _ & H4 & _).
    split; [exact H1|exact H4].
Defined.

Lemma parseChatlog_lines_witness :
  Editor.chatLayers twoLayers !! 0%nat = Some hiddenLayer
  /\ parsedLinesAt 0 (parseChatlog (Some 0%nat) twoLayers)
     = [ ParsedLine.mk 0 "John says: Hi" "rgb(241, 241, 241)";
         ParsedLine.mk 1 "*waves*" "rgb(194, 163, 218)" ].
Proof.
  split; [reflexivity|].
  destruct (parseChatlog_lines twoLayers 0 hiddenLayer eq_refl) as (_ & _ & H & _).
  rewrite H. vm_compute. reflexivity.
Defined.

Lemma parseChatlog_deterministic_witness :
  Editor.chatLayers twoLayers !! 0%nat = Some hiddenLayer
  /\ Editor.chatLayers otherEditor !! 1%nat
     = Some (ChatLayer.mk 7 "Copy" chat2 [] Transform.identity true)
  /\ parsedLinesAt 0 (parseChatlog (Some 0%nat) twoLayers)
     = parsedLinesAt 1 (parseChatlog (Some 1%nat) otherEditor).
Proof.
  split; [reflexivity|]. split; [reflexivity|].
  apply (proj1 (parseChatlog_deterministic twoLayers otherEditor 0 1 _ _
                  eq_refl eq_refl eq_refl eq_refl eq_refl)).
Defined.

Lemma fullLine_rule_wins_witness :
  In radioRule colorMappings
  /\ matches radioRule radioOnCall = true
  /\ parseLine false "" 0 radioOnCall
     = ParsedLine.mk 0 radioOnCall "rgb(214, 207, 140)".
Proof.
  assert (Hm : matches radioRule radioOnCall = true) by (vm_compute; reflexivity).
  split; [left; reflexivity|]. split; [exact Hm|].
  exact (fullLine_rule_wins false "" radioOnCall radioRule 0
           (or_introl eq_refl) eq_refl eq_refl Hm (or_introl eq_refl)).
Defined.

(** C4 as worded fails: the radio rule is flagged full line and matches this
    line, yet with the character name [Bob] the line takes the colour of the
    cellphone rule, which stands after it in the table. *)
Lemma fullLine_rule_overridden :
  In radioRule colorMappings
  /\ ColorMapping.fullLine radioRule = true
  /\ matches radioRule radioOnCall = true
  /\ parseLine false "Bob" 0 radioOnCall
     = ParsedLine.mk 0 radioOnCall "rgb(251, 247, 36)"
  /\ ParsedLine.color (parseLine false "Bob" 0 radioOnCall)
     <> ColorMapping.color radioRule.
Proof.
  split; [left; reflexivity|]. split; [reflexivity|].
  split; [vm_compute; reflexivity|]. split; [vm_compute; reflexivity|].
  vm_compute. discriminate.
Qed.

Lemma layer_store_never_empty_witness :
  (length (Editor.chatLayers bootstrap) <= 1)%nat
  /\ removeChatLayer 1 bootstrap = bootstrap
  /\ Editor.chatLayers twoLayers <> []
  /\ Editor.chatLayers (applyOp twoLayers (Remove 2)) <> [].
Proof.
  assert (H1 : (length (Editor.chatLayers bootstrap) <= 1)%nat) by apply le_n.
  assert (H2 : Editor.chatLayers twoLayers <> []) by discriminate.
  split; [exact H1|].
  split; [exact (proj1 layer_store_never_empty bootstrap 1 H1)|].
  split; [exact H2|].
  exact (proj1 (proj2 layer_store_never_empty) twoLayers (Remove 2) H2).
Defined.

Lemma removeChatLayer_frame_witness :
  (1 < length (Editor.chatLayers twoLayers))%nat
  /\ findIndex (hasId 2) (Editor.chatLayers twoLayers) = Some 1%nat
  /\ Editor.censoredRegions (removeChatLayer 2 twoLayers)
     = [CensoredRegion.mk 0 0 4 CensorType.Blur 1].
Proof.
  assert (H1 : (1 < length (Editor.chatLayers twoLayers))%nat) by apply le_n.
  split; [exact H1|]. split; [reflexivity|].
  exact (proj1 (removeChatLayer_frame twoLayers 2 1 H1 eq_refl)).
Defined.

(** C8 as worded fails: removing layer 2 selects layer 1, which has text and
    no parsed lines, so layer 1 is parsed and shown: its fields change. *)
Lemma removeChatLayer_touches_fallback :
  (1 < length (Editor.chatLayers twoLayers))%nat
  /\ findIndex (hasId 2) (Editor.chatLayers twoLayers) = Some 1%nat
  /\ Editor.chatLayers twoLayers = [hiddenLayer; emptyLayer]
  /\ Editor.chatLayers (removeChatLayer 2 twoLayers)
     = [ ChatLayer.mk 1 "Layer 1" chat2
           [ ParsedLine.mk 0 "John says: Hi" "rgb(241, 241, 241)";
             ParsedLine.mk 1 "*waves*" "rgb(194, 163, 218)" ]
           Transform.identity true ]
  /\ Editor.chatLayers (removeChatLayer 2 twoLayers) <> [hiddenLayer].
Proof.
  split; [apply le_n|]. split; [reflexivity|]. split; [reflexivity|].
  split; [vm_compute; reflexivity|]. vm_compute. discriminate.
Qed.

Lemma parseChatlog_shows_layer_witness :
  visibleAt 0 twoLayers = Some false
  /\ visibleAt 0 (parseChatlog (Some 0%nat) twoLayers) = Some true
  /\ findIndex (hasId 1) (Editor.chatLayers twoLayers) = Some 0%nat
  /\ visibleAt 0 (selectChatLayer 1 twoLayers) = Some true.
Proof.
  split; [reflexivity|]. split.
  - apply (proj1 (parseChatlog_shows_layer twoLayers) (Some 0%nat)).
    intros i Hi. injection Hi as <-. exists hiddenLayer. reflexivity.
  - split; [reflexivity|].
    exact (proj2 (parseChatlog_shows_layer twoLayers) 1 0%nat hiddenLayer
             eq_refl eq_refl eq_refl eq_refl).
Defined.

End Instances.

(** * Further properties *)

(** ** The classifier *)

Section ClassifierFacts.
Import JsString.

Lemma matchSeq_Chr ic c r prev x s :
  RegExp.matchSeq ic (RegExp.Chr c :: r) prev (String x s)
  = if RegExp.chrEq ic c x then S <$> RegExp.matchSeq ic r (Some x) s else None.
Proof. reflexivity. Qed.

Lemma matchSeq_Cls ic p r prev x s :
  RegExp.matchSeq ic (RegExp.Cls p :: r) prev (String x s)
  = if p x then S <$> RegExp.matchSeq ic r (Some x) s else None.
Proof. reflexivity. Qed.

Lemma matchSeq_Bol ic r s :
  RegExp.matchSeq ic (RegExp.Bol :: r) None s = RegExp.matchSeq ic r None s.
Proof. reflexivity. Qed.

Lemma countWhite_app ws rest :
  blank ws = true -> startsWhite rest = false ->
  countWhite (ws +:+ rest) = String.length ws.
Proof.
  intros Hws Hrest. induction ws as [|c ws IH].
  - rewrite append_nil_l. destruct rest as [|x r]; [reflexivity|].
    cbn in Hrest |- *. now rewrite Hrest.
  - unfold blank in Hws. cbn [allChars] in Hws.
    apply andb_prop in Hws as [Hc Hws]. rewrite append_cons.
    cbn [countWhite String.length]. rewrite Hc. f_equal. now apply IH.
Qed.

Lemma drop_app_length a b : drop (String.length a) (a +:+ b) = b.
Proof. induction a as [|c a IH]; [reflexivity|]. rewrite append_cons. exact IH. Qed.

Lemma timestamp_match h1 h2 m1 m2 s1 s2 tail :
  allChars isDigit (String h1 (String h2 (String m1 (String m2
                     (String s1 (String s2 EmptyString)))))) = true ->
  RegExp.matchAt timestampPattern None (timestamp h1 h2 m1 m2 s1 s2 +:+ tail)
  = Some (10 + countWhite tail)%nat.
Proof.
  intros Hd. cbn [allChars] in Hd.
  repeat (apply andb_prop in Hd as [? Hd]).
  unfold RegExp.matchAt, timestampPattern, re, timestamp.
  cbn [RegExp.alts RegExp.ignoreCase RegExp.matchAlts RegExp.lit app].
  rewrite !append_cons, append_nil_l, matchSeq_Bol.
  repeat first [ rewrite matchSeq_Chr; cbn [RegExp.chrEq Ascii.eqb Bool.eqb]
               | rewrite matchSeq_Cls ].
  repeat match goal with H : isDigit _ = true |- _ => rewrite H; clear H end.
  rewrite star_white. reflexivity.
Qed.

Lemma replace_timestamp h1 h2 m1 m2 s1 s2 ws rest :
  allChars isDigit (String h1 (String h2 (String m1 (String m2
                     (String s1 (String s2 EmptyString)))))) = true ->
  blank ws = true -> startsWhite rest = false ->
  RegExp.replace timestampPattern ""
                 (timestamp h1 h2 m1 m2 s1 s2 +:+ ws +:+ rest) = rest.
Proof.
  intros Hd Hws Hrest. unfold RegExp.replace.
  change (RegExp.global timestampPattern) with false. cbv iota.
  assert (Hs : RegExp.search timestampPattern None
                 (timestamp h1 h2 m1 m2 s1 s2 +:+ ws +:+ rest)
               = Some (0, 10 + String.length ws)%nat).
  { unfold timestamp. rewrite append_cons. unfold RegExp.search.
    fold (timestamp h1 h2 m1 m2 s1 s2).
    change (String "[" ?x +:+ ?t) with (String "[" x +:+ t).
    rewrite <- append_cons. fold (timestamp h1 h2 m1 m2 s1 s2).
    now rewrite (timestamp_match _ _ _ _ _ _ _ Hd), (countWhite_app ws rest Hws Hrest). }
  rewrite Hs. cbn [take]. rewrite !append_nil_l.
  unfold timestamp. rewrite !append_cons, append_nil_l.
  cbn [plus drop]. apply drop_app_length.
Qed.

(** X1: With timestamp stripping on, a line that starts with a timestamp
    [[dd:dd:dd]] followed by any white space is stored exactly as the rest of
    the line is stored with stripping off (the rest not starting with white
    space). *)
Theorem timestamp_prefix_stripped (h1 h2 m1 m2 s1 s2 : ascii) (ws rest name : string)
    (index : nat) :
  allChars isDigit (String h1 (String h2 (String m1 (String m2
                     (String s1 (String s2 EmptyString)))))) = true ->
  blank ws = true ->
  startsWhite rest = false ->
  parseLine true name index (timestamp h1 h2 m1 m2 s1 s2 +:+ ws +:+ rest)
  = parseLine false name index rest.
Proof.
  intros Hd Hws Hrest. unfold parseLine, classifyLine.
  now rewrite (replace_timestamp _ _ _ _ _ _ _ _ Hd Hws Hrest).
Qed.



(** X3: With a character name set, a line that the cellphone rule matches is
    stored unchanged, white when it starts with the character name and in the
    cellphone colour otherwise; no other rule is consulted. *)
Theorem cellphone_tier (stripTimestamps : bool) (name line : string) (index : nat) :
  let processedText :=
    if stripTimestamps then RegExp.replace timestampPattern "" line else line in
  truthy name = true ->
  matches cellphoneRule processedText = true ->
  parseLine stripTimestamps name index line
  = ParsedLine.mk (Z.of_nat index) processedText
      (if startsWith name processedText
       then "rgb(255, 255, 255)" else "rgb(251, 247, 36)").
Proof.
  intros processedText Hname Hm. unfold parseLine, classifyLine. fold processedText.
  assert (Hfind : List.find (fun m => ColorMapping.checkPlayerName m
                                      && matches m processedText) colorMappings
                  = Some cellphoneRule).
  { unfold colorMappings. cbn [List.find ColorMapping.checkPlayerName andb].
    fold cellphoneRule. now rewrite Hm. }
  rewrite Hfind, Hname. now destruct (startsWith name processedText).
Qed.

End ClassifierFacts.

(** ** The overlay *)

Section OverlayFacts.
Import JsString.

Lemma matchAt_reAll c prev s :
  RegExp.matchAt (reAll (String c EmptyString)) prev s
  = match s with
    | String x _ => if Ascii.eqb x c then Some 1%nat else None
    | EmptyString => None
    end.
Proof.
  destruct s as [|x s]; [reflexivity|].
  unfold RegExp.matchAt, reAll. cbn. rewrite Ascii.eqb_sym.
  now destruct (Ascii.eqb x c).
Qed.

Lemma replace_reAll c repl s :
  RegExp.replace (reAll (String c EmptyString)) repl s = substChar c repl s.
Proof.
  unfold RegExp.replace. change (RegExp.global (reAll (String c EmptyString))) with true.
  cbv iota. generalize (@None ascii) as prev.
  induction s as [|x s IH]; intros prev.
  - now rewrite replaceAllGo_nil, matchAt_reAll.
  - rewrite replaceAllGo_cons, matchAt_reAll. cbn [substChar].
    destruct (Ascii.eqb x c); rewrite IH; [reflexivity|].
    now rewrite append_cons, append_nil_l.
Qed.

Lemma substChar_app c repl a b :
  substChar c repl (a +:+ b) = substChar c repl a +:+ substChar c repl b.
Proof.
  induction a as [|x a IH]; [reflexivity|].
  rewrite append_cons. cbn [substChar]. now rewrite IH, append_assoc.
Qed.

Lemma escapeHtml_app a b : escapeHtml (a +:+ b) = escapeHtml a +:+ escapeHtml b.
Proof.
  unfold escapeHtml, amp, apos, dq. rewrite !replace_reAll.
  now rewrite !substChar_app.
Qed.

Lemma escapeHtml_char x : escapeHtml (String x EmptyString) = escapeChar x.
Proof.
  unfold escapeHtml, amp, apos, dq. rewrite !replace_reAll. unfold escapeChar, amp.
  destruct (Ascii.eqb x "038") eqn:E1;
    [apply Ascii.eqb_eq in E1; subst x; vm_compute; reflexivity|].
  destruct (Ascii.eqb x "<") eqn:E2;
    [apply Ascii.eqb_eq in E2; subst x; vm_compute; reflexivity|].
  destruct (Ascii.eqb x ">") eqn:E3;
    [apply Ascii.eqb_eq in E3; subst x; vm_compute; reflexivity|].
  destruct (Ascii.eqb x "034") eqn:E4;
    [apply Ascii.eqb_eq in E4; subst x; vm_compute; reflexivity|].
  destruct (Ascii.eqb x "039") eqn:E5;
    [apply Ascii.eqb_eq in E5; subst x; vm_compute; reflexivity|].
  cbn [substChar]. rewrite E1, append_empty_r.
  cbn [substChar]. rewrite E2, append_empty_r.
  cbn [substChar]. rewrite E3, append_empty_r.
  cbn [substChar]. rewrite E4, append_empty_r.
  cbn [substChar]. rewrite E5, append_empty_r. reflexivity.
Qed.

Lemma allChars_app p a b : allChars p (a +:+ b) = allChars p a && allChars p b.
Proof.
  induction a as [|x a IH]; [reflexivity|].
  rewrite append_cons. cbn [allChars]. now rewrite IH, Bool.andb_assoc.
Qed.

Lemma escapeChar_clean x :
  allChars (fun c => negb (isMarkupChar c)) (escapeChar x) = true.
Proof.
  unfold escapeChar.
  destruct (Ascii.eqb x "038") eqn:E1; [reflexivity|].
  destruct (Ascii.eqb x "<") eqn:E2; [reflexivity|].
  destruct (Ascii.eqb x ">") eqn:E3; [reflexivity|].
  destruct (Ascii.eqb x "034") eqn:E4; [reflexivity|].
  destruct (Ascii.eqb x "039") eqn:E5; [reflexivity|].
  cbn [allChars]. unfold isMarkupChar. now rewrite E2, E3, E4, E5.
Qed.

Lemma escapeHtml_flatMap s : escapeHtml s = flatMapChars escapeChar s.
Proof.
  induction s as [|x s IH]; [reflexivity|].
  change (String x s) with (String x EmptyString +:+ s).
  rewrite escapeHtml_app, escapeHtml_char, IH. reflexivity.
Qed.

(** X4: [escapeHtml] replaces each of the characters ampersand, less-than,
    greater-than, double quote and apostrophe by its entity, once, and keeps
    every other character: the ampersands of the entities are not escaped
    again.  Its result holds no less-than, greater-than or quote character. *)
Theorem escapeHtml_entities (s : string) :
  escapeHtml s = flatMapChars escapeChar s
  /\ allChars (fun c => negb (isMarkupChar c)) (escapeHtml s) = true.
Proof.
  split; [apply escapeHtml_flatMap|]. rewrite escapeHtml_flatMap.
  induction s as [|x s IH]; [reflexivity|].
  cbn [flatMapChars]. now rewrite allChars_app, escapeChar_clean.
Qed.

Lemma take_drop_cat n s : take n s +:+ drop n s = s.
Proof.
  revert s. induction n as [|n IH]; intros [|c s]; try reflexivity.
  cbn [take drop]. rewrite append_cons. now rewrite IH.
Qed.

Lemma drop_drop n m s : drop n (drop m s) = drop (m + n) s.
Proof.
  revert s. induction m as [|m IH]; intros s; [reflexivity|].
  destruct s as [|c s]; [now destruct n|]. cbn [plus drop]. apply IH.
Qed.

Lemma relIndex_in_range l i : 0 <= i <= l -> relIndex l i = i.
Proof.
  intros H. unfold relIndex. destruct (Z.ltb_spec i 0); [lia|]. lia.
Qed.

(** Cutting a text at two offsets in range loses and repeats nothing. *)
Lemma slice_partition a b text :
  0 <= a <= b -> b <= len text ->
  slice 0 a text +:+ slice a b text +:+ sliceFrom b text = text.
Proof.
  intros Hab Hb. unfold slice, sliceFrom.
  rewrite !relIndex_in_range by lia.
  change (Z.to_nat 0) with 0%nat. cbn [drop]. rewrite Z.sub_0_r.
  replace (drop (Z.to_nat b) text)
    with (drop (Z.to_nat (b - a)) (drop (Z.to_nat a) text)).
  - rewrite take_drop_cat. apply take_drop_cat.
  - rewrite drop_drop. f_equal. lia.
Qed.

(** X5: [applyCensoring] returns the text as it is when no region of the store is
    on the line.  With exactly one region on the line, at offsets in range,
    it returns the text before the region, the markup of the escaped text of
    the region, and the text after it; these three pieces of the text make up
    the whole text.  The text outside the region is not escaped. *)
Theorem applyCensoring_one_region (regions : list CensoredRegion.t) (text : string)
    (lineIndex layerId : Z) :
  (List.filter (onLine layerId lineIndex) regions = [] ->
   applyCensoring regions text lineIndex layerId = text)
  /\ (forall r,
        List.filter (onLine layerId lineIndex) regions = [r] ->
        0 <= CensoredRegion.startOffset r <= CensoredRegion.endOffset r ->
        CensoredRegion.endOffset r <= len text ->
        let before := slice 0 (CensoredRegion.startOffset r) text in
        let censored :=
          slice (CensoredRegion.startOffset r) (CensoredRegion.endOffset r) text in
        let after := sliceFrom (CensoredRegion.endOffset r) text in
        applyCensoring regions text lineIndex layerId
        = before +:+ censorMarkup (CensoredRegion.type r) censored +:+ after
        /\ before +:+ censored +:+ after = text).
Proof.
  split.
  - intros H. unfold applyCensoring. now rewrite H.
  - intros r H Hab Hb before censored after. split.
    + unfold applyCensoring. rewrite H. cbn [sortByStart insertByStart isNil censorLoop].
      rewrite append_nil_l. fold before censored after.
      destruct (CensoredRegion.type r); cbn [censorMarkup];
        rewrite ?append_assoc, ?append_nil_l; reflexivity.
    + now apply slice_partition.
Qed.

End OverlayFacts.

(** ** The export: the segment scan *)

Section ScanFacts.
Import JsString.

Variable measureText : string -> Q.
Variable showBlackBars : bool.
Variable regions : list CensoredRegion.t.

Lemma len_nonneg s : 0 <= len s.
Proof. unfold len. lia. Qed.

Lemma len_empty s : len s <= 0 <-> s = "".
Proof.
  unfold len. destruct s; cbn [String.length]; split; intros H; try reflexivity;
    try lia; discriminate.
Qed.

Lemma length_drop n s : String.length (drop n s) = (String.length s - n)%nat.
Proof.
  revert s. induction n as [|n IH]; intros [|c s]; cbn [drop String.length];
    try reflexivity; try lia. apply IH.
Qed.

Lemma length_sliceFrom k s :
  0 <= k -> len (sliceFrom k s) = len s - Z.min k (len s).
Proof.
  intros Hk. unfold sliceFrom, relIndex. destruct (Z.ltb_spec k 0); [lia|].
  unfold len. rewrite length_drop. unfold len. lia.
Qed.

Lemma nextCensorAt_Some li lid cur rem nc :
  nextCensorAt regions li lid cur rem = Some nc ->
  In nc regions /\ touches cur rem nc = true.
Proof.
  unfold nextCensorAt. intros H. apply List.find_some in H as [Hin Hp].
  split; [exact Hin|]. apply andb_prop in Hp as [_ Hp]. exact Hp.
Qed.

Lemma scanStep_progress nc cur rem :
  nonDegenerate nc -> touches cur rem nc = true -> rem <> "" ->
  len (snd (scanStep nc cur rem)) < len rem.
Proof.
  unfold nonDegenerate, touches, scanStep. intros Hnd Ht Hne.
  assert (Hlen : 0 < len rem).
  { pose proof (len_nonneg rem). destruct (Z.eq_dec (len rem) 0) as [H0|]; [|lia].
    exfalso. apply Hne. apply len_empty. lia. }
  set (a := CensoredRegion.startOffset nc) in *.
  set (b := CensoredRegion.endOffset nc) in *.
  destruct (Z.ltb_spec 0 (a - cur)) as [Hu|Hu].
  - assert (Ha : a < cur + len rem) by lia.
    replace (b - (cur + (a - cur))) with (b - a) by lia.
    destruct (Z.ltb_spec 0 (b - a)); [|lia]. cbn [snd].
    rewrite !length_sliceFrom by lia. lia.
  - destruct (Z.ltb_spec 0 (b - cur)) as [Hc|Hc]; cbn [snd].
    + rewrite length_sliceFrom by lia. lia.
    + exfalso. apply Bool.orb_prop in Ht as [Ht|Ht];
        apply andb_prop in Ht as [H1 H2]; lia.
Qed.

Lemma drawLoop_empty fuel y color li lid x cur :
  drawLoop measureText showBlackBars regions fuel y color li lid x "" cur = Some [].
Proof. now destruct fuel. Qed.

Lemma drawLoop_found fuel y color li lid x rem cur nc :
  rem <> "" ->
  nextCensorAt regions li lid cur rem = Some nc ->
  exists ops1 ops2 x',
    drawLoop measureText showBlackBars regions (S fuel) y color li lid x rem cur
    = (fun more => ops1 ++ ops2 ++ more)
        <$> drawLoop measureText showBlackBars regions fuel y color li lid x'
              (snd (scanStep nc cur rem)) (fst (scanStep nc cur rem)).
Proof.
  intros Hne Hf. cbn [drawLoop].
  destruct (Z.leb_spec (len rem) 0) as [H0|H0]; [apply len_empty in H0; congruence|].
  rewrite Hf. unfold scanStep.
  destruct (0 <? CensoredRegion.startOffset nc - cur);
    match goal with
    | |- context [0 <? ?c] => destruct (0 <? c)
    end;
    try destruct (CensoredRegion.type nc); eexists _, _, _; reflexivity.
Qed.

Lemma drawLoop_not_found fuel y color li lid x rem cur :
  rem <> "" ->
  nextCensorAt regions li lid cur rem = None ->
  drawLoop measureText showBlackBars regions (S fuel) y color li lid x rem cur
  = Some (drawTextWithOutline measureText showBlackBars rem x y color None).
Proof.
  intros Hne Hf. cbn [drawLoop].
  destruct (Z.leb_spec (len rem) 0) as [H0|H0]; [apply len_empty in H0; congruence|].
  now rewrite Hf.
Qed.

Lemma drawLoop_total fuel : forall y color li lid x rem cur,
  Forall nonDegenerate regions ->
  (String.length rem <= fuel)%nat ->
  is_Some (drawLoop measureText showBlackBars regions fuel y color li lid x rem cur).
Proof.
  induction fuel as [|fuel IH]; intros y color li lid x rem cur Hnd Hlen.
  - destruct rem; [|cbn in Hlen; lia]. rewrite drawLoop_empty. eauto.
  - destruct rem as [|c r] eqn:Hrem; [rewrite drawLoop_empty; eauto|].
    rewrite <- Hrem in *. assert (Hne : rem <> "") by (rewrite Hrem; discriminate).
    destruct (nextCensorAt regions li lid cur rem) as [nc|] eqn:Hf.
    + destruct (drawLoop_found fuel y color li lid x rem cur nc Hne Hf) as (ops1 & ops2 & x' & ->).
      destruct (nextCensorAt_Some _ _ _ _ _ Hf) as [Hin Ht].
      rewrite Forall_forall in Hnd.
      pose proof (scanStep_progress nc cur rem (Hnd nc ltac:(now apply list_elem_of_In)) Ht Hne) as Hp.
      unfold len in Hp.
      destruct (IH y color li lid x' (snd (scanStep nc cur rem))
                   (fst (scanStep nc cur rem))) as [res Hres].
      * now apply Forall_forall.
      * lia.
      * rewrite Hres. cbn. eauto.
    + rewrite (drawLoop_not_found fuel y color li lid x rem cur Hne Hf). eauto.
Qed.

End ScanFacts.

Section SegmentFacts.
Import JsString.

Variable measureText : string -> Q.
Variable showBlackBars : bool.

Lemma find_filter {A} (q c : A -> bool) l :
  List.find (fun x => q x && c x) l = List.find c (List.filter q l).
Proof.
  induction l as [|x l IH]; [reflexivity|]. cbn [List.find List.filter].
  destruct (q x); cbn [andb List.find]; [now rewrite IH|exact IH].
Qed.

Lemma nextCensorAt_filter regions li lid cur rem :
  nextCensorAt regions li lid cur rem
  = List.find (touches cur rem) (List.filter (onLine lid li) regions).
Proof. unfold nextCensorAt. now rewrite <- find_filter. Qed.

Lemma find_narrow {A} (p p' : A -> bool) l r :
  List.find p l = Some r -> p' r = true ->
  (forall x, p' x = true -> p x = true) ->
  List.find p' l = Some r.
Proof.
  intros Hf Hr Himp. induction l as [|x l IH]; [discriminate|].
  cbn [List.find] in *. destruct (p x) eqn:Hp.
  - injection Hf as ->. now rewrite Hr.
  - destruct (p' x) eqn:Hp'; [|now apply IH].
    apply Himp in Hp'. congruence.
Qed.

Lemma touches_narrow cur cur' rem rem' x :
  cur <= cur' -> cur' + len rem' = cur + len rem ->
  touches cur' rem' x = true -> touches cur rem x = true.
Proof.
  unfold touches. intros H1 H2 H.
  apply Bool.orb_prop in H as [H|H]; apply andb_prop in H as [Ha Hb];
    apply Bool.orb_true_iff; [left|right]; apply andb_true_intro; split; lia.
Qed.

Lemma nextCensorAt_narrow regions li lid cur cur' rem rem' r :
  nextCensorAt regions li lid cur rem = Some r ->
  cur <= cur' -> cur' + len rem' = cur + len rem ->
  touches cur' rem' r = true ->
  nextCensorAt regions li lid cur' rem' = Some r.
Proof.
  rewrite !nextCensorAt_filter. intros Hf H1 H2 Ht.
  apply (find_narrow _ _ _ _ Hf Ht). intros x. now apply touches_narrow.
Qed.

Lemma drawLoop_stuck regions li lid r y color fuel : forall x cur rem,
  nextCensorAt regions li lid cur rem = Some r ->
  CensoredRegion.startOffset r = CensoredRegion.endOffset r ->
  cur <= CensoredRegion.startOffset r < cur + len rem ->
  drawLoop measureText showBlackBars regions fuel y color li lid x rem cur = None.
Proof.
  induction fuel as [|fuel IH]; intros x cur rem Hf Hdeg Hin.
  - cbn [drawLoop]. destruct (Z.leb_spec (len rem) 0); [exfalso; lia|reflexivity].
  - assert (Hne : rem <> "") by (intros ->; change (len "") with 0 in Hin; lia).
    destruct (drawLoop_found measureText showBlackBars regions fuel y color li lid
                x rem cur r Hne Hf) as (ops1 & ops2 & x' & ->).
    rewrite IH; [reflexivity| |exact Hdeg|].
    + unfold scanStep.
      destruct (Z.ltb_spec 0 (CensoredRegion.startOffset r - cur)) as [Hu|Hu].
      * destruct (Z.ltb_spec 0 (CensoredRegion.endOffset r
                                - (cur + (CensoredRegion.startOffset r - cur))));
          [lia|]. cbn [fst snd].
        apply (nextCensorAt_narrow _ _ _ cur _ rem _ _ Hf); [lia| |].
        -- rewrite length_sliceFrom by lia. lia.
        -- unfold touches. rewrite length_sliceFrom by lia.
           apply Bool.orb_true_iff. left. apply andb_true_intro. split; lia.
      * destruct (Z.ltb_spec 0 (CensoredRegion.endOffset r - cur)); [lia|].
        exact Hf.
    + unfold scanStep.
      destruct (Z.ltb_spec 0 (CensoredRegion.startOffset r - cur)) as [Hu|Hu].
      * destruct (Z.ltb_spec 0 (CensoredRegion.endOffset r
                                - (cur + (CensoredRegion.startOffset r - cur))));
          [lia|]. cbn [fst snd]. rewrite length_sliceFrom by lia. lia.
      * destruct (Z.ltb_spec 0 (CensoredRegion.endOffset r - cur)); [lia|].
        cbn [fst snd]. lia.
Qed.

(** X6: The loop of [drawTextSegment] ends within as many iterations as the
    text has characters when no region of the store is empty: every
    iteration that finds a region shortens the remaining text. *)
Theorem drawTextSegment_terminates (regions : list CensoredRegion.t) (text : string)
    (xPos yPos : Q) (color : string) (lineStartPos lineIndex layerId : Z) :
  Forall nonDegenerate regions ->
  is_Some (drawTextSegment measureText showBlackBars regions (String.length text)
             text xPos yPos color lineStartPos lineIndex layerId).
Proof.
  intros Hnd. unfold drawTextSegment. now apply drawLoop_total.
Qed.

(** X7: The loop of [drawTextSegment] never ends when the region it finds
    first is empty and lies before the end of the text: the iteration that
    reaches the region draws nothing for it, advances by nothing, and finds
    it again. *)
Theorem drawTextSegment_diverges (regions : list CensoredRegion.t) (text : string)
    (xPos yPos : Q) (color : string) (lineStartPos lineIndex layerId : Z)
    (r : CensoredRegion.t) :
  nextCensorAt regions lineIndex layerId lineStartPos text = Some r ->
  CensoredRegion.startOffset r = CensoredRegion.endOffset r ->
  CensoredRegion.startOffset r < lineStartPos + len text ->
  forall fuel,
    drawTextSegment measureText showBlackBars regions fuel text xPos yPos color
                    lineStartPos lineIndex layerId = None.
Proof.
  intros Hf Hdeg Hlt fuel. unfold drawTextSegment.
  apply (drawLoop_stuck regions lineIndex layerId r); [exact Hf|exact Hdeg|].
  split; [|exact Hlt].
  apply nextCensorAt_Some in Hf as [_ Ht]. unfold touches in Ht.
  apply Bool.orb_prop in Ht as [Ht|Ht]; apply andb_prop in Ht as [H1 H2]; lia.
Qed.

End SegmentFacts.

Section OneRegionExport.
Import JsString.

Variable measureText : string -> Q.
Variable showBlackBars : bool.

Lemma length_take n s : String.length (take n s) = Nat.min n (String.length s).
Proof.
  revert s. induction n as [|n IH]; intros [|c s]; cbn [take String.length Nat.min];
    try reflexivity. now rewrite IH.
Qed.

Lemma length_slice_0 k s : 0 <= k <= len s -> len (slice 0 k s) = k.
Proof.
  intros Hk. unfold slice. rewrite !relIndex_in_range by (pose proof (len_nonneg s); lia).
  change (Z.to_nat 0) with 0%nat. cbn [drop]. unfold len in *. rewrite length_take. lia.
Qed.

Lemma sliceFrom_0 s : sliceFrom 0 s = s.
Proof.
  unfold sliceFrom. rewrite relIndex_in_range by (pose proof (len_nonneg s); lia).
  reflexivity.
Qed.

Lemma slice_0_0 s : slice 0 0 s = "".
Proof.
  unfold slice. rewrite relIndex_in_range by (pose proof (len_nonneg s); lia).
  reflexivity.
Qed.

Lemma slice_sliceFrom m n s :
  0 <= m -> 0 <= n -> m + n <= len s ->
  slice 0 n (sliceFrom m s) = slice m (m + n) s.
Proof.
  intros Hm Hn Hs. unfold slice. rewrite length_sliceFrom by lia.
  rewrite !relIndex_in_range by lia. unfold sliceFrom.
  rewrite relIndex_in_range by lia. change (Z.to_nat 0) with 0%nat. cbn [drop].
  f_equal. lia.
Qed.

Lemma sliceFrom_sliceFrom m n s :
  0 <= m -> 0 <= n -> m + n <= len s ->
  sliceFrom n (sliceFrom m s) = sliceFrom (m + n) s.
Proof.
  intros Hm Hn Hs. unfold sliceFrom at 1. rewrite length_sliceFrom by lia.
  rewrite relIndex_in_range by lia. unfold sliceFrom.
  rewrite !relIndex_in_range by lia. rewrite drop_drop. f_equal. lia.
Qed.

Lemma isEmpty_len s : isEmpty s = false <-> 0 < len s.
Proof. destruct s; cbn; split; intros H; try reflexivity; try discriminate; lia. Qed.

Lemma drawLoop_rest regions fuel y color li lid x rem cur :
  nextCensorAt regions li lid cur rem = None ->
  drawLoop measureText showBlackBars regions (S fuel) y color li lid x rem cur
  = Some (plainPaint measureText showBlackBars rem x y color).
Proof.
  intros Hf. destruct rem as [|c rem]; [reflexivity|].
  now rewrite drawLoop_not_found.
Qed.

(** X8: With no region of the store on the line of the layer, [drawTextSegment]
    paints the text in one piece, outlined.  With exactly one region on the
    line, not empty and inside the run, it paints the text before the region
    outlined, the text of the region in the way of its kind, and the text
    after the region outlined.  The text after a region of the kind
    [Invisible] starts two widths of the hidden text further, not one. *)
Theorem drawTextSegment_one_region (regions : list CensoredRegion.t) (text : string)
    (xPos yPos : Q) (color : string) (lineStartPos lineIndex layerId : Z)
    (fuel : nat) :
  (List.filter (onLine layerId lineIndex) regions = [] ->
   drawTextSegment measureText showBlackBars regions (S fuel) text xPos yPos color
                   lineStartPos lineIndex layerId
   = Some (plainPaint measureText showBlackBars text xPos yPos color))
  /\ (forall r,
        List.filter (onLine layerId lineIndex) regions = [r] ->
        lineStartPos <= CensoredRegion.startOffset r < CensoredRegion.endOffset r ->
        CensoredRegion.endOffset r <= lineStartPos + len text ->
        let a := CensoredRegion.startOffset r - lineStartPos in
        let b := CensoredRegion.endOffset r - lineStartPos in
        let before := slice 0 a text in
        let censored := slice a b text in
        let after := sliceFrom b text in
        let x1 := plainAdvance measureText before xPos in
        drawTextSegment measureText showBlackBars regions (S (S fuel)) text xPos yPos
                        color lineStartPos lineIndex layerId
        = Some (plainPaint measureText showBlackBars before xPos yPos color
                ++ censorPaint measureText showBlackBars (CensoredRegion.type r)
                               censored x1 yPos color
                ++ plainPaint measureText showBlackBars after
                     (censorAdvance measureText (CensoredRegion.type r) censored x1)
                     yPos color)).
Proof.
  split.
  - intros H. unfold drawTextSegment. apply drawLoop_rest. now rewrite nextCensorAt_filter, H.
  - intros r H Hab Hb a b before censored after x1. unfold drawTextSegment.
    assert (Hfind : nextCensorAt regions lineIndex layerId lineStartPos text = Some r).
    { rewrite nextCensorAt_filter, H. cbn [List.find]. unfold touches.
      destruct (Z.leb_spec lineStartPos (CensoredRegion.startOffset r)); [|lia].
      destruct (Z.ltb_spec (CensoredRegion.startOffset r) (lineStartPos + len text));
        [reflexivity|lia]. }
    assert (Hrest : forall rem,
      nextCensorAt regions lineIndex layerId (CensoredRegion.endOffset r) rem = None).
    { intros rem. rewrite nextCensorAt_filter, H. cbn [List.find]. unfold touches.
      destruct (Z.leb_spec (CensoredRegion.endOffset r) (CensoredRegion.startOffset r));
        [lia|].
      destruct (Z.ltb_spec (CensoredRegion.endOffset r) (CensoredRegion.endOffset r));
        [lia|reflexivity]. }
    assert (Hne : 0 < len text) by lia.
    remember (S fuel) as fuel' eqn:Hfuel.
    cbn [drawLoop]. destruct (Z.leb_spec (len text) 0); [lia|]. rewrite Hfind.
    subst fuel'.
    fold a. unfold plainPaint at 1. unfold x1, plainAdvance.
    destruct (Z.ltb_spec 0 a) as [Ha|Ha].
    + assert (Hb' : isEmpty before = false).
      { apply isEmpty_len. unfold before. rewrite length_slice_0; lia. }
      rewrite Hb'. cbv beta iota zeta.
      replace (CensoredRegion.endOffset r - (lineStartPos + a)) with (b - a)
        by (unfold a, b; lia).
      destruct (Z.ltb_spec 0 (b - a)); [|unfold a, b in *; lia].
      replace (lineStartPos + a + (b - a)) with (CensoredRegion.endOffset r)
        by (unfold a, b; lia).
      rewrite slice_sliceFrom, sliceFrom_sliceFrom by (unfold a, b in *; lia).
      replace (a + (b - a)) with b by lia. fold before censored after.
      destruct (CensoredRegion.type r); cbv beta iota zeta;
        rewrite drawLoop_rest by apply Hrest; reflexivity.
    + assert (Ha0 : a = 0) by (unfold a in *; lia).
      assert (Hb' : before = "") by (unfold before; rewrite Ha0; apply slice_0_0).
      rewrite Hb'. cbv beta iota zeta. cbn [isEmpty].
      fold b. destruct (Z.ltb_spec 0 b); [|unfold b in *; lia].
      replace (lineStartPos + b) with (CensoredRegion.endOffset r) by (unfold b; lia).
      fold after. unfold censored. rewrite Ha0.
      destruct (CensoredRegion.type r); cbv beta iota zeta;
        rewrite drawLoop_rest by apply Hrest; reflexivity.
Qed.

End OneRegionExport.

(** ** The export: the word wrap and the marker lines *)

Section WrapFacts.
Import JsString.

Variable measureText : string -> Q.
Variable chatLineWidth : Q.

Lemma wrapWords_fit words : forall currentLineText lineStartPosition all,
  (forall w, In w words -> In w all) ->
  exceeds measureText chatLineWidth currentLineText = false \/ In currentLineText all ->
  Forall (fun run : Run =>
            exceeds measureText chatLineWidth (fst run) = false \/ In (fst run) all)
         (wrapWords measureText chatLineWidth words currentLineText lineStartPosition).
Proof.
  induction words as [|word rest IH]; intros cur st all Hsub Hcur; cbn [wrapWords].
  - destruct (truthy cur); [constructor; [exact Hcur|constructor]|constructor].
  - assert (Hrest : forall w, In w rest -> In w all) by (intros w Hw; apply Hsub; now right).
    assert (Hword : In word all) by (apply Hsub; now left).
    destruct (truthy cur) eqn:Hc.
    + rewrite Bool.andb_true_r.
      destruct (exceeds measureText chatLineWidth (cur +:+ " " +:+ word)) eqn:He.
      * constructor; [exact Hcur|]. apply IH; [exact Hrest|now right].
      * apply IH; [exact Hrest|now left].
    + rewrite Bool.andb_false_r. apply IH; [exact Hrest|now right].
Qed.

(** X9: Every run of the word wrap fits the width of the line, or is a single
    word of the line: a word wider than the line is not broken. *)
Theorem wrapLine_runs_fit (rawText : string) :
  Forall (fun run : Run =>
            exceeds measureText chatLineWidth (fst run) = false
            \/ In (fst run) (split " " rawText))
         (wrapLine measureText chatLineWidth rawText).
Proof.
  unfold wrapLine. destruct (Qle_bool (measureText rawText) chatLineWidth) eqn:Hq.
  - constructor; [|constructor]. left. cbn [fst]. unfold exceeds. now rewrite Hq.
  - pose proof (split_not_nil " " rawText) as Hnil.
    destruct (split " " rawText) as [|w ws] eqn:Hs; [congruence|].
    cbn [wrapWords truthy isEmpty negb]. rewrite Bool.andb_false_r.
    apply wrapWords_fit; [intros x Hx; now right|right; now left].
Qed.

Lemma len_append a b : len (a +:+ b) = len a + len b.
Proof.
  unfold len. induction a as [|c a IH]; [now rewrite append_nil_l|].
  rewrite append_cons. cbn [String.length]. lia.
Qed.

Lemma wrapWords_offsets words : forall currentLineText lineStartPosition,
  Forall (fun w => truthy w = true) words ->
  truthy currentLineText = true ->
  Forall (fun run : Run =>
            exists a b,
              join " " (currentLineText :: words) = a +:+ fst run +:+ b
              /\ lineStartPosition + len a = snd run)
         (wrapWords measureText chatLineWidth words currentLineText lineStartPosition).
Proof.
  induction words as [|word rest IH]; intros cur st Hw Hc; cbn [wrapWords].
  - rewrite Hc. constructor; [|constructor]. exists "", "". cbn [fst snd join].
    rewrite append_nil_l, append_empty_r. split; [reflexivity|]. change (len "") with 0. lia.
  - apply Forall_cons in Hw. destruct Hw as [Hword Hrest]. rewrite Hc, Bool.andb_true_r.
    destruct (exceeds measureText chatLineWidth (cur +:+ " " +:+ word)).
    + constructor.
      * exists "", (" " +:+ join " " (word :: rest)). cbn [fst snd].
        rewrite append_nil_l. split; [now rewrite join_cons by discriminate|].
        change (len "") with 0. lia.
      * specialize (IH word (st + len cur + 1) Hrest Hword).
        eapply Forall_impl; [exact IH|]. intros [t p] (a & b & Hj & Hp).
        cbn [fst snd] in *. exists (cur +:+ " " +:+ a), b. split.
        -- rewrite join_cons by discriminate. rewrite Hj.
           now rewrite !append_assoc.
        -- rewrite <- Hp, !len_append. change (len " ") with 1. lia.
    + eapply Forall_impl; [apply (IH (cur +:+ " " +:+ word) st Hrest)|].
      * now destruct cur.
      * intros [t p] (a & b & Hj & Hp). exists a, b. split; [|exact Hp].
        now rewrite <- join_merge.
Qed.

(** X10: For a line whose words are all non-empty, that is, without a leading,
    trailing or doubled space, every run of the word wrap is the part of the
    line that starts at the offset the run carries. *)
Theorem wrapLine_offsets (rawText : string) :
  Forall (fun w => truthy w = true) (split " " rawText) ->
  Forall (fun run : Run =>
            exists a b, rawText = a +:+ fst run +:+ b /\ len a = snd run)
         (wrapLine measureText chatLineWidth rawText).
Proof.
  intros Hw. unfold wrapLine. destruct (Qle_bool _ _).
  - constructor; [|constructor]. exists "", "". cbn [fst snd].
    now rewrite append_nil_l, append_empty_r.
  - pose proof (split_not_nil " " rawText) as Hnil.
    pose proof (join_split " " rawText) as Hjoin.
    destruct (split " " rawText) as [|w ws]; [congruence|].
    apply Forall_cons in Hw. destruct Hw as [Hw1 Hws].
    cbn [wrapWords truthy isEmpty negb]. rewrite Bool.andb_false_r.
    eapply Forall_impl; [apply (wrapWords_offsets ws w 0 Hws Hw1)|].
    intros [t p] (a & b & Hj & Hp). exists a, b. split; [congruence|lia].
Qed.

End WrapFacts.

Section MarkerFacts.
Import JsString.

Variable measureText : string -> Q.
Variable regions : list CensoredRegion.t.




(** X13: For a run with a marker, the export uses neither the offset of the run
    in its line nor the colour of the line: the regions are looked up at
    offsets counted from the start of the run. *)
Theorem drawRun_marker_ignores_offset (showBlackBars : bool) (fuel fuel' : nat)
    (text : string) (p p' : Z) (y : Q) (color color' : string)
    (lineIndex layerId : Z) :
  isSome (drawSpecialLine measureText showBlackBars regions text 4 y lineIndex layerId)
    = true ->
  drawRun measureText showBlackBars regions fuel (text, p) y color lineIndex layerId
  = drawRun measureText showBlackBars regions fuel' (text, p') y color' lineIndex layerId.
Proof.
  unfold drawRun. intros H.
  destruct (drawSpecialLine measureText showBlackBars regions text 4 y lineIndex layerId);
    [reflexivity|discriminate].
Qed.

End MarkerFacts.

(** ** The identities of the layers *)

Section Identities.
Import JsString.

Lemma fmap_id_alter (f : ChatLayer.t -> ChatLayer.t) i (l : list ChatLayer.t) :
  (forall x, ChatLayer.id (f x) = ChatLayer.id x) ->
  ChatLayer.id <$> alter f i l = ChatLayer.id <$> l.
Proof.
  intros Hf. revert i. induction l as [|x l IH]; intros [|i]; cbn; try reflexivity.
  - now rewrite Hf.
  - f_equal. apply IH.
Qed.

Lemma skeleton_alterLayer f i e :
  (forall l, ChatLayer.id (f l) = ChatLayer.id l) ->
  skeleton (alterLayer i f e) = skeleton e.
Proof.
  intros Hf. unfold skeleton, layerIds, alterLayer. cbn. now rewrite fmap_id_alter.
Qed.

Lemma skeleton_set_chatlogText v e : skeleton (set_chatlogText v e) = skeleton e.
Proof.
  unfold set_chatlogText. destruct (activeChatLayer e); [|reflexivity].
  now apply skeleton_alterLayer.
Qed.

Lemma skeleton_set_parsedChatLines v e : skeleton (set_parsedChatLines v e) = skeleton e.
Proof.
  unfold set_parsedChatLines. destruct (activeChatLayer e); [|reflexivity].
  now apply skeleton_alterLayer.
Qed.

Lemma skeleton_parseChatlog layer e :
  Editor.chatLayers e <> [] ->
  skeleton (parseChatlog layer e) = skeleton e.
Proof.
  intros Hne. unfold parseChatlog.
  assert (Ha : is_Some (activeChatLayer e)).
  { destruct (activeChatLayer e) eqn:Ha; [eauto|]. now apply activeChatLayer_None in Ha. }
  destruct Ha as [a Ha].
  assert (exists t, match layer with Some i => Some i | None => activeChatLayer e end
                    = Some t) as [t ->].
  { destruct layer; rewrite ?Ha; eauto. }
  cbv zeta. destruct (negb _); unfold bumpRenderKey.
  - change (skeleton (Editor.set_renderKey ?k ?x)) with (skeleton x).
    rewrite skeleton_set_parsedChatLines, !skeleton_alterLayer by reflexivity.
    reflexivity.
  - change (skeleton (Editor.set_renderKey ?k ?x)) with (skeleton x).
    rewrite skeleton_set_parsedChatLines, !skeleton_alterLayer by reflexivity.
    reflexivity.
Qed.

Lemma elem_of_layerIds e i l :
  Editor.chatLayers e !! i = Some l -> ChatLayer.id l ∈ layerIds e.
Proof.
  intros H. unfold layerIds. apply list_elem_of_fmap. exists l. split; [reflexivity|].
  eapply list_elem_of_lookup_2, H.
Qed.

Lemma findIndex_layerIds e id :
  id ∈ layerIds e <-> is_Some (findIndex (hasId id) (Editor.chatLayers e)).
Proof.
  unfold layerIds. split.
  - intros H. apply list_elem_of_fmap in H as (l & -> & Hl).
    apply list_elem_of_lookup in Hl as [i Hi].
    destruct (findIndex_exists (hasId (ChatLayer.id l)) _ i l Hi) as [j Hj].
    + unfold hasId. apply Z.eqb_refl.
    + eauto.
  - intros [i Hi]. destruct (findIndex_Some _ _ _ Hi) as (x & Hx & Hp & _).
    unfold hasId in Hp. apply Z.eqb_eq in Hp. subst id.
    apply list_elem_of_fmap. exists x. split; [reflexivity|].
    eapply list_elem_of_lookup_2, Hx.
Qed.

Lemma skeleton_selectChatLayer e id :
  Editor.chatLayers e <> [] ->
  exists sid st,
    skeleton (selectChatLayer id e)
    = (layerIds e, Editor.nextChatLayerId e, Some sid, Editor.censoredRegions e, st)
    /\ sid ∈ layerIds e
    /\ (st = -1 \/ st = SelectedText.layerId (Editor.selectedText e))
    /\ (id ∈ layerIds e -> sid = id /\ st = -1).
Proof.
  intros Hne. unfold selectChatLayer.
  destruct (findIndex (hasId id) (Editor.chatLayers e)) as [i|] eqn:Hi.
  - assert (Hin : id ∈ layerIds e) by (apply findIndex_layerIds; eauto).
    destruct (findIndex_Some _ _ _ Hi) as (l & Hl & _).
    cbv zeta.
    set (e1 := Editor.set_selectedChatLayerId (Some id) e).
    assert (Hl1 : Editor.chatLayers e1 !! i = Some l) by exact Hl.
    rewrite Hl1.
    set (e2 := if truthy (ChatLayer.text l) && isNil (ChatLayer.parsedLines l)
               then parseChatlog (Some i) e1 else e1).
    assert (H2 : skeleton e2 = skeleton e1).
    { subst e2. destruct (_ && _); [|reflexivity]. now apply skeleton_parseChatlog. }
    assert (Hl2 : is_Some (Editor.chatLayers e2 !! i)).
    { apply lookup_lt_is_Some. apply lookup_lt_Some in Hl.
      assert (Hlen : length (layerIds e2) = length (layerIds e1)).
      { unfold skeleton in H2. congruence. }
      unfold layerIds in Hlen. rewrite !length_fmap in Hlen. now rewrite Hlen. }
    destruct Hl2 as [l2 Hl2]. rewrite Hl2.
    exists id, (-1). split; [|auto].
    match goal with
    | |- skeleton (Editor.set_selectedText ?s (Editor.set_chatTransform ?t ?x)) = _ =>
        assert (Hx : skeleton x = skeleton e1)
          by (now rewrite skeleton_set_parsedChatLines, skeleton_set_chatlogText, H2);
        change (skeleton (Editor.set_selectedText s (Editor.set_chatTransform t x)))
          with (layerIds x, Editor.nextChatLayerId x, Editor.selectedChatLayerId x,
                Editor.censoredRegions x, -1);
        unfold skeleton in Hx; injection Hx as H3 H4 H5 H6 H7;
        rewrite H3, H4, H5, H6; reflexivity
    end.
  - assert (Hnin : id ∉ layerIds e).
    { intros H. apply findIndex_layerIds in H as [? ?]. congruence. }
    unfold ensureActiveLayer.
    destruct (activeChatLayer e) as [a|] eqn:Ha;
      [|now apply activeChatLayer_None in Ha].
    destruct (activeChatLayer_lookup e a Ha) as [fb Hfb]. rewrite Hfb.
    exists (ChatLayer.id fb), (SelectedText.layerId (Editor.selectedText e)).
    split; [|split; [now apply (elem_of_layerIds e a)|split; [auto|tauto]]].
    cbv zeta.
    match goal with
    | |- skeleton (Editor.set_chatTransform ?t ?x) = _ =>
        change (skeleton (Editor.set_chatTransform t x)) with (skeleton x)
    end.
    now rewrite skeleton_set_chatlogText, skeleton_set_parsedChatLines.
Qed.


Lemma wellFormed_of e ids next sid regs st :
  skeleton e = (ids, next, Some sid, regs, st) ->
  NoDup ids -> Forall (fun i => 1 <= i < next) ids -> sid ∈ ids ->
  Forall (fun r => CensoredRegion.layerId r ∈ ids) regs ->
  st = -1 \/ st ∈ ids ->
  wellFormed e.
Proof.
  unfold skeleton, wellFormed. intros H. injection H as -> -> -> -> ->. eauto 10.
Qed.

Lemma wellFormed_skeleton e e' :
  skeleton e' = skeleton e -> wellFormed e -> wellFormed e'.
Proof.
  unfold skeleton, wellFormed. intros H. injection H as -> -> -> -> ->. auto.
Qed.

Lemma nonempty_layerIds e : layerIds e <> [] <-> Editor.chatLayers e <> [].
Proof. unfold layerIds. now destruct (Editor.chatLayers e). Qed.

Lemma wellFormed_nonempty e : wellFormed e -> Editor.chatLayers e <> [].
Proof.
  intros (_ & _ & (sid & _ & Hsid) & _). apply nonempty_layerIds.
  intros H. rewrite H in Hsid. now apply elem_of_nil in Hsid.
Qed.

Lemma nonempty_skeleton e e' :
  skeleton e' = skeleton e -> Editor.chatLayers e <> [] -> Editor.chatLayers e' <> [].
Proof.
  unfold skeleton. intros H. injection H as H _ _ _ _. intros Hne.
  apply nonempty_layerIds. rewrite H. now apply nonempty_layerIds.
Qed.

Lemma wellFormed_selectChatLayer e id :
  wellFormed e -> wellFormed (selectChatLayer id e).
Proof.
  intros Hwf.
  destruct (skeleton_selectChatLayer e id (wellFormed_nonempty e Hwf))
    as (sid & st & Hsk & Hsid & Hst & _).
  destruct Hwf as (Hnd & Hb & _ & Hr & Hs).
  apply (wellFormed_of _ _ _ _ _ _ Hsk); auto.
  destruct Hst as [->| ->]; auto.
Qed.

Lemma wellFormed_addChatLayer e : wellFormed e -> wellFormed (addChatLayer e).
Proof.
  intros (Hnd & Hb & (sid & _ & Hsid) & Hr & Hs). unfold addChatLayer, createChatLayer.
  cbn [ChatLayer.o_id ChatLayer.noOptions].
  set (layer := ChatLayer.mk (Editor.nextChatLayerId e) _ _ _ _ _).
  set (e1 := Editor.set_chatLayers (Editor.chatLayers e ++ [layer]) _).
  assert (Hat : layerIdAt (length (Editor.chatLayers e)) e1 = Some (Editor.nextChatLayerId e)).
  { unfold layerIdAt, e1. cbn [Editor.chatLayers Editor.set_chatLayers].
    now rewrite lookup_app_r, Nat.sub_diag by lia. }
  rewrite Hat.
  assert (Hids : layerIds e1 = layerIds e ++ [Editor.nextChatLayerId e]).
  { unfold layerIds, e1. cbn [Editor.chatLayers Editor.set_chatLayers].
    now rewrite fmap_app. }
  assert (Hin : Editor.nextChatLayerId e ∈ layerIds e1).
  { rewrite Hids. apply elem_of_app. right. apply list_elem_of_singleton. reflexivity. }
  destruct (skeleton_selectChatLayer e1 (Editor.nextChatLayerId e))
    as (sid' & st & Hsk & _ & _ & Heq).
  { apply nonempty_layerIds. rewrite Hids. now destruct (layerIds e). }
  destruct (Heq Hin) as [-> ->].
  apply (wellFormed_of _ _ _ _ _ _ Hsk); auto.
  - rewrite Hids. apply NoDup_app. split; [exact Hnd|]. split; [|apply NoDup_singleton].
    intros x Hx Hx'. apply list_elem_of_singleton in Hx'. subst x.
    rewrite Forall_forall in Hb. specialize (Hb _ Hx). lia.
  - assert (Hnext : Editor.nextChatLayerId e1 = Editor.nextChatLayerId e + 1)
      by reflexivity.
    rewrite Hids, Hnext. apply Forall_app. split.
    + eapply Forall_impl; [exact Hb|]. intros x Hx. cbn beta in *. lia.
    + constructor; [|constructor]. rewrite Forall_forall in Hb. specialize (Hb _ Hsid).
      cbn beta in *. lia.
  - eapply Forall_impl; [exact Hr|]. intros r Hx. rewrite Hids. apply elem_of_app. now left.
Qed.

Lemma elem_of_delete_other {A} (l : list A) i x y :
  x ∈ l -> l !! i = Some y -> x <> y -> x ∈ delete i l.
Proof.
  intros Hx Hi Hne. apply list_elem_of_lookup in Hx as [j Hj].
  assert (j <> i) by congruence.
  destruct (decide (j < i)%nat).
  - apply list_elem_of_lookup. exists j. now rewrite list_lookup_delete_lt by lia.
  - apply list_elem_of_lookup. exists (pred j).
    rewrite list_lookup_delete_ge by lia. now replace (S (pred j)) with j by lia.
Qed.

Lemma fallbackLayer_elem index (rest : list ChatLayer.t) fb :
  fallbackLayer index rest = Some fb -> fb ∈ rest.
Proof.
  unfold fallbackLayer. intros H.
  destruct index as [|k].
  - eapply list_elem_of_lookup_2, H.
  - destruct (rest !! k) eqn:Hk.
    + injection H as <-. eapply list_elem_of_lookup_2, Hk.
    + eapply list_elem_of_lookup_2, H.
Qed.

Lemma wellFormed_removeChatLayer e id :
  wellFormed e -> wellFormed (removeChatLayer id e).
Proof.
  intros Hwf.
  destruct (Nat.leb_spec (length (Editor.chatLayers e)) 1) as [Hle|Hlt].
  { unfold removeChatLayer. apply Nat.leb_le in Hle. now rewrite Hle. }
  destruct (findIndex (hasId id) (Editor.chatLayers e)) as [index|] eqn:Hi.
  2:{ unfold removeChatLayer. rewrite Hi. now destruct (_ <=? _)%nat. }
  destruct (removeChatLayer_removes e id index Hlt Hi) as (fb & Hfb & ->).
  set (rest := delete index (Editor.chatLayers e)) in *.
  set (e1 := Editor.set_censoredRegions _ _).
  destruct (findIndex_Some _ _ _ Hi) as (x & Hx & Hp & _).
  unfold hasId in Hp. apply Z.eqb_eq in Hp.
  assert (Hids : layerIds e1 = delete index (layerIds e)).
  { unfold layerIds, e1. cbn. unfold rest. now rewrite list_fmap_delete. }
  assert (Hidx : layerIds e !! index = Some id).
  { unfold layerIds. rewrite list_lookup_fmap, Hx. cbn. now rewrite Hp. }
  assert (Hin : ChatLayer.id fb ∈ layerIds e1).
  { unfold layerIds. apply list_elem_of_fmap. exists fb. split; [reflexivity|].
    apply (fallbackLayer_elem index). exact Hfb. }
  destruct (skeleton_selectChatLayer e1 (ChatLayer.id fb))
    as (sid' & st & Hsk & _ & _ & Heq).
  { apply nonempty_layerIds. intros H. rewrite H in Hin. now apply elem_of_nil in Hin. }
  destruct (Heq Hin) as [-> ->].
  destruct Hwf as (Hnd & Hb & _ & Hr & Hs).
  apply (wellFormed_of _ _ _ _ _ _ Hsk); auto.
  - rewrite Hids. eapply sublist_NoDup; [exact Hnd|apply sublist_delete].
  - rewrite Hids. now apply Forall_delete.
  - rewrite Hids. unfold e1.
    cbn [Editor.censoredRegions Editor.set_censoredRegions Editor.set_chatLayers].
    apply Forall_forall. intros r Hin'. apply list_elem_of_In in Hin'.
    apply filter_In in Hin' as [Hin' Hnot].
    rewrite Forall_forall in Hr.
    apply (elem_of_delete_other _ index _ id); [|exact Hidx|].
    + apply Hr. now apply list_elem_of_In.
    + unfold notOfLayer in Hnot. apply negb_true_iff, Z.eqb_neq in Hnot. exact Hnot.
Qed.


Lemma swap_adjacent {A} (l : list A) : forall i a b,
  l !! i = Some a -> l !! S i = Some b ->
  l = List.firstn i l ++ a :: b :: List.skipn (S (S i)) l
  /\ <[S i := a]> (<[i := b]> l) = List.firstn i l ++ b :: a :: List.skipn (S (S i)) l.
Proof.
  induction l as [|x l IH]; intros [|i] a b Ha Hb; try discriminate.
  - destruct l as [|y l]; [discriminate|]. cbn in Ha, Hb.
    injection Ha as ->. injection Hb as ->. split; reflexivity.
  - cbn in Ha, Hb. destruct (IH i a b Ha Hb) as [H1 H2]. split.
    + cbn [List.firstn List.skipn app]. cbn [List.skipn] in H1. now rewrite <- H1.
    + cbn [List.firstn List.skipn app]. cbn [List.skipn] in H2. now rewrite <- H2.
Qed.

(** The layers after [moveChatLayer], when the layer and its neighbour
    exist. *)
Lemma moveChatLayer_down e id i a b :
  findIndex (hasId id) (Editor.chatLayers e) = Some i ->
  Editor.chatLayers e !! i = Some a -> Editor.chatLayers e !! S i = Some b ->
  moveChatLayer id down e
  = Editor.set_chatLayers (<[S i := a]> (<[i := b]> (Editor.chatLayers e))) e.
Proof.
  intros Hi Ha Hb. unfold moveChatLayer. rewrite Hi.
  pose proof (lookup_lt_Some _ _ _ Hb) as Hlt.
  destruct (Z.ltb_spec (Z.of_nat i + 1) 0); [lia|].
  destruct (Z.leb_spec (Z.of_nat (length (Editor.chatLayers e))) (Z.of_nat i + 1)); [lia|].
  cbn [orb]. replace (Z.to_nat (Z.of_nat i + 1)) with (S i) by lia.
  now rewrite Ha, Hb.
Qed.

Lemma moveChatLayer_up e id i a b :
  findIndex (hasId id) (Editor.chatLayers e) = Some (S i) ->
  Editor.chatLayers e !! i = Some a -> Editor.chatLayers e !! S i = Some b ->
  moveChatLayer id up e
  = Editor.set_chatLayers (<[S i := a]> (<[i := b]> (Editor.chatLayers e))) e.
Proof.
  intros Hi Ha Hb. unfold moveChatLayer. rewrite Hi.
  pose proof (lookup_lt_Some _ _ _ Hb) as Hlt.
  destruct (Z.ltb_spec (Z.of_nat (S i) - 1) 0); [lia|].
  destruct (Z.leb_spec (Z.of_nat (length (Editor.chatLayers e))) (Z.of_nat (S i) - 1));
    [lia|].
  cbn [orb]. replace (Z.to_nat (Z.of_nat (S i) - 1)) with i by lia.
  rewrite Ha, Hb. now rewrite list_insert_insert_ne by lia.
Qed.

Lemma moveChatLayer_cases e id d :
  moveChatLayer id d e = e
  \/ exists i a b,
       Editor.chatLayers e !! i = Some a /\ Editor.chatLayers e !! S i = Some b
       /\ moveChatLayer id d e
          = Editor.set_chatLayers (<[S i := a]> (<[i := b]> (Editor.chatLayers e))) e.
Proof.
  destruct (findIndex (hasId id) (Editor.chatLayers e)) as [i|] eqn:Hi.
  2:{ left. unfold moveChatLayer. now rewrite Hi. }
  destruct (findIndex_Some _ _ _ Hi) as (x & Hx & _).
  destruct d.
  - destruct i as [|k].
    + left. unfold moveChatLayer. rewrite Hi. reflexivity.
    + assert (is_Some (Editor.chatLayers e !! k)) as [y Hy].
      { apply lookup_lt_is_Some. apply lookup_lt_Some in Hx. lia. }
      right. exists k, y, x. split; [exact Hy|]. split; [exact Hx|].
      now apply moveChatLayer_up.
  - destruct (Editor.chatLayers e !! S i) as [y|] eqn:Hy.
    + right. exists i, x, y. split; [exact Hx|]. split; [exact Hy|].
      now apply moveChatLayer_down.
    + left. unfold moveChatLayer. rewrite Hi.
      apply lookup_ge_None in Hy.
      destruct (Z.leb_spec (Z.of_nat (length (Editor.chatLayers e))) (Z.of_nat i + 1));
        [|lia].
      now rewrite Bool.orb_true_r.
Qed.

Lemma swap_Permutation {A} (l : list A) i a b :
  l !! i = Some a -> l !! S i = Some b -> <[S i := a]> (<[i := b]> l) ≡ₚ l.
Proof.
  intros Ha Hb. destruct (swap_adjacent l i a b Ha Hb) as [H1 H2].
  rewrite H2. rewrite H1 at 3. apply Permutation_app_head. apply perm_swap.
Qed.

Lemma wellFormed_moveChatLayer e id d :
  wellFormed e -> wellFormed (moveChatLayer id d e).
Proof.
  intros Hwf. destruct (moveChatLayer_cases e id d) as [->|(i & a & b & Ha & Hb & ->)];
    [exact Hwf|].
  assert (Hp : layerIds (Editor.set_chatLayers
                           (<[S i := a]> (<[i := b]> (Editor.chatLayers e))) e)
               ≡ₚ layerIds e).
  { unfold layerIds. cbn [Editor.chatLayers Editor.set_chatLayers].
    now rewrite (swap_Permutation _ i a b Ha Hb). }
  destruct Hwf as (Hnd & Hbd & (sid & Hsel & Hsid) & Hr & Hs).
  unfold wellFormed.
  change (Editor.nextChatLayerId (Editor.set_chatLayers ?l e))
    with (Editor.nextChatLayerId e).
  change (Editor.selectedChatLayerId (Editor.set_chatLayers ?l e))
    with (Editor.selectedChatLayerId e).
  change (Editor.censoredRegions (Editor.set_chatLayers ?l e))
    with (Editor.censoredRegions e).
  change (Editor.selectedText (Editor.set_chatLayers ?l e))
    with (Editor.selectedText e).
  split; [now rewrite Hp|]. split; [now rewrite Hp|].
  split; [exists sid; split; [exact Hsel|now rewrite Hp]|].
  split.
  - eapply Forall_impl; [exact Hr|]. intros r Hin. now rewrite Hp.
  - destruct Hs as [Hs|Hs]; [now left|right; now rewrite Hp].
Qed.

Lemma skeleton_resetSession e :
  skeleton (resetSession e)
  = ([Editor.nextChatLayerId e], Editor.nextChatLayerId e + 1,
     Some (Editor.nextChatLayerId e), [], -1).
Proof.
  unfold resetSession.
  set (e' := set_parsedChatLines [] (set_chatlogText "" e)).
  assert (Hn : Editor.nextChatLayerId e' = Editor.nextChatLayerId e).
  { assert (H : skeleton e' = skeleton e)
      by (unfold e'; now rewrite skeleton_set_parsedChatLines, skeleton_set_chatlogText).
    unfold skeleton in H. congruence. }
  unfold skeleton, layerIds. cbn. now rewrite Hn.
Qed.

Lemma wellFormed_resetSession e : wellFormed e -> wellFormed (resetSession e).
Proof.
  intros (_ & Hb & (sid & _ & Hsid) & _).
  rewrite Forall_forall in Hb. specialize (Hb _ Hsid). cbn beta in Hb.
  apply (wellFormed_of _ _ _ _ _ _ (skeleton_resetSession e)).
  - apply NoDup_singleton.
  - constructor; [lia|constructor].
  - apply list_elem_of_singleton. reflexivity.
  - constructor.
  - now left.
Qed.

Lemma wellFormed_cycleCensorType e : wellFormed e -> wellFormed (cycleCensorType e).
Proof.
  intros Hwf. unfold cycleCensorType.
  destruct (Z.eqb_spec (SelectedText.lineIndex (Editor.selectedText e)) (-1)); [exact Hwf|].
  destruct (Z.eqb_spec (SelectedText.layerId (Editor.selectedText e)) (-1)) as [|Hsel];
    [exact Hwf|].
  destruct Hwf as (Hnd & Hb & Hsid & Hr & Hs).
  assert (Hin : SelectedText.layerId (Editor.selectedText e) ∈ layerIds e) by tauto.
  assert (Hwf : forall regs,
    Forall (fun r => CensoredRegion.layerId r ∈ layerIds e) regs ->
    wellFormed (bumpRenderKey (Editor.set_censoredRegions regs e))).
  { intros regs Hregs. unfold wellFormed. auto. }
  cbv zeta.
  destruct (findIndex _ (Editor.censoredRegions e)) as [k|] eqn:Hk.
  - destruct (Editor.censoredRegions e !! k) as [current|] eqn:Hcur;
      [|unfold wellFormed, bumpRenderKey; cbn; auto].
    assert (Hc : CensoredRegion.layerId current ∈ layerIds e).
    { rewrite Forall_forall in Hr. apply Hr. eapply list_elem_of_lookup_2, Hcur. }
    destruct (CensoredRegion.type current).
    + unfold wellFormed, bumpRenderKey; cbn; auto.
    + apply Hwf. apply Forall_insert; [exact Hr|exact Hc].
    + apply Hwf. apply Forall_insert; [exact Hr|exact Hc].
    + apply Hwf. now apply Forall_delete.
  - apply Hwf. apply Forall_app. split; [exact Hr|]. constructor; [exact Hin|constructor].
Qed.

Lemma wellFormed_handleTextSelection selection textarea e :
  wellFormed e -> wellFormed (handleTextSelection selection textarea e).
Proof.
  intros Hwf.
  assert (Hset : forall st,
    SelectedText.layerId st = -1 \/ SelectedText.layerId st ∈ layerIds e ->
    wellFormed (Editor.set_selectedText st e)).
  { intros st Hst. destruct Hwf as (Hnd & Hb & Hsid & Hr & Hs). unfold wellFormed. auto. }
  unfold handleTextSelection. cbv zeta.
  destruct selection as [sel|]; [|apply Hset; now left].
  destruct (isEmpty (trim sel)); [apply Hset; now left|].
  destruct textarea as [ta|]; [|exact Hwf].
  destruct (findSelectionLine _ _ _ _) as [[i lineStart]|]; [|exact Hwf].
  apply Hset. cbn [SelectedText.layerId].
  destruct (activeChatLayer e) as [a|] eqn:Ha; cbn; [|now left].
  destruct (activeChatLayer_lookup e a Ha) as [l Hl].
  unfold layerIdAt. rewrite Hl. cbn. right. now apply (elem_of_layerIds e a).
Qed.

Lemma skeleton_handleChatFileSelect fileType fileName content e :
  Editor.chatLayers e <> [] ->
  skeleton (handleChatFileSelect fileType fileName content e) = skeleton e.
Proof.
  intros Hne. unfold handleChatFileSelect.
  destruct (_ || _); [|reflexivity]. destruct content as [text|]; [|reflexivity].
  rewrite skeleton_parseChatlog, skeleton_set_chatlogText; [reflexivity|].
  eapply nonempty_skeleton; [apply skeleton_set_chatlogText|exact Hne].
Qed.

Lemma skeleton_handleChatWheel deltaY e : skeleton (handleChatWheel deltaY e) = skeleton e.
Proof.
  unfold handleChatWheel. cbv zeta. destruct (_ || _); [reflexivity|].
  now destruct (Qlt_le_dec deltaY 0).
Qed.

Lemma handleEvent_wellFormed e ev : wellFormed e -> wellFormed (handleEvent e ev).
Proof.
  intros Hwf. destruct ev; cbn [handleEvent].
  - now apply wellFormed_addChatLayer.
  - now apply wellFormed_selectChatLayer.
  - now apply wellFormed_removeChatLayer.
  - now apply wellFormed_moveChatLayer.
  - eapply wellFormed_skeleton; [|exact Hwf]. now apply skeleton_alterLayer.
  - eapply wellFormed_skeleton; [|exact Hwf]. now apply skeleton_alterLayer.
  - eapply wellFormed_skeleton; [|exact Hwf]. apply skeleton_set_chatlogText.
  - eapply wellFormed_skeleton; [|exact Hwf]. unfold clearChatlog.
    now rewrite skeleton_set_parsedChatLines, skeleton_set_chatlogText.
  - eapply wellFormed_skeleton; [|exact Hwf]. unfold parseChatlogOnEvent, bumpRenderKey.
    change (skeleton (Editor.set_renderKey ?k ?x)) with (skeleton x).
    apply skeleton_set_parsedChatLines.
  - eapply wellFormed_skeleton; [|exact Hwf]. apply skeleton_handleChatFileSelect.
    now apply wellFormed_nonempty.
  - now apply wellFormed_handleTextSelection.
  - now apply wellFormed_cycleCensorType.
  - eapply wellFormed_skeleton; [|exact Hwf]. apply skeleton_handleChatWheel.
  - now apply wellFormed_resetSession.
Qed.

Lemma wellFormed_bootstrap : wellFormed bootstrap.
Proof.
  apply (wellFormed_of bootstrap [1] 2 1 [] (-1)); try reflexivity.
  - apply NoDup_singleton.
  - constructor; [lia|constructor].
  - apply list_elem_of_singleton. reflexivity.
  - constructor.
  - now left.
Qed.

(** X14: The identities stay in order.  They are in order after the bootstrap,
    every event of the page keeps them in order, and so they are in order
    after any sequence of events: no two layers share an id, the selected
    id is the id of a layer of the store, and no censored region and no
    selection is left that refers to a layer that is gone. *)
Theorem identities_stay_in_order :
  wellFormed bootstrap
  /\ (forall e ev, wellFormed e -> wellFormed (handleEvent e ev))
  /\ (forall evs, wellFormed (fold_left handleEvent evs bootstrap)).
Proof.
  split; [exact wellFormed_bootstrap|]. split; [exact handleEvent_wellFormed|].
  intros evs.
  assert (H : forall e, wellFormed e -> wellFormed (fold_left handleEvent evs e)).
  { induction evs as [|ev evs IH]; intros e He; cbn; [exact He|].
    apply IH. now apply handleEvent_wellFormed. }
  apply H, wellFormed_bootstrap.
Qed.

End Identities.

(** ** The operations on the layers *)

Section LayerOperations.
Import JsString.

Lemma findIndex_intro {A} (p : A -> bool) (l : list A) : forall k x,
  l !! k = Some x -> p x = true ->
  (forall j y, (j < k)%nat -> l !! j = Some y -> p y = false) ->
  findIndex p l = Some k.
Proof.
  induction l as [|z l IH]; intros [|k] x Hx Hp Hlt; try discriminate; cbn in *.
  - injection Hx as ->. now rewrite Hp.
  - rewrite (Hlt 0%nat z) by (lia || reflexivity). 
    rewrite (IH k x Hx Hp); [reflexivity|].
    intros j y Hj Hy. apply (Hlt (S j)); [lia|exact Hy].
Qed.

Lemma swap_swap {A} (l : list A) i a b :
  l !! i = Some a -> l !! S i = Some b ->
  <[S i := b]> (<[i := a]> (<[S i := a]> (<[i := b]> l))) = l.
Proof.
  intros Ha Hb.
  rewrite (list_insert_insert_ne _ i (S i)) by lia.
  rewrite list_insert_insert_eq, list_insert_insert_eq.
  rewrite (list_insert_id l i a Ha). now apply list_insert_id.
Qed.

(** X15: [moveChatLayer] changes nothing but the order of the layers: the state
    after it is the state before it with the layers permuted. *)
Theorem moveChatLayer_permutes (id : Z) (d : direction) (e : Editor.t) :
  exists layers,
    moveChatLayer id d e = Editor.set_chatLayers layers e
    /\ layers ≡ₚ Editor.chatLayers e.
Proof.
  destruct (moveChatLayer_cases e id d) as [->|(i & a & b & Ha & Hb & ->)].
  - exists (Editor.chatLayers e). split; [now destruct e|reflexivity].
  - eexists. split; [reflexivity|]. now apply (swap_Permutation _ i a b).
Qed.

(** X16: With pairwise different ids, moving a layer that is not the last one
    down exchanges it with the layer after it, and moving it up again
    gives the state before the two moves. *)
Theorem moveChatLayer_round_trip (id : Z) (e : Editor.t) (i : nat) (a b : ChatLayer.t) :
  NoDup (layerIds e) ->
  findIndex (hasId id) (Editor.chatLayers e) = Some i ->
  Editor.chatLayers e !! i = Some a ->
  Editor.chatLayers e !! S i = Some b ->
  Editor.chatLayers (moveChatLayer id down e)
  = List.firstn i (Editor.chatLayers e) ++ b :: a
    :: List.skipn (S (S i)) (Editor.chatLayers e)
  /\ moveChatLayer id up (moveChatLayer id down e) = e.
Proof.
  intros Hnd Hi Ha Hb. rewrite (moveChatLayer_down e id i a b Hi Ha Hb).
  split.
  { cbn [Editor.chatLayers Editor.set_chatLayers]. now apply swap_adjacent. }
  set (l := Editor.chatLayers e) in *.
  set (l' := <[S i := a]> (<[i := b]> l)).
  pose proof (lookup_lt_Some _ _ _ Hb) as Hlt.
  destruct (findIndex_Some _ _ _ Hi) as (x & Hx & Hp & Hbefore).
  assert (x = a) as -> by congruence.
  assert (Hpb : hasId id b = false).
  { unfold hasId in *. apply Z.eqb_eq in Hp. apply Z.eqb_neq. intros Hb'.
    assert (Hids : forall j y, l !! j = Some y -> layerIds e !! j = Some (ChatLayer.id y)).
    { intros j y Hy. unfold layerIds. fold l. now rewrite list_lookup_fmap, Hy. }
    pose proof (NoDup_lookup _ i (S i) id Hnd) as Hinj.
    rewrite (Hids i a Ha), (Hids (S i) b Hb), Hp, Hb' in Hinj.
    specialize (Hinj eq_refl eq_refl). lia. }
  assert (Hi' : findIndex (hasId id) l' = Some (S i)).
  { apply (findIndex_intro _ _ (S i) a).
    - unfold l'. apply list_lookup_insert_eq. rewrite length_insert. exact Hlt.
    - exact Hp.
    - intros j y Hj Hy. unfold l' in Hy.
      rewrite list_lookup_insert_ne in Hy by lia.
      destruct (decide (j = i)) as [->|Hne].
      + rewrite list_lookup_insert_eq in Hy by lia. now injection Hy as <-.
      + rewrite list_lookup_insert_ne in Hy by lia.
        rewrite Forall_forall in Hbefore. apply Hbefore.
        apply list_elem_of_lookup. exists j. rewrite lookup_take_lt by lia. exact Hy. }
  rewrite (moveChatLayer_up _ id i b a).
  - cbn [Editor.chatLayers Editor.set_chatLayers]. fold l'. unfold l'.
    rewrite (swap_swap l i a b Ha Hb). unfold l. now destruct e.
  - exact Hi'.
  - cbn [Editor.chatLayers Editor.set_chatLayers]. fold l'. unfold l'.
    rewrite list_lookup_insert_ne by lia. apply list_lookup_insert_eq. lia.
  - cbn [Editor.chatLayers Editor.set_chatLayers]. fold l'. unfold l'.
    apply list_lookup_insert_eq. rewrite length_insert. exact Hlt.
Qed.

Lemma findIndex_fresh e :
  Editor.nextChatLayerId e ∉ layerIds e ->
  findIndex (hasId (Editor.nextChatLayerId e)) (Editor.chatLayers e) = None.
Proof.
  intros Hn. destruct (findIndex _ _) eqn:Hf; [|reflexivity].
  exfalso. apply Hn. apply findIndex_layerIds. eauto.
Qed.

(** X17: [addChatLayer], when the next id is the id of no layer: the new layer
    is put after the others, which stay as they are; it has the next id, a
    name made of its position, no text and no lines, and is shown; it is
    the selected layer, the selection is dropped, and the next id is one
    more. *)
Theorem addChatLayer_appends (e : Editor.t) :
  Editor.nextChatLayerId e ∉ layerIds e ->
  Editor.chatLayers (addChatLayer e) = Editor.chatLayers e ++ [freshLayer e]
  /\ skeleton (addChatLayer e)
     = (layerIds e ++ [Editor.nextChatLayerId e], Editor.nextChatLayerId e + 1,
        Some (Editor.nextChatLayerId e), Editor.censoredRegions e, -1)
  /\ activeChatLayer (addChatLayer e) = Some (length (Editor.chatLayers e)).
Proof.
  intros Hfresh. unfold addChatLayer, createChatLayer.
  cbn [ChatLayer.o_id ChatLayer.noOptions ChatLayer.o_name ChatLayer.o_text
       ChatLayer.o_parsedLines ChatLayer.o_transform ChatLayer.o_visible default].
  change (orElse "" ?d) with d. fold (freshLayer e).
  set (e1 := Editor.set_chatLayers (Editor.chatLayers e ++ [freshLayer e]) _).
  assert (Hat : layerIdAt (length (Editor.chatLayers e)) e1 = Some (Editor.nextChatLayerId e)).
  { unfold layerIdAt, e1. cbn [Editor.chatLayers Editor.set_chatLayers].
    now rewrite lookup_app_r, Nat.sub_diag by lia. }
  rewrite Hat.
  assert (Hi : findIndex (hasId (Editor.nextChatLayerId e)) (Editor.chatLayers e1)
               = Some (length (Editor.chatLayers e))).
  { unfold e1. cbn [Editor.chatLayers Editor.set_chatLayers].
    apply findIndex_app_last; [now apply findIndex_fresh|].
    unfold hasId, freshLayer. cbn. apply Z.eqb_refl. }
  assert (Hl : Editor.chatLayers e1 !! length (Editor.chatLayers e) = Some (freshLayer e)).
  { unfold e1. cbn [Editor.chatLayers Editor.set_chatLayers].
    now rewrite lookup_app_r, Nat.sub_diag by lia. }
  assert (Hlayers : Editor.chatLayers (selectChatLayer (Editor.nextChatLayerId e) e1)
                    = Editor.chatLayers e ++ [freshLayer e]).
  { rewrite (selectChatLayer_found e1 _ _ _ Hi Hl). reflexivity. }
  assert (Hids : layerIds e1 = layerIds e ++ [Editor.nextChatLayerId e]).
  { unfold layerIds, e1. cbn [Editor.chatLayers Editor.set_chatLayers].
    now rewrite fmap_app. }
  destruct (skeleton_selectChatLayer e1 (Editor.nextChatLayerId e))
    as (sid & st & Hsk & _ & _ & Heq).
  { apply nonempty_layerIds. rewrite Hids. now destruct (layerIds e). }
  destruct Heq as [-> ->]; [apply findIndex_layerIds; eauto|].
  split; [exact Hlayers|]. split.
  - rewrite Hsk, Hids. reflexivity.
  - unfold activeChatLayer.
    assert (Hsel : Editor.selectedChatLayerId (selectChatLayer (Editor.nextChatLayerId e) e1)
                   = Some (Editor.nextChatLayerId e)).
    { unfold skeleton in Hsk. congruence. }
    rewrite Hsel, Hlayers. unfold e1 in Hi. cbn [Editor.chatLayers Editor.set_chatLayers] in Hi.
    now rewrite Hi.
Qed.

End LayerOperations.

Section ParseAliasing.
Import JsString.

Lemma parseChatlog_None e a :
  activeChatLayer e = Some a -> parseChatlog None e = parseChatlog (Some a) e.
Proof. intros Ha. unfold parseChatlog. now rewrite Ha. Qed.

(** X18: A parse of a layer that is not the active layer also gives its lines
    to the active layer: the active layer keeps its text and its other
    fields, and carries the lines parsed from the text of the other layer. *)
Theorem parseChatlog_overwrites_active (e : Editor.t) (i a : nat)
    (l la : ChatLayer.t) :
  i <> a ->
  Editor.chatLayers e !! i = Some l ->
  Editor.chatLayers e !! a = Some la ->
  activeChatLayer e = Some a ->
  Editor.chatLayers (parseChatlog (Some i) e) !! a
  = Some (ChatLayer.set_parsedLines
            (parseText (Editor.stripTimestamps e) (Editor.characterName e)
                       (ChatLayer.text l)) la).
Proof.
  intros Hne Hl Hla Ha.
  destruct (parseChatlog_layers e i l Hl) as (a' & Ha' & ->).
  assert (a' = a) as -> by congruence.
  rewrite list_lookup_alter_eq, list_lookup_alter_ne by congruence.
  now rewrite Hla.
Qed.


(** X20: A chat file of type [text/plain] or with a name ending in [.txt]
    replaces the text of the active layer by the content of the file, gives
    the layer the lines parsed from it, and shows the layer. *)
Theorem handleChatFileSelect_imports (fileType fileName text : string)
    (e : Editor.t) (a : nat) (la : ChatLayer.t) :
  String.eqb fileType "text/plain" || endsWith ".txt" fileName = true ->
  activeChatLayer e = Some a ->
  Editor.chatLayers e !! a = Some la ->
  Editor.chatLayers (handleChatFileSelect fileType fileName (Some text) e) !! a
  = Some (parsedLayer (parseText (Editor.stripTimestamps e) (Editor.characterName e) text)
                      (ChatLayer.set_text text la)).
Proof.
  intros Hok Ha Hla. unfold handleChatFileSelect. rewrite Hok.
  set (e1 := set_chatlogText text e).
  assert (He1 : e1 = alterLayer a (ChatLayer.set_text text) e).
  { unfold e1, set_chatlogText. now rewrite Ha. }
  assert (Ha1 : activeChatLayer e1 = Some a).
  { rewrite He1, activeChatLayer_alterLayer by reflexivity. exact Ha. }
  assert (Hl1 : Editor.chatLayers e1 !! a = Some (ChatLayer.set_text text la)).
  { rewrite He1. unfold alterLayer. cbn [Editor.chatLayers Editor.set_chatLayers].
    now rewrite list_lookup_alter_eq, Hla. }
  rewrite (parseChatlog_None e1 a Ha1), (parseChatlog_target e1 a _ Hl1).
  rewrite He1. reflexivity.
Qed.

End ParseAliasing.

Section RestoreFacts.
Import JsString.

Lemma settings_createChatLayer options e :
  Editor.stripTimestamps (snd (createChatLayer options e)) = Editor.stripTimestamps e
  /\ Editor.characterName (snd (createChatLayer options e)) = Editor.characterName e
  /\ Editor.selectedChatLayerId (snd (createChatLayer options e))
     = Editor.selectedChatLayerId e.
Proof. unfold createChatLayer. now destruct (ChatLayer.o_id options). Qed.

Lemma createChatLayer_layers options e :
  exists layer,
    fst (createChatLayer options e) = length (Editor.chatLayers e)
    /\ Editor.chatLayers (snd (createChatLayer options e)) = Editor.chatLayers e ++ [layer]
    /\ ChatLayer.text layer = default "" (ChatLayer.o_text options)
    /\ ChatLayer.id layer = default (Editor.nextChatLayerId e) (ChatLayer.o_id options).
Proof.
  unfold createChatLayer. destruct (ChatLayer.o_id options); eexists; cbn; eauto.
Qed.

Lemma activeChatLayer_first e s l0 :
  Editor.selectedChatLayerId e = Some s ->
  Editor.chatLayers e !! 0%nat = Some l0 -> ChatLayer.id l0 = s ->
  activeChatLayer e = Some 0%nat.
Proof.
  intros Hs Hl Hid. unfold activeChatLayer. rewrite Hs.
  destruct (Editor.chatLayers e) as [|x l]; [discriminate|].
  injection Hl as ->. cbn. unfold hasId. now rewrite Hid, Z.eqb_refl.
Qed.

(** One turn of the loop of [loadEditorState] when the first layer of the
    store has the selected id. *)
Lemma restoreLayers_step layer e s l0 :
  Editor.selectedChatLayerId e = Some s ->
  Editor.chatLayers e !! 0%nat = Some l0 -> ChatLayer.id l0 = s ->
  let e1 := snd (createChatLayer (layerOptions layer) e) in
  let e2 := parseChatlog (Some (fst (createChatLayer (layerOptions layer) e))) e1 in
  let p := parseText (Editor.stripTimestamps e) (Editor.characterName e)
                     (savedText layer) in
  Editor.chatLayers e2 !! 0%nat = Some (ChatLayer.set_parsedLines p l0)
  /\ Editor.selectedChatLayerId e2 = Some s
  /\ Editor.stripTimestamps e2 = Editor.stripTimestamps e
  /\ Editor.characterName e2 = Editor.characterName e.
Proof.
  intros Hs Hl Hid e1 e2 p.
  destruct (createChatLayer_layers (layerOptions layer) e) as (new & Hi & Hlay & Htext & _).
  destruct (settings_createChatLayer (layerOptions layer) e) as (Hst & Hname & Hsel).
  fold e1 in Hlay, Hst, Hname, Hsel.
  assert (Hlen : (0 < length (Editor.chatLayers e))%nat) by now apply lookup_lt_Some in Hl.
  assert (Hnew : Editor.chatLayers e1 !! length (Editor.chatLayers e) = Some new).
  { now rewrite Hlay, lookup_app_r, Nat.sub_diag by lia. }
  assert (Hl1 : Editor.chatLayers e1 !! 0%nat = Some l0).
  { now rewrite Hlay, lookup_app_l by lia. }
  assert (Ha1 : activeChatLayer e1 = Some 0%nat).
  { apply (activeChatLayer_first e1 s l0); congruence. }
  unfold e2. rewrite Hi.
  destruct (parseChatlog_settings e1 (Some (length (Editor.chatLayers e)))) as [H1 H2].
  split; [|split; [|split; congruence]].
  - destruct (parseChatlog_layers e1 _ new Hnew) as (a & Ha & ->).
    assert (a = 0%nat) as -> by congruence.
    rewrite list_lookup_alter_eq, list_lookup_alter_ne, Hl1 by lia.
    cbn. unfold p, savedText. cbn [layerOptions ChatLayer.o_text] in Htext.
    now rewrite Htext, Hst, Hname.
  - assert (Hsk : skeleton (parseChatlog (Some (length (Editor.chatLayers e))) e1)
                  = skeleton e1).
    { apply skeleton_parseChatlog. rewrite Hlay. now destruct (Editor.chatLayers e). }
    unfold skeleton in Hsk. congruence.
Qed.

Lemma last_cons {A} (r : list A) : forall x d, List.last (x :: r) d = List.last r x.
Proof.
  induction r as [|y r IH]; intros x d; [reflexivity|].
  change (List.last (x :: y :: r) d) with (List.last (y :: r) d).
  now rewrite !IH.
Qed.

Lemma restoreLayers_rest rest : forall e s l0 lastText,
  Editor.selectedChatLayerId e = Some s ->
  Editor.chatLayers e !! 0%nat = Some l0 -> ChatLayer.id l0 = s ->
  ChatLayer.parsedLines l0
  = parseText (Editor.stripTimestamps e) (Editor.characterName e) lastText ->
  exists l0',
    Editor.chatLayers (restoreLayers rest e) !! 0%nat = Some l0'
    /\ ChatLayer.id l0' = ChatLayer.id l0
    /\ ChatLayer.text l0' = ChatLayer.text l0
    /\ ChatLayer.parsedLines l0'
       = parseText (Editor.stripTimestamps e) (Editor.characterName e)
                   (List.last (savedText <$> rest) lastText).
Proof.
  induction rest as [|layer rest IH]; intros e s l0 lastText Hs Hl Hid Hp.
  - exists l0. cbn. auto.
  - cbn [restoreLayers].
    pose proof (restoreLayers_step layer e s l0 Hs Hl Hid) as Hstep. cbv zeta in Hstep.
    destruct (createChatLayer (layerOptions layer) e) as [i e1]. cbn [fst snd] in Hstep.
    destruct Hstep as (H0 & Hsel & Hst & Hname).
    set (e2 := parseChatlog (Some i) e1) in *.
    set (e3 := match layerIdAt i e2 with
               | Some id => Editor.set_nextChatLayerId
                              (Z.max (Editor.nextChatLayerId e2) (id + 1)) e2
               | None => e2
               end).
    assert (H3 : Editor.chatLayers e3 = Editor.chatLayers e2
                 /\ Editor.selectedChatLayerId e3 = Editor.selectedChatLayerId e2
                 /\ Editor.stripTimestamps e3 = Editor.stripTimestamps e2
                 /\ Editor.characterName e3 = Editor.characterName e2).
    { unfold e3. now destruct (layerIdAt i e2). }
    destruct H3 as (Hc3 & Hs3 & Hst3 & Hn3).
    destruct (IH e3 s (ChatLayer.set_parsedLines
                         (parseText (Editor.stripTimestamps e) (Editor.characterName e)
                                    (savedText layer)) l0)
                 (savedText layer)) as (l0' & Hl0' & Hid' & Htext' & Hp').
    + congruence.
    + rewrite Hc3. exact H0.
    + exact Hid.
    + rewrite Hst3, Hn3, Hst, Hname. reflexivity.
    + exists l0'. split; [exact Hl0'|]. split; [exact Hid'|]. split; [exact Htext'|].
      rewrite Hp', Hst3, Hn3, Hst, Hname. f_equal.
      change (savedText <$> layer :: rest) with (savedText layer :: (savedText <$> rest)).
      now rewrite last_cons.
Qed.

(** X21: The loop of [loadEditorState] that restores the layers, when the store
    is empty and the first saved layer has the selected id: after the loop
    the first layer has its own id and its own text, but the lines parsed
    from the text of the last saved layer, because every parse of a
    restored layer also writes the lines of the active layer. *)
Theorem restoreLayers_first_layer_lines (first : Saved.layer) (rest : list Saved.layer)
    (s : Z) (e : Editor.t) :
  Editor.chatLayers e = [] ->
  Editor.selectedChatLayerId e = Some s ->
  Saved.l_id first = Some s ->
  exists l0,
    Editor.chatLayers (restoreLayers (first :: rest) e) !! 0%nat = Some l0
    /\ ChatLayer.id l0 = s
    /\ ChatLayer.text l0 = savedText first
    /\ ChatLayer.parsedLines l0
       = parseText (Editor.stripTimestamps e) (Editor.characterName e)
                   (List.last (savedText <$> rest) (savedText first)).
Proof.
  intros Hnil Hs Hid. cbn [restoreLayers].
  destruct (createChatLayer_layers (layerOptions first) e) as (new & Hi & Hlay & Htext & Hnid).
  destruct (settings_createChatLayer (layerOptions first) e) as (Hst & Hname & Hsel).
  destruct (createChatLayer (layerOptions first) e) as [i e1]. cbn [fst snd] in *.
  rewrite Hnil in Hi, Hlay. cbn in Hi, Hlay. subst i.
  cbn [layerOptions ChatLayer.o_id ChatLayer.o_text] in Htext, Hnid.
  rewrite Hid in Hnid. cbn in Hnid.
  assert (Hnew : Editor.chatLayers e1 !! 0%nat = Some new) by now rewrite Hlay.
  set (p := parseText (Editor.stripTimestamps e) (Editor.characterName e) (savedText first)).
  set (e2 := parseChatlog (Some 0%nat) e1).
  assert (H2 : Editor.chatLayers e2 !! 0%nat = Some (parsedLayer p new)).
  { unfold e2. rewrite (parseChatlog_target e1 0 new Hnew). unfold p, savedText.
    now rewrite Htext, Hst, Hname. }
  destruct (parseChatlog_settings e1 (Some 0%nat)) as [Hst2 Hn2]. fold e2 in Hst2, Hn2.
  assert (Hs2 : Editor.selectedChatLayerId e2 = Some s).
  { assert (Hsk : skeleton e2 = skeleton e1).
    { apply skeleton_parseChatlog. now rewrite Hlay. }
    unfold skeleton in Hsk. congruence. }
  set (e3 := match layerIdAt 0 e2 with
             | Some id => Editor.set_nextChatLayerId
                            (Z.max (Editor.nextChatLayerId e2) (id + 1)) e2
             | None => e2
             end).
  assert (H3 : Editor.chatLayers e3 = Editor.chatLayers e2
               /\ Editor.selectedChatLayerId e3 = Editor.selectedChatLayerId e2
               /\ Editor.stripTimestamps e3 = Editor.stripTimestamps e2
               /\ Editor.characterName e3 = Editor.characterName e2).
  { unfold e3. now destruct (layerIdAt 0 e2). }
  destruct H3 as (Hc3 & Hs3 & Hst3 & Hn3).
  destruct (restoreLayers_rest rest e3 s (parsedLayer p new) (savedText first))
    as (l0 & Hl0 & Hid0 & Htext0 & Hp0).
  - congruence.
  - rewrite Hc3. exact H2.
  - exact Hnid.
  - cbn. unfold p. congruence.
  - exists l0. split; [exact Hl0|]. split; [now rewrite Hid0|].
    split; [rewrite Htext0; exact Htext|].
    rewrite Hp0. congruence.
Qed.

End RestoreFacts.

(** ** The characters of the file name *)

Section FilenameSafety.
Import JsString.

Lemma allChars_filterChars p s : allChars p (filterChars p s) = true.
Proof.
  induction s as [|c r IH]; [reflexivity|]. cbn [filterChars].
  destruct (p c) eqn:Hp; [|exact IH]. cbn [allChars]. now rewrite Hp.
Qed.

Lemma allChars_trimStart p s : allChars p s = true -> allChars p (trimStart s) = true.
Proof.
  induction s as [|c r IH]; [reflexivity|]. cbn [trimStart allChars]. intros H.
  apply andb_prop in H as [Hc Hr]. destruct (isWhiteSpace c); [now apply IH|].
  cbn [allChars]. now rewrite Hc.
Qed.

Lemma allChars_trimEnd p s : allChars p s = true -> allChars p (trimEnd s) = true.
Proof.
  induction s as [|c r IH]; [reflexivity|]. cbn [trimEnd allChars]. intros H.
  apply andb_prop in H as [Hc Hr]. destruct (isWhiteSpace c && isEmpty (trimEnd r));
    [reflexivity|]. cbn [allChars]. now rewrite Hc, IH.
Qed.

Lemma allChars_trim p s : allChars p s = true -> allChars p (trim s) = true.
Proof. intros H. unfold trim. now apply allChars_trimEnd, allChars_trimStart. Qed.

Lemma isSafeChar_theme c :
  isThemeChar c = true -> isWhiteSpace c = false -> isSafeChar c = true.
Proof.
  unfold isThemeChar, isSafeChar. intros H Hw. rewrite Hw in H.
  now rewrite Bool.orb_false_r in H.
Qed.

Lemma allChars_hyphenate s :
  allChars isThemeChar s = true -> allChars isSafeChar (hyphenate s) = true.
Proof.
  induction s as [|c r IH]; [reflexivity|]. cbn [allChars]. intros H.
  apply andb_prop in H as [Hc Hr]. specialize (IH Hr). rewrite hyphenate_cons.
  destruct (isWhiteSpace c) eqn:Hw.
  - destruct r as [|d r']; [reflexivity|].
    destruct (isWhiteSpace d); [exact IH|]. cbn [allChars]. now rewrite IH.
  - cbn [allChars]. now rewrite IH, (isSafeChar_theme c Hc Hw).
Qed.

Lemma safeTheme_hyphenate s :
  safeTheme s = hyphenate (trim (filterChars isThemeChar (trim s))).
Proof. unfold safeTheme. now rewrite replace_unsafeChars, replace_whitespaceRun. Qed.

Lemma allChars_impl (p q : ascii -> bool) s :
  (forall c, p c = true -> q c = true) -> allChars p s = true -> allChars q s = true.
Proof.
  intros Hpq. induction s as [|c r IH]; [reflexivity|]. cbn [allChars]. intros H.
  apply andb_prop in H as [Hc Hr]. now rewrite (Hpq c Hc), IH.
Qed.

Lemma allChars_repeat p c n : p c = true -> allChars p (repeat c n) = true.
Proof. intros Hc. induction n as [|n IH]; [reflexivity|]. cbn. now rewrite Hc, IH. Qed.

Lemma allChars_string_of_uint d :
  allChars isDigit (NilEmpty.string_of_uint d) = true.
Proof. induction d; cbn; auto. Qed.

Lemma allChars_pad n : allChars isFilenameChar (pad n) = true.
Proof.
  unfold pad, padStart. rewrite allChars_app. apply andb_true_intro. split.
  - now apply allChars_repeat.
  - apply (allChars_impl isDigit); [|apply allChars_string_of_uint].
    intros c Hc. unfold isFilenameChar, isSafeChar. rewrite Hc.
    now rewrite !Bool.orb_true_r.
Qed.

(** X22: The sanitised theme holds only letters, digits, underscores and
    hyphens, and so does every character of the name of the exported file
    apart from the spaces and the dot that the name itself puts: whatever
    the theme, the name holds no path separator. *)
Theorem buildScreenshotFilename_chars (now : Date.t) (screenshotTheme : string) :
  allChars isSafeChar (safeTheme screenshotTheme) = true
  /\ allChars isFilenameChar (buildScreenshotFilename now screenshotTheme) = true.
Proof.
  assert (Hsafe : allChars isSafeChar (safeTheme screenshotTheme) = true).
  { rewrite safeTheme_hyphenate. apply allChars_hyphenate, allChars_trim,
      allChars_filterChars. }
  split; [exact Hsafe|]. unfold buildScreenshotFilename. cbv zeta.
  rewrite !allChars_app, !allChars_pad.
  assert (Hyear : allChars isFilenameChar (toString (Date.fullYear now)) = true).
  { apply (allChars_impl isDigit); [|apply allChars_string_of_uint].
    intros c Hc. unfold isFilenameChar, isSafeChar. rewrite Hc.
    now rewrite !Bool.orb_true_r. }
  rewrite Hyear.
  assert (Htheme : allChars isFilenameChar (orElse (safeTheme screenshotTheme) "screenshot")
                   = true).
  { unfold orElse. destruct (truthy (safeTheme screenshotTheme)); [|reflexivity].
    apply (allChars_impl isSafeChar); [|exact Hsafe].
    intros c Hc. unfold isFilenameChar. now rewrite Hc. }
  rewrite Htheme. reflexivity.
Qed.

End FilenameSafety.

(** ** The selection, the zoom and the drag modes *)

Section SelectionFacts.
Import JsString.

Lemma join_terminated (lines : list string) : forall k line,
  lines !! k = Some line ->
  exists post,
    join (String nl "") lines = terminated (List.firstn k lines) +:+ line +:+ post.
Proof.
  induction lines as [|x lines IH]; intros [|k] line Hk; try discriminate.
  - injection Hk as ->. cbn [List.firstn terminated].
    destruct lines as [|y r].
    + exists "". now rewrite append_nil_l, append_empty_r.
    + exists (String nl "" +:+ join (String nl "") (y :: r)).
      now rewrite append_nil_l.
  - cbn in Hk. destruct (IH k line Hk) as [post Hpost]. exists post.
    cbn [List.firstn terminated].
    destruct lines as [|y r]; [discriminate|].
    rewrite join_cons by discriminate. rewrite Hpost.
    rewrite !append_assoc. reflexivity.
Qed.

Lemma findSelectionLine_locates (lines : list string) : forall i currentPos pos,
  lines <> [] ->
  currentPos <= pos <= currentPos + len (join (String nl "") lines) ->
  exists k line,
    lines !! k = Some line
    /\ findSelectionLine lines i currentPos pos
       = Some (i + Z.of_nat k, currentPos + len (terminated (List.firstn k lines)))
    /\ currentPos + len (terminated (List.firstn k lines)) <= pos
       <= currentPos + len (terminated (List.firstn k lines)) + len line.
Proof.
  induction lines as [|x lines IH]; intros i cur pos Hne Hpos; [congruence|].
  cbn [findSelectionLine]. cbv zeta.
  destruct (Z.leb_spec cur pos) as [_|]; [|lia].
  destruct (Z.ltb_spec pos (cur + (len x + 1))) as [Hlt|Hge]; cbn [andb].
  - exists 0%nat, x. cbn [List.firstn terminated]. change (len "") with 0.
    split; [reflexivity|]. split; [f_equal; f_equal; lia|lia].
  - destruct lines as [|y r].
    { cbn [join] in Hpos. lia. }
    rewrite join_cons in Hpos by discriminate.
    rewrite !len_append in Hpos. change (len (String nl "")) with 1 in Hpos.
    destruct (IH (i + 1) (cur + (len x + 1)) pos) as (k & line & Hk & Hf & Hr);
      [discriminate|lia|].
    exists (S k), line. split; [exact Hk|].
    cbn [List.firstn terminated]. rewrite Hf.
    assert (Hlen : len (x +:+ String nl (terminated (List.firstn k (y :: r))))
                   = len x + 1 + len (terminated (List.firstn k (y :: r)))).
    { rewrite len_append. unfold len at 2. cbn [String.length]. unfold len. lia. }
    rewrite Hlen. split; [f_equal; f_equal; lia|lia].
Qed.

(** X23: [handleTextSelection], for a selection with visible text that starts
    inside the text of the text area, records the line of the text area
    that holds the start of the selection, the offsets of the selection
    counted from the start of that line, and the trimmed text.  The lines
    are the lines of the text area, blank lines included. *)
Theorem handleTextSelection_locates (sel : string) (ta : TextArea.t) (e : Editor.t) :
  isEmpty (trim sel) = false ->
  0 <= TextArea.selectionStart ta <= len (TextArea.value ta) ->
  exists (i : nat) (line post : string),
    let lines := split nl (TextArea.value ta) in
    let pre := terminated (List.firstn i lines) in
    lines !! i = Some line
    /\ TextArea.value ta = pre +:+ line +:+ post
    /\ len pre <= TextArea.selectionStart ta <= len pre + len line
    /\ Editor.selectedText (handleTextSelection (Some sel) (Some ta) e)
       = SelectedText.mk (default (-1) (activeChatLayer e ≫= fun a => layerIdAt a e))
                         (Z.of_nat i)
                         (TextArea.selectionStart ta - len pre)
                         (TextArea.selectionEnd ta - len pre)
                         (trim sel).
Proof.
  intros Hsel Hpos.
  destruct (findSelectionLine_locates (split nl (TextArea.value ta)) 0 0
              (TextArea.selectionStart ta)) as (k & line & Hk & Hf & Hr).
  - apply split_not_nil.
  - now rewrite join_split.
  - destruct (join_terminated _ k line Hk) as [post Hpost]. rewrite join_split in Hpost.
    exists k, line, post. cbv zeta. split; [exact Hk|]. split; [exact Hpost|].
    split; [lia|]. unfold handleTextSelection. cbv zeta. rewrite Hsel, Hf.
    cbn [Editor.selectedText Editor.set_selectedText]. f_equal; lia.
Qed.

End SelectionFacts.

Section ZoomFacts.

Lemma Qmin_inRange lo hi x :
  (lo <= hi)%Q -> (lo <= x)%Q -> inRange lo hi (Qmin hi x).
Proof.
  intros H1 H2. split; [now apply Q.min_glb|apply Q.le_min_l].
Qed.

Lemma Qmax_inRange lo hi x :
  (lo <= hi)%Q -> (x <= hi)%Q -> inRange lo hi (Qmax lo x).
Proof.
  intros H1 H2. split; [apply Q.le_max_l|now apply Q.max_lub].
Qed.

(** X24: The wheel keeps the zoom in its range: with the scales taken as
    rationals, a scale of the image between 0.1 and 10 stays there under
    [handleWheel], and a scale of the chat between 0.5 and 3 stays there
    under [handleChatWheel]; the positions are not changed. *)
Theorem wheel_keeps_zoom_in_range (deltaY : Q) :
  (forall c,
     inRange (1 # 10) 10 (Transform.scale (Canvas.imageTransform c)) ->
     let t := Canvas.imageTransform c in
     let t' := Canvas.imageTransform (handleWheel deltaY c) in
     inRange (1 # 10) 10 (Transform.scale t')
     /\ Transform.x t' = Transform.x t /\ Transform.y t' = Transform.y t)
  /\ (forall e,
        inRange (1 # 2) 3 (Transform.scale (Editor.chatTransform e)) ->
        let t := Editor.chatTransform e in
        let t' := Editor.chatTransform (handleChatWheel deltaY e) in
        inRange (1 # 2) 3 (Transform.scale t')
        /\ Transform.x t' = Transform.x t /\ Transform.y t' = Transform.y t).
Proof.
  split.
  - intros c [Hlo Hhi] t t'. unfold t', handleWheel. cbv zeta.
    destruct (_ || _); [now repeat split|].
    destruct (Qlt_le_dec deltaY 0); cbn; (split; [|split; reflexivity]).
    + apply Qmin_inRange; [discriminate|].
      apply Qle_trans with (Transform.scale (Canvas.imageTransform c)); [exact Hlo|].
      rewrite <- (Qplus_0_r (Transform.scale _)) at 1.
      apply Qplus_le_r. discriminate.
    + apply Qmax_inRange; [discriminate|].
      apply Qle_trans with (Transform.scale (Canvas.imageTransform c)); [|exact Hhi].
      rewrite <- (Qplus_0_r (Transform.scale (Canvas.imageTransform c))) at 2.
      apply Qplus_le_r. discriminate.
  - intros e [Hlo Hhi] t t'. unfold t', handleChatWheel. cbv zeta.
    destruct (_ || _); [now repeat split|].
    destruct (Qlt_le_dec deltaY 0); cbn; (split; [|split; reflexivity]).
    + apply Qmin_inRange; [discriminate|].
      apply Qle_trans with (Transform.scale (Editor.chatTransform e)); [exact Hlo|].
      rewrite <- (Qplus_0_r (Transform.scale _)) at 1.
      apply Qplus_le_r. discriminate.
    + apply Qmax_inRange; [discriminate|].
      apply Qle_trans with (Transform.scale (Editor.chatTransform e)); [|exact Hhi].
      rewrite <- (Qplus_0_r (Transform.scale (Editor.chatTransform e))) at 2.
      apply Qplus_le_r. discriminate.
Qed.

(** X25: After either drag button the two drag modes are not both on, whatever
    they were before; the button pressed inverts its own mode. *)
Theorem drag_modes_exclusive (c : Canvas.t) :
  (Canvas.isImageDraggingEnabled (toggleImageDrag c)
   && Canvas.isChatDraggingEnabled (toggleImageDrag c) = false
   /\ Canvas.isImageDraggingEnabled (toggleImageDrag c)
      = negb (Canvas.isImageDraggingEnabled c))
  /\ (Canvas.isImageDraggingEnabled (toggleChatDrag c)
      && Canvas.isChatDraggingEnabled (toggleChatDrag c) = false
      /\ Canvas.isChatDraggingEnabled (toggleChatDrag c)
         = negb (Canvas.isChatDraggingEnabled c)).
Proof.
  unfold toggleImageDrag, toggleChatDrag, set_dragFlags. cbn.
  now destruct (Canvas.isImageDraggingEnabled c), (Canvas.isChatDraggingEnabled c).
Qed.

End ZoomFacts.

(** ** The saved session *)

Section RoundTrip.
Import JsString.

Lemma fmap_alter_fixed {B} (g : ChatLayer.t -> B) (f : ChatLayer.t -> ChatLayer.t) i
    (l : list ChatLayer.t) :
  (forall x, g (f x) = g x) -> g <$> alter f i l = g <$> l.
Proof.
  intros Hf. revert i. induction l as [|x l IH]; intros [|i]; cbn; try reflexivity.
  - now rewrite Hf.
  - f_equal. apply IH.
Qed.

Lemma Forall_alter_visible (f : ChatLayer.t -> ChatLayer.t) i (l : list ChatLayer.t) :
  (forall x, ChatLayer.visible x = true -> ChatLayer.visible (f x) = true) ->
  Forall (fun x => ChatLayer.visible x = true) l ->
  Forall (fun x => ChatLayer.visible x = true) (alter f i l).
Proof.
  intros Hf H. revert i. induction H as [|x l Hx Hl IH]; intros [|i]; cbn;
    constructor; auto.
Qed.

Lemma loadRegion_saveRegion activeId r : loadRegion activeId (saveRegion r) = r.
Proof. now destruct r. Qed.

Lemma settings_selectChatLayer id e :
  Editor.stripTimestamps (selectChatLayer id e) = Editor.stripTimestamps e
  /\ Editor.characterName (selectChatLayer id e) = Editor.characterName e.
Proof.
  assert (Hsp : forall v x,
    Editor.stripTimestamps (set_parsedChatLines v x) = Editor.stripTimestamps x
    /\ Editor.characterName (set_parsedChatLines v x) = Editor.characterName x).
  { intros v x. unfold set_parsedChatLines. now destruct (activeChatLayer x). }
  assert (Hst : forall v x,
    Editor.stripTimestamps (set_chatlogText v x) = Editor.stripTimestamps x
    /\ Editor.characterName (set_chatlogText v x) = Editor.characterName x).
  { intros v x. unfold set_chatlogText. now destruct (activeChatLayer x). }
  unfold selectChatLayer. destruct (findIndex _ _) as [i|].
  - cbv zeta.
    set (e1 := Editor.set_selectedChatLayerId (Some id) e).
    set (e2 := if match Editor.chatLayers e1 !! i with
                  | Some layer => truthy (ChatLayer.text layer)
                                  && isNil (ChatLayer.parsedLines layer)
                  | None => false
                  end
               then parseChatlog (Some i) e1 else e1).
    assert (H2 : Editor.stripTimestamps e2 = Editor.stripTimestamps e
                 /\ Editor.characterName e2 = Editor.characterName e).
    { subst e2. destruct (match _ !! _ with Some _ => _ | None => _ end);
        [apply (parseChatlog_settings e1)|now split]. }
    destruct (Editor.chatLayers e2 !! i) as [layer|]; [|exact H2].
    cbn [Editor.stripTimestamps Editor.characterName Editor.set_selectedText
         Editor.set_chatTransform].
    destruct (Hsp (ChatLayer.parsedLines layer) (set_chatlogText (ChatLayer.text layer) e2))
      as [-> ->].
    destruct (Hst (ChatLayer.text layer) e2) as [-> ->]. exact H2.
  - unfold ensureActiveLayer. destruct (activeChatLayer e) as [a|].
    + destruct (Editor.chatLayers e !! a) as [fb|]; [|now split].
      cbn [Editor.stripTimestamps Editor.characterName Editor.set_chatTransform].
      destruct (Hst (ChatLayer.text fb)
                  (set_parsedChatLines (ChatLayer.parsedLines fb)
                     (Editor.set_selectedChatLayerId (Some (ChatLayer.id fb)) e)))
        as [-> ->].
      now destruct (Hsp (ChatLayer.parsedLines fb)
                      (Editor.set_selectedChatLayerId (Some (ChatLayer.id fb)) e))
        as [-> ->].
    + match goal with
      | |- context [createChatLayer ?o e] =>
          pose proof (settings_createChatLayer o e) as (H1 & H2 & _);
          destruct (createChatLayer o e) as [i e1]
      end.
      cbn [fst snd] in *.
      destruct (Editor.chatLayers _ !! i) as [fb|]; [|now split].
      cbn [Editor.stripTimestamps Editor.characterName Editor.set_chatTransform].
      match goal with
      | |- context [set_chatlogText ?v ?x] => destruct (Hst v x) as [-> ->]
      end.
      match goal with
      | |- context [set_parsedChatLines ?v ?x] => destruct (Hsp v x) as [-> ->]
      end.
      now split.
Qed.

(** The loop of [loadEditorState] on the layers that [saveEditorState]
    wrote. *)
Lemma restoreLayers_saved (layers : list ChatLayer.t) : forall e,
  Forall (fun x => ChatLayer.visible x = true) (Editor.chatLayers e) ->
  let e' := restoreLayers (saveLayer <$> layers) e in
  savedFields <$> Editor.chatLayers e'
  = (savedFields <$> Editor.chatLayers e) ++ (savedFields <$> layers)
  /\ Forall (fun x => ChatLayer.visible x = true) (Editor.chatLayers e')
  /\ Editor.censoredRegions e' = Editor.censoredRegions e
  /\ Editor.selectedChatLayerId e' = Editor.selectedChatLayerId e
  /\ Editor.stripTimestamps e' = Editor.stripTimestamps e
  /\ Editor.characterName e' = Editor.characterName e
  /\ Editor.nextChatLayerId e <= Editor.nextChatLayerId e'
  /\ Forall (fun x => ChatLayer.id x < Editor.nextChatLayerId e') layers.
Proof.
  induction layers as [|l layers IH]; intros e Hvis.
  - cbn. rewrite app_nil_r. repeat split; auto; lia.
  - cbv zeta. change (saveLayer <$> l :: layers) with (saveLayer l :: (saveLayer <$> layers)).
    cbn [restoreLayers].
    destruct (createChatLayer_layers (layerOptions (saveLayer l)) e)
      as (new & Hi & Hlay & Htext & Hid).
    destruct (settings_createChatLayer (layerOptions (saveLayer l)) e)
      as (Hst & Hname & Hsel).
    assert (Hreg1 : Editor.censoredRegions (snd (createChatLayer (layerOptions (saveLayer l)) e))
                    = Editor.censoredRegions e).
    { unfold createChatLayer. now destruct (ChatLayer.o_id _). }
    assert (Hnext1 : Editor.nextChatLayerId (snd (createChatLayer (layerOptions (saveLayer l)) e))
                     = Editor.nextChatLayerId e) by reflexivity.
    assert (Hnew : new = ChatLayer.mk (ChatLayer.id l)
                           (orElse (ChatLayer.name l)
                                   (layerName (length (Editor.chatLayers e) + 1)))
                           (ChatLayer.text l) [] (ChatLayer.transform l)
                           (ChatLayer.visible l)).
    { unfold createChatLayer in Hlay. cbn in Hlay. apply app_inv_head in Hlay.
      now injection Hlay as <-. }
    destruct (createChatLayer (layerOptions (saveLayer l)) e) as [i e1].
    cbn [fst snd] in *. subst i.
    set (n := length (Editor.chatLayers e)) in *.
    assert (Hn : Editor.chatLayers e1 !! n = Some new).
    { rewrite Hlay. unfold n. now rewrite lookup_app_r, Nat.sub_diag by lia. }
    set (e2 := parseChatlog (Some n) e1).
    destruct (parseChatlog_layers e1 n new Hn) as (a & Ha & Hlay2). fold e2 in Hlay2.
    cbv zeta in Hlay2.
    set (p := parseText (Editor.stripTimestamps e1) (Editor.characterName e1)
                        (ChatLayer.text new)) in *.
    destruct (parseChatlog_settings e1 (Some n)) as [Hst2 Hname2]. fold e2 in Hst2, Hname2.
    assert (Hsk2 : skeleton e2 = skeleton e1).
    { apply skeleton_parseChatlog. rewrite Hlay. now destruct (Editor.chatLayers e). }
    assert (Hid2 : layerIdAt n e2 = Some (ChatLayer.id l)).
    { unfold layerIdAt. rewrite Hlay2.
      rewrite <- list_lookup_fmap.
      rewrite (fmap_alter_fixed ChatLayer.id), (fmap_alter_fixed ChatLayer.id)
        by reflexivity.
      rewrite list_lookup_fmap, Hn, Hnew. reflexivity. }
    rewrite Hid2.
    set (e3 := Editor.set_nextChatLayerId _ e2).
    specialize (IH e3).
    assert (Hvis3 : Forall (fun x => ChatLayer.visible x = true) (Editor.chatLayers e3)).
    { unfold e3. cbn [Editor.chatLayers Editor.set_nextChatLayerId]. rewrite Hlay2.
      apply Forall_alter_visible; [now intros []|].
      rewrite Hlay. unfold n. rewrite alter_app_r_alt, Nat.sub_diag by lia.
      apply Forall_app. split; [exact Hvis|]. cbn. now constructor. }
    destruct (IH Hvis3) as (H1 & H2 & H3 & H4 & H5 & H6 & H7 & H8).
    assert (Hf3 : savedFields <$> Editor.chatLayers e3
                  = (savedFields <$> Editor.chatLayers e) ++ [savedFields l]).
    { unfold e3. cbn [Editor.chatLayers Editor.set_nextChatLayerId]. rewrite Hlay2.
      rewrite !fmap_alter_fixed by (now intros []).
      rewrite Hlay, fmap_app, Hnew. reflexivity. }
    assert (Hnext3 : Editor.nextChatLayerId e3
                     = Z.max (Editor.nextChatLayerId e) (ChatLayer.id l + 1)).
    { unfold e3. cbn [Editor.nextChatLayerId Editor.set_nextChatLayerId].
      unfold skeleton in Hsk2. injection Hsk2 as _ Hx _ _ _. now rewrite Hx, Hnext1. }
    split; [|split; [exact H2|split; [|split; [|split; [|split; [|split]]]]]].
    + rewrite H1, Hf3, <- app_assoc. reflexivity.
    + rewrite H3. unfold e3. cbn [Editor.censoredRegions Editor.set_nextChatLayerId].
      unfold skeleton in Hsk2. congruence.
    + rewrite H4. unfold e3. cbn [Editor.selectedChatLayerId Editor.set_nextChatLayerId].
      unfold skeleton in Hsk2. congruence.
    + rewrite H5. unfold e3. cbn [Editor.stripTimestamps Editor.set_nextChatLayerId].
      congruence.
    + rewrite H6. unfold e3. cbn [Editor.characterName Editor.set_nextChatLayerId].
      congruence.
    + lia.
    + constructor; [lia|exact H8].
Qed.


Lemma map_fmap {A B} (f : A -> B) (l : list A) : List.map f l = f <$> l.
Proof. induction l as [|x l IH]; [reflexivity|]. cbn. now rewrite IH. Qed.

Lemma layerIds_savedFields e e' :
  savedFields <$> Editor.chatLayers e' = savedFields <$> Editor.chatLayers e ->
  layerIds e' = layerIds e.
Proof.
  intros H. unfold layerIds.
  assert (Hc : forall l : list ChatLayer.t,
             ChatLayer.id <$> l = (fun x => fst (fst x)) <$> (savedFields <$> l)).
  { intros l. rewrite <- list_fmap_compose. reflexivity. }
  now rewrite !Hc, H.
Qed.

(** X26: Loading what [saveEditorState] wrote of a session with identities in
    order, into any session: the layers come back in their order with their
    ids, texts and transforms; every layer is shown, whatever was saved; the
    selected id, the censored regions, the two options of the parse and the
    settings of the export come back; the selection is dropped; and the
    next id is above every id of the store. *)
Theorem load_save_round_trip (s s' : Session.t) :
  wellFormed (Session.editor s) ->
  let r := loadEditorState (Some (saveEditorState s)) s' in
  savedFields <$> Editor.chatLayers (Session.editor r)
  = savedFields <$> Editor.chatLayers (Session.editor s)
  /\ Forall (fun x => ChatLayer.visible x = true) (Editor.chatLayers (Session.editor r))
  /\ Editor.selectedChatLayerId (Session.editor r)
     = Editor.selectedChatLayerId (Session.editor s)
  /\ Editor.censoredRegions (Session.editor r) = Editor.censoredRegions (Session.editor s)
  /\ SelectedText.layerId (Editor.selectedText (Session.editor r)) = -1
  /\ Editor.stripTimestamps (Session.editor r) = Editor.stripTimestamps (Session.editor s)
  /\ Editor.characterName (Session.editor r) = Editor.characterName (Session.editor s)
  /\ Session.showBlackBars r = Session.showBlackBars s
  /\ Session.screenshotTheme r = Session.screenshotTheme s
  /\ Session.alwaysPromptSaveLocation r = Session.alwaysPromptSaveLocation s
  /\ Forall (fun x => ChatLayer.id x < Editor.nextChatLayerId (Session.editor r))
            (Editor.chatLayers (Session.editor s)).
Proof.
  intros Hwf r. destruct Hwf as (_ & _ & (sid & Hsel & Hsid) & _).
  unfold r, loadEditorState, saveEditorState. cbv zeta.
  cbn [Saved.characterName Saved.chatLayers Saved.selectedChatLayerId
       Saved.showBlackBars Saved.censoredRegions Saved.selectedText
       Saved.stripTimestamps Saved.chatLineWidth Saved.screenshotTheme
       Saved.alwaysPromptSaveLocation Saved.chatlogText default
       Session.editor Session.showBlackBars Session.screenshotTheme
       Session.alwaysPromptSaveLocation].
  rewrite Hsel. rewrite (map_fmap saveLayer).
  match goal with
  | |- context [restoreLayers _ ?x] => set (e0 := x)
  end.
  assert (H0 : Editor.chatLayers e0 = []) by reflexivity.
  assert (Hreg0 : Editor.censoredRegions e0 = Editor.censoredRegions (Session.editor s)).
  { unfold e0. cbn.
    rewrite List.map_map. erewrite List.map_ext; [apply List.map_id|].
    intros x. apply loadRegion_saveRegion. }
  assert (Hst0 : Editor.stripTimestamps e0 = Editor.stripTimestamps (Session.editor s))
    by reflexivity.
  assert (Hname0 : Editor.characterName e0 = Editor.characterName (Session.editor s)).
  { unfold e0. cbn. unfold orElse. now destruct (Editor.characterName (Session.editor s)). }
  destruct (restoreLayers_saved (Editor.chatLayers (Session.editor s)) e0)
    as (H1 & H2 & H3 & H4 & H5 & H6 & H7 & H8).
  { rewrite H0. constructor. }
  cbv zeta in H1, H2, H3, H4, H5, H6, H7, H8.
  set (er := restoreLayers (saveLayer <$> Editor.chatLayers (Session.editor s)) e0) in *.
  rewrite H0 in H1. cbn [fmap list_fmap app] in H1.
  assert (Hids : layerIds er = layerIds (Session.editor s)).
  { apply layerIds_savedFields. exact H1. }
  assert (Hin : sid ∈ layerIds er) by now rewrite Hids.
  destruct (skeleton_selectChatLayer er sid) as (sid' & st & Hsk & _ & _ & Heq).
  { apply nonempty_layerIds. intros Hn. rewrite Hn in Hin. now apply elem_of_nil in Hin. }
  destruct (Heq Hin) as [-> ->].
  destruct (settings_selectChatLayer sid er) as [Hst Hname].
  apply findIndex_layerIds in Hin as [i Hi].
  destruct (findIndex_Some _ _ _ Hi) as (l & Hl & _).
  pose proof (selectChatLayer_found er sid i l Hi Hl) as Hlay.
  unfold skeleton in Hsk. injection Hsk as Hk1 Hk2 Hk3 Hk4 Hk5.
  cbn [Session.editor Session.showBlackBars Session.screenshotTheme
       Session.alwaysPromptSaveLocation].
  repeat split.
  - rewrite Hlay. destruct (_ && _); [|exact H1].
    rewrite fmap_alter_fixed by (now intros []). exact H1.
  - rewrite Hlay. destruct (_ && _); [|exact H2].
    apply Forall_alter_visible; [now intros []|exact H2].
  - exact Hk3.
  - congruence.
  - exact Hk5.
  - congruence.
  - congruence.
  - unfold orElse. now destruct (Session.screenshotTheme s).
  - rewrite Hk2. exact H8.
Qed.

End RoundTrip.

(** ** Instances of the further properties *)

Section MoreInstances.
Import JsString.

Lemma timestamp_prefix_stripped_witness :
  parseLine true "" 0 (timestamp "1" "2" "3" "4" "5" "6" +:+ " " +:+ "Hello")
  = parseLine false "" 0 "Hello".
Proof.
  exact (timestamp_prefix_stripped "1" "2" "3" "4" "5" "6" " " "Hello" "" 0
           eq_refl eq_refl eq_refl).
Defined.


Lemma cellphone_tier_witness :
  truthy "Bob" = true
  /\ matches cellphoneRule "John (cellphone): hi" = true
  /\ parseLine false "Bob" 2 "John (cellphone): hi"
     = ParsedLine.mk 2 "John (cellphone): hi" "rgb(251, 247, 36)".
Proof.
  assert (H : matches cellphoneRule "John (cellphone): hi" = true)
    by (vm_compute; reflexivity).
  split; [reflexivity|]. split; [exact H|].
  exact (cellphone_tier false "Bob" "John (cellphone): hi" 2 eq_refl H).
Defined.

Lemma applyCensoring_one_region_witness :
  List.filter (onLine 1 0) [barRegion] = [barRegion]
  /\ applyCensoring [barRegion] "abcdefghij" 0 1
     = "abc" +:+ censorMarkup CensorType.BlackBar "defgh" +:+ "ij".
Proof.
  split; [reflexivity|].
  assert (H1 : 0 <= CensoredRegion.startOffset barRegion
               <= CensoredRegion.endOffset barRegion) by (unfold barRegion, emptyRegion, len; simpl; lia).
  assert (H2 : CensoredRegion.endOffset barRegion <= len "abcdefghij") by (unfold barRegion, emptyRegion, len; simpl; lia).
  exact (proj1 (proj2 (applyCensoring_one_region [barRegion] "abcdefghij" 0 1)
                 barRegion eq_refl H1 H2)).
Defined.

Lemma drawTextSegment_terminates_witness :
  Forall nonDegenerate overlapRegions
  /\ is_Some (drawTextSegment sevenPx false overlapRegions 10 "abcdefghij" 4 0
                "white" 0 0 1).
Proof.
  assert (H : Forall nonDegenerate overlapRegions).
  { repeat constructor. }
  split; [exact H|].
  exact (drawTextSegment_terminates sevenPx false overlapRegions "abcdefghij" 4 0
           "white" 0 0 1 H).
Defined.

Lemma drawTextSegment_diverges_witness :
  nextCensorAt [emptyRegion] 0 1 0 "abcdefghij" = Some emptyRegion
  /\ drawTextSegment sevenPx false [emptyRegion] 1000 "abcdefghij" 4 0 "white" 0 0 1
     = None.
Proof.
  split; [reflexivity|].
  assert (H : CensoredRegion.startOffset emptyRegion < 0 + len "abcdefghij")
    by (unfold barRegion, emptyRegion, len; simpl; lia).
  exact (drawTextSegment_diverges sevenPx false [emptyRegion] "abcdefghij" 4 0 "white"
           0 0 1 emptyRegion eq_refl eq_refl H 1000%nat).
Defined.

Lemma drawTextSegment_one_region_witness :
  List.filter (onLine 1 0) [barRegion] = [barRegion]
  /\ drawTextSegment sevenPx false [barRegion] 2 "abcdefghij" 4 0 "white" 0 0 1
     = Some (plainPaint sevenPx false "abc" 4 0 "white"
             ++ censorPaint sevenPx false CensorType.BlackBar "defgh"
                            (4 + sevenPx "abc") 0 "white"
             ++ plainPaint sevenPx false "ij"
                  (4 + sevenPx "abc" + sevenPx "defgh") 0 "white").
Proof.
  split; [reflexivity|].
  assert (H1 : 0 <= CensoredRegion.startOffset barRegion
               < CensoredRegion.endOffset barRegion) by (unfold barRegion, emptyRegion, len; simpl; lia).
  assert (H2 : CensoredRegion.endOffset barRegion <= 0 + len "abcdefghij")
    by (unfold barRegion, emptyRegion, len; simpl; lia).
  exact (proj2 (drawTextSegment_one_region sevenPx false [barRegion] "abcdefghij" 4 0
                  "white" 0 0 1 0)
           barRegion eq_refl H1 H2).
Defined.

Lemma wrapLine_offsets_witness :
  Forall (fun w => truthy w = true) (split " " "aaaa bbbb")
  /\ Forall (fun run : Run =>
               exists a b, "aaaa bbbb" = a +:+ fst run +:+ b /\ len a = snd run)
            (wrapLine sevenPx 35 "aaaa bbbb").
Proof.
  assert (H : Forall (fun w => truthy w = true) (split " " "aaaa bbbb")).
  { repeat constructor. }
  split; [exact H|]. exact (wrapLine_offsets sevenPx 35 "aaaa bbbb" H).
Defined.

Lemma wrapLine_reconstructs_witness :
  Forall (fun w => truthy w = true) (split " " "aaaa bbbb")
  /\ join " " (List.map fst (wrapLine sevenPx 35 "aaaa bbbb")) = "aaaa bbbb".
Proof.
  assert (H : Forall (fun w => truthy w = true) (split " " "aaaa bbbb")).
  { repeat constructor. }
  split; [exact H|]. exact (wrapLine_reconstructs sevenPx 35 "aaaa bbbb" H).
Defined.


Lemma drawRun_marker_ignores_offset_witness :
  isSome (drawSpecialLine sevenPx false [barRegion] "[!] Door" 4 0 0 1) = true
  /\ drawRun sevenPx false [barRegion] 10 ("[!] Door", 0) 0 "white" 0 1
     = drawRun sevenPx false [barRegion] 10 ("[!] Door", 12) 0 "red" 0 1.
Proof.
  assert (H : isSome (drawSpecialLine sevenPx false [barRegion] "[!] Door" 4 0 0 1)
              = true) by (vm_compute; reflexivity).
  split; [exact H|].
  exact (drawRun_marker_ignores_offset sevenPx [barRegion] false 10 10 "[!] Door"
           0 12 0 "white" "red" 0 1 H).
Defined.


Lemma wellFormed_twoLayers : wellFormed twoLayers.
Proof.
  apply (wellFormed_of twoLayers [1; 2] 3 2
           (Editor.censoredRegions twoLayers) 1); try reflexivity.
  - apply (bool_decide_unpack _). vm_compute. exact I.
  - repeat (constructor; [lia|]). constructor.
  - apply list_elem_of_further, list_elem_of_here.
  - constructor; [apply list_elem_of_here|].
    constructor; [apply list_elem_of_further, list_elem_of_here|constructor].
  - right. apply list_elem_of_here.
Qed.

Lemma identities_stay_in_order_witness :
  wellFormed twoLayers
  /\ wellFormed (handleEvent twoLayers (RemoveLayer 1))
  /\ wellFormed (fold_left handleEvent [AddLayer; CycleCensor; RemoveLayer 1] bootstrap).
Proof.
  split; [exact wellFormed_twoLayers|]. split.
  - exact (proj1 (proj2 identities_stay_in_order) twoLayers (RemoveLayer 1)
             wellFormed_twoLayers).
  - exact (proj2 (proj2 identities_stay_in_order) [AddLayer; CycleCensor; RemoveLayer 1]).
Defined.

Lemma moveChatLayer_round_trip_witness :
  NoDup (layerIds twoLayers)
  /\ findIndex (hasId 1) (Editor.chatLayers twoLayers) = Some 0%nat
  /\ Editor.chatLayers (moveChatLayer 1 down twoLayers) = [emptyLayer; hiddenLayer]
  /\ moveChatLayer 1 up (moveChatLayer 1 down twoLayers) = twoLayers.
Proof.
  assert (H : NoDup (layerIds twoLayers)) by exact (proj1 wellFormed_twoLayers).
  split; [exact H|]. split; [reflexivity|].
  exact (moveChatLayer_round_trip 1 twoLayers 0 hiddenLayer emptyLayer H
           eq_refl eq_refl eq_refl).
Defined.

Lemma addChatLayer_appends_witness :
  (Editor.nextChatLayerId twoLayers ∉ layerIds twoLayers)
  /\ Editor.chatLayers (addChatLayer twoLayers)
     = [hiddenLayer; emptyLayer;
        ChatLayer.mk 3 "Layer 3" "" [] Transform.identity true]
  /\ activeChatLayer (addChatLayer twoLayers) = Some 2%nat.
Proof.
  assert (H : Editor.nextChatLayerId twoLayers ∉ layerIds twoLayers).
  { apply (bool_decide_unpack _). vm_compute. exact I. }
  split; [exact H|].
  destruct (addChatLayer_appends twoLayers H) as (H1 & _ & H3).
  split; [exact H1|exact H3].
Defined.

Lemma parseChatlog_overwrites_active_witness :
  activeChatLayer twoLayers = Some 1%nat
  /\ Editor.chatLayers (parseChatlog (Some 0%nat) twoLayers) !! 1%nat
     = Some (ChatLayer.set_parsedLines (parseText false "" chat2) emptyLayer).
Proof.
  split; [reflexivity|].
  assert (Hne : 0%nat <> 1%nat) by discriminate.
  exact (parseChatlog_overwrites_active twoLayers 0 1 hiddenLayer emptyLayer
           Hne eq_refl eq_refl eq_refl).
Defined.


Lemma handleChatFileSelect_imports_witness :
  String.eqb "text/plain" "text/plain" || endsWith ".txt" "chat.log" = true
  /\ Editor.chatLayers (handleChatFileSelect "text/plain" "chat.log" (Some chat2)
                          twoLayers) !! 1%nat
     = Some (ChatLayer.mk 2 "Layer 2" chat2 (parseText false "" chat2)
                          Transform.identity true).
Proof.
  split; [reflexivity|].
  exact (handleChatFileSelect_imports "text/plain" "chat.log" chat2 twoLayers 1
           emptyLayer eq_refl eq_refl eq_refl).
Defined.

Lemma restoreLayers_first_layer_lines_witness :
  Editor.chatLayers emptyStore = []
  /\ Editor.selectedChatLayerId emptyStore = Some 1
  /\ exists l0,
       Editor.chatLayers
         (restoreLayers [saveLayer hiddenLayer; saveLayer copyLayer] emptyStore) !! 0%nat
       = Some l0
       /\ ChatLayer.id l0 = 1
       /\ ChatLayer.text l0 = chat2
       /\ ChatLayer.parsedLines l0 = parseText false "" "*nods*".
Proof.
  split; [reflexivity|]. split; [reflexivity|].
  exact (restoreLayers_first_layer_lines (saveLayer hiddenLayer) [saveLayer copyLayer]
           1 emptyStore eq_refl eq_refl eq_refl).
Defined.

Lemma handleTextSelection_locates_witness :
  isEmpty (trim "says") = false
  /\ 0 <= TextArea.selectionStart chatArea <= len (TextArea.value chatArea)
  /\ exists (i : nat) (line post : string),
       let lines := split nl (TextArea.value chatArea) in
       let pre := terminated (List.firstn i lines) in
       lines !! i = Some line
       /\ TextArea.value chatArea = pre +:+ line +:+ post
       /\ len pre <= TextArea.selectionStart chatArea <= len pre + len line
       /\ Editor.selectedText (handleTextSelection (Some "says") (Some chatArea) twoLayers)
          = SelectedText.mk
              (default (-1) (activeChatLayer twoLayers ≫= fun a => layerIdAt a twoLayers))
              (Z.of_nat i)
              (TextArea.selectionStart chatArea - len pre)
              (TextArea.selectionEnd chatArea - len pre)
              (trim "says").
Proof.
  assert (H : 0 <= TextArea.selectionStart chatArea <= len (TextArea.value chatArea))
    by (unfold chatArea, len; simpl; lia).
  split; [reflexivity|]. split; [exact H|].
  exact (handleTextSelection_locates "says" chatArea twoLayers eq_refl H).
Defined.

Lemma wheel_keeps_zoom_in_range_witness :
  inRange (1 # 10) 10 (Transform.scale (Canvas.imageTransform Canvas.initial))
  /\ inRange (1 # 10) 10
       (Transform.scale (Canvas.imageTransform (handleWheel (-1) Canvas.initial)))
  /\ inRange (1 # 2) 3 (Transform.scale (Editor.chatTransform twoLayers))
  /\ inRange (1 # 2) 3
       (Transform.scale (Editor.chatTransform (handleChatWheel (-1) twoLayers))).
Proof.
  assert (H1 : inRange (1 # 10) 10
                 (Transform.scale (Canvas.imageTransform Canvas.initial)))
    by (split; discriminate).
  assert (H2 : inRange (1 # 2) 3 (Transform.scale (Editor.chatTransform twoLayers)))
    by (split; discriminate).
  split; [exact H1|]. split.
  - exact (proj1 (proj1 (wheel_keeps_zoom_in_range (-1)) Canvas.initial H1)).
  - split; [exact H2|].
    exact (proj1 (proj2 (wheel_keeps_zoom_in_range (-1)) twoLayers H2)).
Defined.

Lemma load_save_round_trip_witness :
  wellFormed (Session.editor twoLayerSession)
  /\ savedFields
       <$> Editor.chatLayers
             (Session.editor
                (loadEditorState (Some (saveEditorState twoLayerSession)) freshSession))
     = savedFields <$> Editor.chatLayers twoLayers
  /\ Editor.censoredRegions
       (Session.editor
          (loadEditorState (Some (saveEditorState twoLayerSession)) freshSession))
     = Editor.censoredRegions twoLayers.
Proof.
  split; [exact wellFormed_twoLayers|].
  destruct (load_save_round_trip twoLayerSession freshSession wellFormed_twoLayers)
    as (H1 & _ & _ & H4 & _).
  split; [exact H1|exact H4].
Defined.

End MoreInstances.

(** ** Selecting and removing a layer, and the colour of a parsed line *)

Section SelectionOfLayers.
Import JsString.

(** X27: [selectChatLayer] keeps the ids, the next id and the censored regions.
    For the id of a layer of the store it selects that id and drops the
    selection; for any other id it selects the id of the active layer
    instead, and keeps the selection. *)
Theorem selectChatLayer_selects (id : Z) (e : Editor.t) :
  (id ∈ layerIds e ->
   skeleton (selectChatLayer id e)
   = (layerIds e, Editor.nextChatLayerId e, Some id, Editor.censoredRegions e, -1))
  /\ (forall a fb,
        id ∉ layerIds e ->
        activeChatLayer e = Some a ->
        Editor.chatLayers e !! a = Some fb ->
        skeleton (selectChatLayer id e)
        = (layerIds e, Editor.nextChatLayerId e, Some (ChatLayer.id fb),
           Editor.censoredRegions e,
           SelectedText.layerId (Editor.selectedText e))).
Proof.
  split.
  - intros Hin.
    destruct (skeleton_selectChatLayer e id) as (sid & st & Hsk & _ & _ & Heq).
    { apply nonempty_layerIds. intros Hn. rewrite Hn in Hin. now apply elem_of_nil in Hin. }
    destruct (Heq Hin) as [-> ->]. exact Hsk.
  - intros a fb Hnin Ha Hfb. unfold selectChatLayer.
    destruct (findIndex (hasId id) (Editor.chatLayers e)) as [i|] eqn:Hi.
    { exfalso. apply Hnin. apply findIndex_layerIds. eauto. }
    unfold ensureActiveLayer. rewrite Ha, Hfb. cbv zeta.
    match goal with
    | |- skeleton (Editor.set_chatTransform ?t ?x) = _ =>
        change (skeleton (Editor.set_chatTransform t x)) with (skeleton x)
    end.
    now rewrite skeleton_set_chatlogText, skeleton_set_parsedChatLines.
Qed.

(** X28: [removeChatLayer], for the id of a layer of a store with more than one
    layer: the first layer with that id leaves the store, the regions of
    that id leave the censored regions, the layer before the removed one,
    or else the first layer, becomes the selected layer, and the selection
    is dropped. *)
Theorem removeChatLayer_selects_fallback (id : Z) (e : Editor.t) (index : nat) :
  (1 < length (Editor.chatLayers e))%nat ->
  findIndex (hasId id) (Editor.chatLayers e) = Some index ->
  exists fb,
    fallbackLayer index (delete index (Editor.chatLayers e)) = Some fb
    /\ skeleton (removeChatLayer id e)
       = (delete index (layerIds e), Editor.nextChatLayerId e, Some (ChatLayer.id fb),
          List.filter (notOfLayer id) (Editor.censoredRegions e), -1).
Proof.
  intros Hlt Hi.
  destruct (removeChatLayer_removes e id index Hlt Hi) as (fb & Hfb & ->).
  exists fb. split; [exact Hfb|].
  set (e1 := Editor.set_censoredRegions _ _).
  assert (Hids : layerIds e1 = delete index (layerIds e)).
  { unfold layerIds, e1. cbn. now rewrite list_fmap_delete. }
  assert (Hin : ChatLayer.id fb ∈ layerIds e1).
  { unfold layerIds. apply list_elem_of_fmap. exists fb. split; [reflexivity|].
    apply (fallbackLayer_elem index). exact Hfb. }
  destruct (skeleton_selectChatLayer e1 (ChatLayer.id fb))
    as (sid & st & Hsk & _ & _ & Heq).
  { apply nonempty_layerIds. intros H. rewrite H in Hin. now apply elem_of_nil in Hin. }
  destruct (Heq Hin) as [-> ->]. rewrite Hsk, Hids. reflexivity.
Qed.

Lemma truthy_colorOrWhite c : truthy (colorOrWhite c) = true.
Proof.
  destruct c as [c|]; [|reflexivity]. cbn [colorOrWhite]. unfold orElse.
  destruct (truthy c) eqn:Hc; [exact Hc|reflexivity].
Qed.

Lemma truthy_parseLine strip name index line :
  truthy (ParsedLine.color (parseLine strip name index line)) = true.
Proof.
  unfold parseLine. destruct (classifyLine strip name line) as [text color].
  apply truthy_colorOrWhite.
Qed.

(** X29: Every line that a parse stores has a colour that is not empty, so the
    export, which takes [line.color || getTextColor(rawText)], takes the
    colour of the line and never the one of [getTextColor]. *)
Theorem parsed_line_colour_is_used (strip : bool) (name sourceText : string) :
  Forall (fun line => truthy (ParsedLine.color line) = true
                      /\ forall d, orElse (ParsedLine.color line) d = ParsedLine.color line)
         (parseText strip name sourceText).
Proof.
  unfold parseText. destruct (truthy sourceText); [|constructor].
  apply Forall_forall. intros line Hin.
  apply list_elem_of_lookup in Hin as [i Hi].
  rewrite list_lookup_imap in Hi.
  destruct (chatLines sourceText !! i) as [l|]; [|discriminate].
  cbn in Hi. injection Hi as <-.
  pose proof (truthy_parseLine strip name i l) as Ht.
  split; [exact Ht|]. intros d. unfold orElse. now rewrite Ht.
Qed.

End SelectionOfLayers.

Section LastInstances.
Import JsString.

Lemma selectChatLayer_selects_witness :
  (2 ∈ layerIds twoLayers)
  /\ skeleton (selectChatLayer 2 twoLayers)
     = ([1; 2], 3, Some 2, Editor.censoredRegions twoLayers, -1)
  /\ (9 ∉ layerIds twoLayers)
  /\ skeleton (selectChatLayer 9 twoLayers)
     = ([1; 2], 3, Some 2, Editor.censoredRegions twoLayers, 1).
Proof.
  assert (H1 : 2 ∈ layerIds twoLayers) by (apply list_elem_of_further, list_elem_of_here).
  assert (H2 : 9 ∉ layerIds twoLayers).
  { apply (bool_decide_unpack _). vm_compute. exact I. }
  split; [exact H1|]. split.
  - exact (proj1 (selectChatLayer_selects 2 twoLayers) H1).
  - split; [exact H2|].
    exact (proj2 (selectChatLayer_selects 9 twoLayers) 1%nat emptyLayer H2
             eq_refl eq_refl).
Defined.

Lemma removeChatLayer_selects_fallback_witness :
  (1 < length (Editor.chatLayers twoLayers))%nat
  /\ findIndex (hasId 2) (Editor.chatLayers twoLayers) = Some 1%nat
  /\ exists fb,
       fallbackLayer 1 (delete 1%nat (Editor.chatLayers twoLayers)) = Some fb
       /\ skeleton (removeChatLayer 2 twoLayers)
          = (delete 1%nat (layerIds twoLayers), Editor.nextChatLayerId twoLayers,
             Some (ChatLayer.id fb),
             List.filter (notOfLayer 2) (Editor.censoredRegions twoLayers), -1).
Proof.
  assert (H : (1 < length (Editor.chatLayers twoLayers))%nat) by apply le_n.
  split; [exact H|]. split; [reflexivity|].
  exact (removeChatLayer_selects_fallback 2 twoLayers 1 H eq_refl).
Defined.

End LastInstances.
